(** * formencode: htmlfill.FillingParser and schema.merge_values

    A shallow embedding of [src/htmlfill.py] (the streaming form filler)
    and, from [src/schema.py], of the error-merge functions, of
    [format_compound_error] and of the methods that add to a schema's
    shared containers, followed by the properties proved about them.

    Python dictionaries are finite maps ([gmap]); a dictionary used as a
    set ([used_keys], [used_errors]) is a [gset]; iteration over a
    dictionary follows [map_to_list] / [elements].  Exceptions are values
    of type [exn] carried by the [result] type. *)

From Stdlib Require Import ZArith Ascii String.
From stdpp Require Import base option list strings gmap pretty sorting.

Set Warnings "-register-all,-clear-no-such-hyp".
Open Scope string_scope.
Open Scope list_scope.
Open Scope nat_scope.

(** ** Python values and exceptions *)

Module Py.

(** The exceptions the modelled code can raise. *)
Inductive exn :=
| AssertionError (msg : string)
| ValueError (msg : string)
| TypeError (msg : string)
| KeyError (msg : string)
| IndexError (msg : string).

Inductive result (A : Type) :=
| Ok (a : A)
| Raise (e : exn).
Arguments Ok {A} a.
Arguments Raise {A} e.

(** Sequencing: the first exception raised aborts the computation.
    [x ← m; k] and [m;; k] below are stdpp's notations for [mbind]. *)
Global Instance result_bind : MBind result := λ A B f m,
  match m with
  | Ok a => f a
  | Raise e => Raise e
  end.

Global Instance result_ret : MRet result := λ A a, Ok a.

Definition is_ok {A} (m : result A) : bool :=
  match m with Ok _ => true | Raise _ => false end.

(** Run an effectful function over a list, left to right. *)
Fixpoint mapM {A B} (f : A → result B) (l : list A) : result (list B) :=
  match l with
  | [] => Ok []
  | x :: l' => y ← f x ; ys ← mapM f l' ; Ok (y :: ys)
  end.

(** A [for] loop threading a state through a list. *)
Fixpoint foldM {A S} (f : A → S → result S) (l : list A) (s : S) : result S :=
  match l with
  | [] => Ok s
  | x :: l' => s' ← f x s ; foldM f l' s'
  end.

(** Dictionary keys of [defaults] and [errors]: a field name, or [None]. *)
Abbreviation key := (option string).

(** The values found in [defaults] and [errors].  [VInt] is a machine
    [int]; [VList] is a [list]; [VHtml html text] is an [htmlliteral]
    instance. *)
Inductive pyval :=
| VNone
| VBool (b : bool)
| VInt (z : Z)
| VStr (s : string)
| VHtml (html text : string)
| VList (l : list pyval).

(** Truth value of an object in a condition. *)
Definition truthy (v : pyval) : bool :=
  match v with
  | VNone => false
  | VBool b => b
  | VInt z => negb (z =? 0)%Z
  | VStr s => negb (String.eqb s "")
  | VHtml _ _ => true
  | VList l => match l with [] => false | _ => true end
  end.

(** [a or b] *)
Definition py_or (a b : pyval) : pyval := if truthy a then a else b.

(** *** Strings *)

Definition str_join (sep : string) (l : list string) : string :=
  String.concat sep l.

(** [c in s] for a one-character [c] *)
Fixpoint str_contains (c : ascii) (s : string) : bool :=
  match s with
  | EmptyString => false
  | String a s' => if Ascii.eqb a c then true else str_contains c s'
  end.

(** [s.replace(c, r)] for a one-character pattern [c] *)
Fixpoint replace_char (c : ascii) (r : string) (s : string) : string :=
  match s with
  | EmptyString => EmptyString
  | String a s' =>
      if Ascii.eqb a c then r +:+ replace_char c r s'
      else String a (replace_char c r s')
  end.

Definition lower_ascii (a : ascii) : ascii :=
  let n := nat_of_ascii a in
  if (65 <=? n)%nat && (n <=? 90)%nat then ascii_of_nat (n + 32) else a.

(** [s.lower()] *)
Fixpoint str_lower (s : string) : string :=
  match s with
  | EmptyString => EmptyString
  | String a s' => String (lower_ascii a) (str_lower s')
  end.

Definition is_space (a : ascii) : bool :=
  let n := nat_of_ascii a in
  (n =? 32)%nat || ((9 <=? n)%nat && (n <=? 13)%nat).

Fixpoint lstrip (s : string) : string :=
  match s with
  | EmptyString => EmptyString
  | String a s' => if is_space a then lstrip s' else s
  end.

Fixpoint rstrip (s : string) : string :=
  match s with
  | EmptyString => EmptyString
  | String a s' =>
      match rstrip s' with
      | EmptyString => if is_space a then EmptyString else String a EmptyString
      | r => String a r
      end
  end.

(** [s.strip()] *)
Definition str_strip (s : string) : string := rstrip (lstrip s).

(** [s.startswith(p)] *)
Definition startswith (p s : string) : bool := String.prefix p s.

(** The newline character. *)
Definition nl : ascii := ascii_of_nat 10.
Definition NL : string := String nl EmptyString.

(** [s.split('\n')]: always at least one piece. *)
Fixpoint split_lines (s : string) : list string :=
  match s with
  | EmptyString => [EmptyString]
  | String a s' =>
      if Ascii.eqb a nl then EmptyString :: split_lines s'
      else match split_lines s' with
           | [] => [String a EmptyString]
           | l :: ls => String a l :: ls
           end
  end.

(** [s[a:]], [s[:b]] and [s[a:b]] for non-negative bounds *)
Fixpoint str_drop (n : nat) (s : string) : string :=
  match n, s with
  | O, _ => s
  | S _, EmptyString => EmptyString
  | S n', String _ s' => str_drop n' s'
  end.

Fixpoint str_take (n : nat) (s : string) : string :=
  match n, s with
  | O, _ => EmptyString
  | S _, EmptyString => EmptyString
  | S n', String a s' => String a (str_take n' s')
  end.

Definition str_slice (a b : nat) (s : string) : string :=
  str_take (b - a) (str_drop a s).

(** The double-quote and backslash characters. *)
Definition dquote : ascii := ascii_of_nat 34.
Definition DQ : string := String dquote EmptyString.
Definition backslash : ascii := ascii_of_nat 92.

(** *** [repr] and [str] *)

Definition hex_digit (n : nat) : ascii :=
  ascii_of_nat (if (n <? 10)%nat then 48 + n else 87 + n).

Definition repr_char (q : ascii) (a : ascii) : string :=
  let n := nat_of_ascii a in
  if Ascii.eqb a q || Ascii.eqb a backslash then String backslash (String a EmptyString)
  else if (n =? 9)%nat then String backslash "t"
  else if (n =? 10)%nat then String backslash "n"
  else if (n =? 13)%nat then String backslash "r"
  else if (n <? 32)%nat || (127 <=? n)%nat then
    String backslash (String "x"%char
      (String (hex_digit (n / 16)) (String (hex_digit (n mod 16)) EmptyString)))
  else String a EmptyString.

Fixpoint repr_chars (q : ascii) (s : string) : string :=
  match s with
  | EmptyString => EmptyString
  | String a s' => repr_char q a +:+ repr_chars q s'
  end.

(** [repr(s)] of a byte string: single quotes unless the string has a
    single quote and no double quote. *)
Definition repr_str (s : string) : string :=
  let q := if str_contains "'"%char s && negb (str_contains dquote s)
           then dquote else "'"%char in
  String q (repr_chars q s) +:+ String q EmptyString.

Definition repr_key (k : key) : string :=
  match k with None => "None" | Some s => repr_str s end.

Definition str_key (k : key) : string :=
  match k with None => "None" | Some s => s end.

Definition repr_bool (b : bool) : string := if b then "True" else "False".

(** [repr(v)].  [htmlliteral.__repr__] applies a format with three
    conversions to a pair, which raises. *)
Fixpoint py_repr (v : pyval) : result string :=
  match v with
  | VNone => Ok "None"
  | VBool b => Ok (repr_bool b)
  | VInt z => Ok (pretty z)
  | VStr s => Ok (repr_str s)
  | VHtml _ _ => Raise (TypeError "not enough arguments for format string")
  | VList l =>
      rs ← (fix go (l : list pyval) : result (list string) :=
              match l with
              | [] => Ok []
              | x :: l' => r ← py_repr x ; rs ← go l' ; Ok (r :: rs)
              end) l ;
      Ok ("[" +:+ str_join ", " rs +:+ "]")
  end.

(** [str(v)] *)
Definition py_str (v : pyval) : result string :=
  match v with
  | VStr s => Ok s
  | VHtml _ text => Ok text
  | _ => py_repr v
  end.

(** [print a, b, ...]: only the conversions, which can raise, are kept. *)
Definition py_print (vs : list (result string)) : result unit :=
  foldM (λ r _, r;; Ok tt) vs tt.

(** [repr(d)] of a dictionary, for printing. *)
Definition repr_dict (d : gmap key pyval) : result string :=
  rs ← mapM (λ kv : key * pyval, r ← py_repr kv.2 ; Ok (repr_key kv.1 +:+ ": " +:+ r))
        (map_to_list d) ;
  Ok ("{" +:+ str_join ", " rs +:+ "}").

End Py.

(** ** htmlfill.py *)

Module Htmlfill.
Import Py.

(** The standard library's [cgi.escape(s, quote)]. *)
Definition cgi_escape (s : string) (quote : bool) : string :=
  let s := replace_char "&" "&amp;" s in
  let s := replace_char "<" "&lt;" s in
  let s := replace_char ">" "&gt;" s in
  if quote then replace_char dquote "&quot;" s else s.

Definition html_quote (v : pyval) : result string :=
  match v with
  | VNone => Ok EmptyString
  | VHtml html _ => Ok html
  | _ => s ← py_str v; Ok (cgi_escape s true)
  end.

(** An error formatter maps an error value to what is written out. *)
Definition formatter : Type := pyval → result pyval.

Definition default_formatter : formatter := λ error,
  q ← html_quote error;
  Ok (VStr ("<span class=" +:+ DQ +:+ "error-message" +:+ DQ +:+ ">" +:+ q
            +:+ "</span><br />" +:+ NL)).

Definition none_formatter : formatter := λ error, Ok error.

(** [escape_formatter] calls the one-argument [html_quote] with two. *)
Definition escape_formatter : formatter := λ error,
  Raise (TypeError "html_quote() takes exactly 1 argument (2 given)").

Definition builtin_formatters : gmap string formatter :=
  <["default" := default_formatter]>
    (<["none" := none_formatter]> (<["escape" := escape_formatter]> ∅)).

(** *** Attribute lists

    A tag's attributes are an ordered list of (name, value) pairs.  The
    tokenizer delivers values that are a string or [None]; once a default
    is stored in a tag the values are arbitrary objects, so the three
    primitives are generic in the type of values. *)

Section attr_ops.
Context {V : Type}.

Fixpoint get_attr (attr : list (string * V)) (name : string) (default : V) : V :=
  match attr with
  | [] => default
  | (n, value) :: rest =>
      if String.eqb (str_lower n) name then value else get_attr rest name default
  end.

Fixpoint set_attr (attr : list (string * V)) (name : string) (value : V)
  : list (string * V) :=
  match attr with
  | [] => [(name, value)]
  | (n, v) :: rest =>
      if String.eqb (str_lower n) name then (name, value) :: rest
      else (n, v) :: set_attr rest name value
  end.

Fixpoint del_attr (attr : list (string * V)) (name : string) : list (string * V) :=
  match attr with
  | [] => []
  | (n, v) :: rest =>
      if String.eqb (str_lower n) name then rest
      else (n, v) :: del_attr rest name
  end.
End attr_ops.

(** Attributes as the tokenizer delivers them. *)
Abbreviation attrs := (list (string * option string)).

Definition of_attr (v : option string) : pyval :=
  match v with None => VNone | Some s => VStr s end.

(** The same list seen as a list of objects. *)
Definition as_objects (a : attrs) : list (string * pyval) :=
  map (λ nv, (nv.1, of_attr nv.2)) a.

(** [a + b] where [b] is a string *)
Definition str_add (a : option string) (b : string) : result string :=
  match a with
  | Some s => Ok (s +:+ b)
  | None => Raise (TypeError "unsupported operand type(s) for +: 'NoneType' and 'str'")
  end.

Definition add_class (attr : attrs) (class_name : string) : result attrs :=
  let current := get_attr attr "class" (Some EmptyString) in
  new ← str_add current (" " +:+ class_name);
  Ok (set_attr attr "class" (Some (str_strip new))).

(** *** The parser *)

(** The content buffer holds written objects and markers [(key,)]. *)
Inductive item :=
| Text (t : pyval)
| Marker (marker : key).

(** The constructor's arguments, fixed during a fill. *)
Record config := {
  defaults : gmap key pyval;
  errors : gmap key pyval;
  use_all_keys : bool;
  error_formatters : gmap string formatter;
  error_class : option string;
  add_attributes : gmap key (list (string * string));
  auto_error_formatter : option formatter
}.

(** The [errors] argument: [None], a string or a dictionary. *)
Inductive errors_arg :=
| ErrorsNone
| ErrorsStr (s : string)
| ErrorsDict (d : gmap key pyval).

(** [__init__]; [listener] is left at [None]. *)
Definition init (defaults : gmap key pyval) (errors : errors_arg)
    (use_all_keys : bool) (error_formatters : option (gmap string formatter))
    (error_class : option string)
    (add_attributes : option (gmap key (list (string * string))))
    (auto_error_formatter : option formatter) : config :=
  {| defaults := defaults;
     errors := match errors with
               | ErrorsNone => ∅
               | ErrorsStr s => if String.eqb s EmptyString then ∅
                                else {[ None := VStr s ]}
               | ErrorsDict d => d
               end;
     use_all_keys := use_all_keys;
     error_formatters := default builtin_formatters error_formatters;
     error_class := error_class;
     add_attributes := default ∅ add_attributes;
     auto_error_formatter := auto_error_formatter |}.

(** The mutable state of a parser. *)
Record parser := {
  _content : list item;
  lines : list string;
  source_pos : nat * nat;
  in_textarea : bool;
  in_select : option string;
  skip_next : bool;
  in_error : option string;
  skip_error : bool;
  used_keys : gset key;
  used_errors : gset key
}.

Definition new_parser : parser :=
  {| _content := []; lines := []; source_pos := (0, 0); in_textarea := false;
     in_select := None; skip_next := false; in_error := None;
     skip_error := false; used_keys := ∅; used_errors := ∅ |}.

Definition set_content (x : list item) (p : parser) : parser :=
  {| _content := x; lines := lines p; source_pos := source_pos p;
     in_textarea := in_textarea p; in_select := in_select p;
     skip_next := skip_next p; in_error := in_error p;
     skip_error := skip_error p; used_keys := used_keys p;
     used_errors := used_errors p |}.

Definition set_lines (x : list string) (p : parser) : parser :=
  {| _content := _content p; lines := x; source_pos := source_pos p;
     in_textarea := in_textarea p; in_select := in_select p;
     skip_next := skip_next p; in_error := in_error p;
     skip_error := skip_error p; used_keys := used_keys p;
     used_errors := used_errors p |}.

Definition set_source_pos (x : nat * nat) (p : parser) : parser :=
  {| _content := _content p; lines := lines p; source_pos := x;
     in_textarea := in_textarea p; in_select := in_select p;
     skip_next := skip_next p; in_error := in_error p;
     skip_error := skip_error p; used_keys := used_keys p;
     used_errors := used_errors p |}.

Definition set_in_textarea (x : bool) (p : parser) : parser :=
  {| _content := _content p; lines := lines p; source_pos := source_pos p;
     in_textarea := x; in_select := in_select p;
     skip_next := skip_next p; in_error := in_error p;
     skip_error := skip_error p; used_keys := used_keys p;
     used_errors := used_errors p |}.

Definition set_in_select (x : option string) (p : parser) : parser :=
  {| _content := _content p; lines := lines p; source_pos := source_pos p;
     in_textarea := in_textarea p; in_select := x;
     skip_next := skip_next p; in_error := in_error p;
     skip_error := skip_error p; used_keys := used_keys p;
     used_errors := used_errors p |}.

Definition set_skip_next (x : bool) (p : parser) : parser :=
  {| _content := _content p; lines := lines p; source_pos := source_pos p;
     in_textarea := in_textarea p; in_select := in_select p;
     skip_next := x; in_error := in_error p;
     skip_error := skip_error p; used_keys := used_keys p;
     used_errors := used_errors p |}.

Definition set_in_error (x : option string) (p : parser) : parser :=
  {| _content := _content p; lines := lines p; source_pos := source_pos p;
     in_textarea := in_textarea p; in_select := in_select p;
     skip_next := skip_next p; in_error := x;
     skip_error := skip_error p; used_keys := used_keys p;
     used_errors := used_errors p |}.

Definition set_skip_error (x : bool) (p : parser) : parser :=
  {| _content := _content p; lines := lines p; source_pos := source_pos p;
     in_textarea := in_textarea p; in_select := in_select p;
     skip_next := skip_next p; in_error := in_error p;
     skip_error := x; used_keys := used_keys p;
     used_errors := used_errors p |}.

Definition set_used_keys (x : gset key) (p : parser) : parser :=
  {| _content := _content p; lines := lines p; source_pos := source_pos p;
     in_textarea := in_textarea p; in_select := in_select p;
     skip_next := skip_next p; in_error := in_error p;
     skip_error := skip_error p; used_keys := x;
     used_errors := used_errors p |}.

Definition set_used_errors (x : gset key) (p : parser) : parser :=
  {| _content := _content p; lines := lines p; source_pos := source_pos p;
     in_textarea := in_textarea p; in_select := in_select p;
     skip_next := skip_next p; in_error := in_error p;
     skip_error := skip_error p; used_keys := used_keys p;
     used_errors := x |}.

(** [d.get(k, default)] *)
Definition dict_get {V} (d : gmap key V) (k : key) (dflt : V) : V :=
  default dflt (d !! k).

Definition add_key (k : key) (p : parser) : parser :=
  set_used_keys ({[ k ]} ∪ used_keys p) p.

Definition write_text (text : pyval) (p : parser) : parser :=
  set_content (_content p ++ [Text text]) p.

Definition write_marker (marker : key) (p : parser) : parser :=
  set_content (_content p ++ [Marker marker]) p.

(** The error message of [insert_at_marker]; the conversion of the text
    can itself raise. *)
Definition marker_not_found (marker : key) (text : pyval) : exn :=
  match py_repr text with
  | Ok r => ValueError ("Marker " +:+ repr_key marker
                        +:+ " not found when trying to insert " +:+ r)
  | Raise e => e
  end.

Fixpoint insert_before (marker : key) (text : pyval) (l : list item)
  : option (list item) :=
  match l with
  | [] => None
  | it :: rest =>
      match it with
      | Marker m =>
          if decide (m = marker) then Some (Text text :: it :: rest)
          else cons it <$> insert_before marker text rest
      | Text _ => cons it <$> insert_before marker text rest
      end
  end.

Definition insert_at_marker (marker : key) (text : pyval) (p : parser)
  : result parser :=
  match insert_before marker text (_content p) with
  | Some l => Ok (set_content l p)
  | None => Raise (marker_not_found marker text)
  end.

Definition attr_text_of (nv : string * pyval) : result string :=
  q ← html_quote nv.2;
  Ok (" " +:+ nv.1 +:+ "=" +:+ DQ +:+ q +:+ DQ).

Definition tag_text (tag : string) (attrs : list (string * pyval))
    (startend : bool) : result string :=
  parts ← mapM attr_text_of
            (List.filter (λ nv, negb (startswith "form:" nv.1)) attrs);
  let attr_text := str_join EmptyString parts in
  let attr_text := if startend then attr_text +:+ " /" else attr_text in
  Ok ("<" +:+ tag +:+ attr_text +:+ ">").

Definition write_tag (tag : string) (attrs : list (string * pyval))
    (startend : bool) (p : parser) : result parser :=
  t ← tag_text tag attrs startend;
  Ok (write_text (VStr t) p).

(** [self.lines[n-1]] for a line number [n]; index [-1] is the last line. *)
Definition line_at (ls : list string) (n : nat) : result string :=
  match (match n with O => last ls | S i => ls !! i end) with
  | Some l => Ok l
  | None => Raise (IndexError "list index out of range")
  end.

(** The body of the loop over [range(a, b)] in [write_pos]. *)
Fixpoint write_lines (from count : nat) (p : parser) : result parser :=
  match count with
  | O => Ok p
  | S count' =>
      l ← line_at (lines p) from;
      write_lines (S from) count' (write_text (VStr NL) (write_text (VStr l) p))
  end.

(** [write_pos], with [pos] the value of [self.getpos()]. *)
Definition write_pos (pos : nat * nat) (p : parser) : result parser :=
  let '(cur_line, cur_offset) := pos in
  if in_textarea p || skip_error p then Ok (set_source_pos pos p)
  else if skip_next p then Ok (set_source_pos pos (set_skip_next false p))
  else
    p ← (if (cur_line =? (source_pos p).1)%nat then
           l ← line_at (lines p) cur_line;
           Ok (write_text (VStr (str_slice (source_pos p).2 cur_offset l)) p)
         else
           l ← line_at (lines p) (source_pos p).1;
           let p := write_text (VStr (str_drop (source_pos p).2 l)) p in
           let p := write_text (VStr NL) p in
           p ← write_lines (S (source_pos p).1)
                 (cur_line - S (source_pos p).1) p;
           l ← line_at (lines p) cur_line;
           Ok (write_text (VStr (str_take cur_offset l)) p));
    Ok (set_source_pos pos p).

(** [str(self.getpos())] *)
Definition str_pos (pos : nat * nat) : string :=
  "(" +:+ pretty pos.1 +:+ ", " +:+ pretty pos.2 +:+ ")".

(** Formatting a message with one conversion and the pair
    [self.getpos()] as its argument raises instead of building it. *)
Definition bad_format : exn :=
  TypeError "not all arguments converted during string formatting".

(** [self.errors.get(name)] in a condition *)
Definition has_error (c : config) (name : key) : bool :=
  truthy (dict_get (errors c) name VNone).

Definition class_enabled (c : config) : bool :=
  match error_class c with
  | Some cls => negb (String.eqb cls EmptyString)
  | None => false
  end.

(** The [error_class] step shared by the control handlers. *)
Definition mark_error (c : config) (name : key) (a : attrs) : result attrs :=
  if class_enabled c && has_error c name
  then add_class a (default EmptyString (error_class c))
  else Ok a.

Definition handle_iferror (c : config) (a : attrs) (p : parser) : result parser :=
  let name := get_attr a "name" None in
  if truthy (of_attr name) then
    let p := set_in_error name p in
    let p := if negb (has_error c name) then set_skip_error true p else p in
    Ok (set_skip_next true p)
  else Raise bad_format.

Definition handle_end_iferror (p : parser) : parser :=
  set_skip_next true (set_skip_error false (set_in_error None p)).

(** [self.get_attr(attrs, 'format') or 'default'] *)
Definition formatter_name (a : attrs) : string :=
  match get_attr a "format" None with
  | Some f => if String.eqb f EmptyString then "default" else f
  | None => "default"
  end.

(** The key of a [form:error]: its [name], or else the enclosing
    [form:iferror]'s. *)
Definition error_key (a : attrs) (p : parser) : option string :=
  match get_attr a "name" None with
  | None => in_error p
  | Some name => Some name
  end.

Definition handle_error (c : config) (pos : nat * nat) (a : attrs) (p : parser)
  : result parser :=
  let formatter := formatter_name a in
  let name := error_key a p in
  match name with
  | None =>
      Raise (AssertionError
        ("Name attribute in <form:error> required if not contained in "
         +:+ "<form:iferror> (" +:+ pretty pos.1 +:+ ":" +:+ pretty pos.2 +:+ ")"))
  | Some _ =>
      let error := dict_get (errors c) name (VStr EmptyString) in
      p ← (if truthy error then
             match error_formatters c !! formatter with
             | Some f => error ← f error; Ok (write_text error p)
             | None => Raise (KeyError (repr_str formatter))
             end
           else Ok p);
      Ok (set_used_errors ({[ name ]} ∪ used_errors p) (set_skip_next true p))
  end.

(** One rule of [add_attributes[name]]. *)
Definition add_attribute (rule : string * string) (a : attrs) : result attrs :=
  let '(attr_name, attr_value) := rule in
  if startswith "+" attr_name then
    let attr_name := str_drop 1 attr_name in
    new ← str_add (get_attr a attr_name (Some EmptyString)) attr_value;
    Ok (set_attr a attr_name (Some new))
  else Ok (set_attr a attr_name (Some attr_value)).

(** The [add_attributes] and [error_class] steps of [handle_input]. *)
Definition prepare_attrs (c : config) (name : key) (a : attrs) : result attrs :=
  a ← match add_attributes c !! name with
      | Some rules => foldM add_attribute rules a
      | None => Ok a
      end;
  mark_error c (get_attr a "name" None) a.

(** The condition under which a checkbox is checked. *)
Definition checkbox_checked (value : pyval) (v : option string) : result bool :=
  s ← py_str value;
  if bool_decide (Some s = v) then Ok true
  else if bool_decide (v = None) && truthy value then Ok true
  else match value with
       | VList l =>
           strs ← mapM py_str l;
           Ok (match v with
               | Some x => bool_decide (x ∈ strs)
               | None => false
               end)
       | _ => Ok false
       end.

(** [(self.get_attr(attrs, 'type') or 'text').lower()] *)
Definition input_type (a : attrs) : string :=
  str_lower (match get_attr a "type" None with
             | Some s => if String.eqb s EmptyString then "text" else s
             | None => "text"
             end).

Definition handle_input (c : config) (pos : nat * nat) (a : attrs)
    (startend : bool) (p : parser) : result parser :=
  let t := input_type a in
  let name := get_attr a "name" None in
  let p := write_marker name p in
  let value := dict_get (defaults c) name VNone in
  a ← prepare_attrs c name a;
  if String.eqb t "text" || String.eqb t "hidden" then
    let value := match value with
                 | VNone => of_attr (get_attr a "value" (Some EmptyString))
                 | _ => value
                 end in
    p ← write_tag "input" (set_attr (as_objects a) "value" value) startend p;
    Ok (add_key name (set_skip_next true p))
  else if String.eqb t "checkbox" then
    checked ← checkbox_checked value (get_attr a "value" None);
    let a := if checked : bool then set_attr a "checked" (Some "checked")
             else del_attr a "checked" in
    p ← write_tag "input" (as_objects a) startend p;
    Ok (add_key name (set_skip_next true p))
  else if String.eqb t "radio" then
    s ← py_str value;
    let a := if bool_decide (Some s = get_attr a "value" None)
             then set_attr a "checked" (Some "checked")
             else del_attr a "checked" in
    p ← write_tag "input" (as_objects a) startend p;
    Ok (add_key name (set_skip_next true p))
  else if String.eqb t "file" then Ok p
  else if String.eqb t "password" then
    let v := py_or value (of_attr (get_attr a "value" (Some EmptyString))) in
    p ← write_tag "input" (set_attr (as_objects a) "value" v) startend p;
    Ok (add_key name (set_skip_next true p))
  else if String.eqb t "image" then
    let v := py_or value (of_attr (get_attr a "src" (Some EmptyString))) in
    p ← write_tag "input" (set_attr (as_objects a) "src" v) startend p;
    Ok (add_key name (set_skip_next true p))
  else if String.eqb t "submit" || String.eqb t "reset" || String.eqb t "button" then
    let v := py_or value (of_attr (get_attr a "value" (Some EmptyString))) in
    p ← write_tag "input" (set_attr (as_objects a) "value" v) startend p;
    Ok (add_key name (set_skip_next true p))
  else
    Raise (AssertionError ("I don't know about this kind of <input>: " +:+ t
                           +:+ " (pos: " +:+ str_pos pos +:+ ")")).

Definition handle_textarea (c : config) (a : attrs) (p : parser) : result parser :=
  let name := get_attr a "name" None in
  let p := write_marker name p in
  a ← mark_error c name a;
  p ← write_tag "textarea" (as_objects a) false p;
  let value := dict_get (defaults c) name (VStr EmptyString) in
  q ← html_quote value;
  let p := write_text (VStr q) p in
  let p := write_text (VStr "</textarea>") p in
  Ok (add_key name (set_in_textarea true p)).

Definition handle_end_textarea (p : parser) : parser :=
  set_skip_next true (set_in_textarea false p).

Definition handle_select (c : config) (a : attrs) (p : parser) : result parser :=
  let name := get_attr a "name" None in
  let p := write_marker name p in
  a ← mark_error c name a;
  let p := set_in_select (get_attr a "name" None) p in
  p ← write_tag "select" (as_objects a) false p;
  Ok (add_key (in_select p) (set_skip_next true p)).

Definition handle_end_select (p : parser) : parser :=
  set_in_select None p.

Definition handle_option (c : config) (a : attrs) (p : parser) : result parser :=
  if truthy (of_attr (in_select p)) then
    s ← py_str (dict_get (defaults c) (in_select p) (VStr EmptyString));
    let selected := bool_decide (Some s = get_attr a "value" None) in
    let a := if selected then set_attr a "selected" (Some "selected")
             else del_attr a "selected" in
    let p := if selected then add_key (in_select p) p else p in
    p ← write_tag "option" (as_objects a) false p;
    Ok (set_skip_next true p)
  else Raise bad_format.

Definition handle_starttag (c : config) (pos : nat * nat) (tag : string)
    (a : attrs) (startend : bool) (p : parser) : result parser :=
  p ← write_pos pos p;
  if String.eqb tag "input" then handle_input c pos a startend p
  else if String.eqb tag "textarea" then handle_textarea c a p
  else if String.eqb tag "select" then handle_select c a p
  else if String.eqb tag "option" then handle_option c a p
  else if String.eqb tag "form:error" then handle_error c pos a p
  else if String.eqb tag "form:iferror" then handle_iferror c a p
  else Ok p.

(** [handle_data], [handle_comment], [handle_charref], ... *)
Definition handle_misc (pos : nat * nat) (p : parser) : result parser :=
  write_pos pos p.

Definition handle_endtag (pos : nat * nat) (tag : string) (p : parser)
  : result parser :=
  p ← write_pos pos p;
  if String.eqb tag "textarea" then Ok (handle_end_textarea p)
  else if String.eqb tag "select" then Ok (handle_end_select p)
  else if String.eqb tag "form:iferror" then Ok (handle_end_iferror p)
  else Ok p.

Definition handle_startendtag (c : config) (pos : nat * nat) (tag : string)
    (a : attrs) (p : parser) : result parser :=
  handle_starttag c pos tag a true p.

(** *** The tokenizer

    [HTMLParser.HTMLParser] is the standard library's tokenizer.  It calls
    one handler per token, in source order, and during the call
    [self.getpos()] is the (line, column) at which that token starts:
    lines count from 1, columns from 0.  Tag and attribute names arrive
    in lower case.  A fill is modelled on the sequence of calls the
    tokenizer makes for the document. *)
Inductive event :=
| Starttag (tag : string) (a : attrs)
| Startendtag (tag : string) (a : attrs)
| Endtag (tag : string)
| Misc.

Abbreviation token := ((nat * nat) * event)%type.

Definition handle (c : config) (tok : token) (p : parser) : result parser :=
  match tok.2 with
  | Starttag tag a => handle_starttag c tok.1 tag a false p
  | Startendtag tag a => handle_startendtag c tok.1 tag a p
  | Endtag tag => handle_endtag tok.1 tag p
  | Misc => handle_misc tok.1 p
  end.

(** [feed(data)]: [tokens] are the calls the tokenizer makes for [data],
    those it only makes once it is closed included. *)
Definition feed (c : config) (data : string) (tokens : list token) (p : parser)
  : result parser :=
  let p := set_source_pos (1, 0) (set_lines (split_lines data) p) in
  foldM (handle c) tokens p.

(** [del d[key]] for each key of [used] that [d] has *)
Definition remove_used {V} (d : gmap key V) (used : gset key) : gmap key V :=
  foldl (λ d key, if bool_decide (is_Some (d !! key)) then delete key d else d)
        d (elements used).

(** The auto-insertion loop of [close]. *)
Definition auto_insert (f : formatter) (kv : key * pyval) (p : parser)
  : result parser :=
  py_print [Ok "insert at"; Ok (str_key kv.1); py_str kv.2];;
  text ← f kv.2;
  insert_at_marker kv.1 text p.

Definition error_text_of (c : config) (key : key) : result string :=
  match errors c !! key with
  | Some v => s ← py_str v; Ok (str_key key +:+ ": " +:+ s)
  | None => Raise (KeyError (repr_key key))
  end.

(** [''.join(...)] over the written objects *)
Fixpoint join_text (l : list item) : result string :=
  match l with
  | [] => Ok EmptyString
  | Marker _ :: rest => join_text rest
  | Text (VStr s) :: rest => r ← join_text rest; Ok (s +:+ r)
  | Text _ :: rest => Raise (TypeError "sequence item: expected string")
  end.

(** The first half of [close()]: the errors no directive used, and their
    insertion when [auto_error_formatter] is set.  Returns the parser and
    the local [unused_errors]. *)
Definition auto_insert_errors (c : config) (p : parser)
  : result (parser * gmap key pyval) :=
  let unused_errors := remove_used (errors c) (used_errors p) in
  py_print [Ok "UNUSED"; repr_dict unused_errors; repr_dict (errors c)];;
  match auto_error_formatter c with
  | Some f => p ← foldM (auto_insert f) (map_to_list unused_errors) p;
              Ok (p, ∅)
  | None => Ok (p, unused_errors)
  end.

Definition unused_keys_message (unused : gmap key pyval) : string :=
  "These keys from defaults were not used in the form: ["
  +:+ str_join ", " (repr_key <$> (map_to_list unused).*1) +:+ "]".

Definition unused_errors_message (error_text : list string) : string :=
  "These errors were not used in the form: " +:+ str_join ", " error_text.

(** [close()], after the tokenizer has been closed; returns the parser
    and [self._text]. *)
Definition close (c : config) (p : parser) : result (parser * string) :=
  '(p, unused_errors) ← auto_insert_errors c p;
  (if use_all_keys c then
     let unused := remove_used (defaults c) (used_keys p) in
     (if bool_decide (unused = ∅) then Ok tt
      else Raise (AssertionError (unused_keys_message unused)));;
     (if bool_decide (unused_errors = ∅) then Ok tt
      else error_text ← mapM (error_text_of c) (map_to_list unused_errors).*1;
           Raise (AssertionError (unused_errors_message error_text)))
   else Ok tt);;
  text ← join_text (_content p);
  Ok (p, text).

(** A whole fill: [feed(data)], [close()], [text()]. *)
Definition fill (c : config) (data : string) (tokens : list token)
  : result string :=
  p ← feed c data tokens new_parser;
  r ← close c p;
  Ok r.2.

(** *** Notions used to state the properties *)


(** The document the lines come from. *)
Definition source_of (ls : list string) : string := str_join NL ls.

(** The number of characters before a position: every earlier line
    counts with its newline. *)
Definition offset (ls : list string) (pos : nat * nat) : nat :=
  foldr (λ l acc, S (String.length l) + acc) 0 (take (pos.1 - 1) ls) + pos.2.

(** A position the tokenizer can report for the lines [ls]. *)
Definition valid_pos (ls : list string) (pos : nat * nat) : Prop :=
  ∃ i l, pos.1 = S i ∧ ls !! i = Some l ∧ pos.2 ≤ String.length l.

Definition pos_le (a b : nat * nat) : Prop :=
  a.1 < b.1 ∨ (a.1 = b.1 ∧ a.2 ≤ b.2).

(** The source text from position [a] up to position [b]. *)
Definition span (ls : list string) (a b : nat * nat) : string :=
  str_slice (offset ls a) (offset ls b) (source_of ls).

(** Lines each followed by a newline, and lines each preceded by one. *)
Definition flat (ls : list string) : string :=
  foldr (λ l acc, l +:+ NL +:+ acc) EmptyString ls.

Definition rest (ls : list string) : string :=
  foldr (λ l acc, NL +:+ l +:+ acc) EmptyString ls.

(** How many attributes of a tag go by the name [name]. *)
Definition count_attr {V} (a : list (string * V)) (name : string) : nat :=
  List.length (List.filter (λ nv, String.eqb (str_lower nv.1) name) a).

(** The tags the handlers intercept. *)
Definition control_tag (tag : string) : bool :=
  bool_decide (tag ∈ ["input"; "textarea"; "select"; "option";
                      "form:error"; "form:iferror"]).

(** An event that is neither the start nor the end of an intercepted
    tag. *)
Definition passthrough (ev : event) : bool :=
  match ev with
  | Starttag tag _ | Startendtag tag _ | Endtag tag => negb (control_tag tag)
  | Misc => true
  end.

(** Events at valid positions, in source order, from position [a] on. *)
Fixpoint in_order (ls : list string) (a : nat * nat) (tokens : list token) : Prop :=
  match tokens with
  | [] => True
  | tok :: rest => valid_pos ls tok.1 ∧ pos_le a tok.1 ∧ in_order ls tok.1 rest
  end.

(** The position of the last event, [a] when there is none. *)
Definition last_pos (a : nat * nat) (tokens : list token) : nat * nat :=
  default a (fst <$> last tokens).


(** [cgi.escape(s, 1)] character by character. *)
Definition escape_char (a : ascii) : string :=
  if Ascii.eqb a "&" then "&amp;"
  else if Ascii.eqb a "<" then "&lt;"
  else if Ascii.eqb a ">" then "&gt;"
  else if Ascii.eqb a dquote then "&quot;"
  else String a EmptyString.

Fixpoint escape_chars (s : string) : string :=
  match s with
  | EmptyString => EmptyString
  | String a s' => escape_char a +:+ escape_chars s'
  end.

(** Modelled from the spec: the HTML-unescaping that reads escaped text
    back, which is the reader's side of the round trip and not code of
    this repository.  One pass from left to right replaces each of the
    four entities [&amp;], [&lt;], [&gt;], [&quot;] by its character;
    [skip] counts the characters of an entity still to be passed over. *)
Fixpoint unescape_from (skip : nat) (s : string) : string :=
  match s with
  | EmptyString => EmptyString
  | String a s' =>
      match skip with
      | S k => unescape_from k s'
      | O =>
          if Ascii.eqb a "&" then
            if String.prefix "amp;" s' then String "&" (unescape_from 4 s')
            else if String.prefix "lt;" s' then String "<" (unescape_from 3 s')
            else if String.prefix "gt;" s' then String ">" (unescape_from 3 s')
            else if String.prefix "quot;" s' then String dquote (unescape_from 5 s')
            else String a (unescape_from 0 s')
          else String a (unescape_from 0 s')
      end
  end.

Definition html_unescape (s : string) : string := unescape_from 0 s.

(** Nothing stops [write_pos] from copying. *)
Definition copying (p : parser) : Prop :=
  in_textarea p = false ∧ skip_error p = false ∧ skip_next p = false.

(** Every key marked as used has a marker in the buffer, and so has the
    name of the [select] element being read. *)
Definition keys_marked (p : parser) : Prop :=
  (∀ k, k ∈ used_keys p → Marker k ∈ _content p)
  ∧ (∀ s, in_select p = Some s → Marker (Some s) ∈ _content p).

(** The values of [type] that [handle_input] knows. *)
Definition input_types : list string :=
  ["text"; "hidden"; "checkbox"; "radio"; "file"; "password"; "image";
   "submit"; "reset"; "button"].

(** The strings written to the buffer [l], in order. *)
Definition written_strings (l : list item) : list string :=
  omap (λ it, match it with Text (VStr s) => Some s | _ => None end) l.

End Htmlfill.

(** ** schema.py: merging error values *)

Module Schema.

(** What an error result is made of: [None], a string, a list, a tuple,
    or a dictionary keyed by field name. *)
Inductive errval :=
| ENone
| EStr (s : string)
| EList (l : list errval)
| ETuple (l : list errval)
| EDict (d : gmap string errval).

Definition is_none (v : errval) : bool :=
  match v with ENone => true | _ => false end.

(** What a call gives: a value, an exception, or [Cut] when the bound
    on the nesting of calls is reached. *)
Inductive outcome (A : Type) :=
| Ret (a : A)
| Exc (e : Py.exn)
| Cut.
Arguments Ret {A} a.
Arguments Exc {A} e.
Arguments Cut {A}.

Global Instance outcome_bind : MBind outcome := λ A B f m,
  match m with
  | Ret a => f a
  | Exc e => Exc e
  | Cut => Cut
  end.

(** An argument of [merge_lists]: a list or a tuple. *)
Inductive sequence :=
| SList (l : list errval)
| STuple (l : list errval).

Definition items (s : sequence) : list errval :=
  match s with SList l | STuple l => l end.

(** The value a sequence is. *)
Definition seq_value (s : sequence) : errval :=
  match s with SList l => EList l | STuple l => ETuple l end.

(** The exception of [t + l] for a tuple [t] and a list [l]. *)
Definition tuple_plus_list : Py.exn :=
  Py.TypeError ("can only concatenate tuple (not " +:+ Py.DQ +:+ "list"
                +:+ Py.DQ +:+ ") to tuple").

(** [s + [None]*n] *)
Definition pad (s : sequence) (n : nat) : outcome sequence :=
  match s with
  | SList l => Ret (SList (l ++ replicate n ENone))
  | STuple _ => Exc tuple_plus_list
  end.

Section with_merge_values.
(** The recursive call. *)
Variable merge_values : errval → errval → outcome errval.

(** The body of [merge_dicts]'s loop. *)
Definition merge_key (d1 : outcome (gmap string errval)) (kv : string * errval)
  : outcome (gmap string errval) :=
  d1 ← d1;
  match d1 !! kv.1 with
  | Some v1 => m ← merge_values v1 kv.2; Ret (<[kv.1 := m]> d1)
  | None => Ret (<[kv.1 := kv.2]> d1)
  end.

Definition merge_dicts_with (d1 d2 : gmap string errval)
  : outcome (gmap string errval) :=
  foldl merge_key (Ret d1) (map_to_list d2).

(** The body of [merge_lists]'s loop. *)
Definition merge_item (l1item l2item : errval) : outcome errval :=
  if is_none l1item then Ret l2item
  else if is_none l2item then Ret l1item
  else merge_values l1item l2item.

Fixpoint merge_zip (l1 l2 : list errval) : outcome (list errval) :=
  match l1, l2 with
  | x :: l1', y :: l2' =>
      item ← merge_item x y; rest ← merge_zip l1' l2'; Ret (item :: rest)
  | _, _ => Ret []
  end.

Definition merge_lists_with (l1 l2 : sequence) : outcome (list errval) :=
  let n1 := List.length (items l1) in
  let n2 := List.length (items l2) in
  l1' ← (if (n1 <? n2)%nat then pad l1 (n2 - n1) else Ret l1);
  l2' ← (if (n1 <? n2)%nat then Ret l2
         else if (n2 <? n1)%nat then pad l2 (n1 - n2) else Ret l2);
  merge_zip (items l1') (items l2').
End with_merge_values.

(** [merge_values]; [depth] bounds the nesting of calls. *)
Fixpoint merge_values (depth : nat) (v1 v2 : errval) : outcome errval :=
  match depth with
  | O => Cut
  | S depth =>
      match v1, v2 with
      | EStr s1, EStr s2 => Ret (EStr (s1 +:+ Py.NL +:+ s2))
      | EList l1, EList l2 =>
          l ← merge_lists_with (merge_values depth) (SList l1) (SList l2);
          Ret (EList l)
      | EList l1, ETuple l2 =>
          l ← merge_lists_with (merge_values depth) (SList l1) (STuple l2);
          Ret (EList l)
      | ETuple l1, EList l2 =>
          l ← merge_lists_with (merge_values depth) (STuple l1) (SList l2);
          Ret (EList l)
      | ETuple l1, ETuple l2 =>
          l ← merge_lists_with (merge_values depth) (STuple l1) (STuple l2);
          Ret (EList l)
      | EDict d1, EDict d2 =>
          d ← merge_dicts_with (merge_values depth) d1 d2; Ret (EDict d)
      | _, _ => Ret v1
      end
  end.

Definition merge_lists (depth : nat)
  : sequence → sequence → outcome (list errval) :=
  merge_lists_with (merge_values depth).

Definition merge_dicts (depth : nat)
  : gmap string errval → gmap string errval → outcome (gmap string errval) :=
  merge_dicts_with (merge_values depth).

(** How deeply lists, tuples and dictionaries are nested in a value. *)
Fixpoint nesting (v : errval) : nat :=
  match v with
  | ENone | EStr _ => 0
  | EList l | ETuple l => S (foldr (λ x acc, max (nesting x) acc) 0 l)
  | EDict d => S (map_fold (λ _ x acc, max (nesting x) acc) 0 d)
  end.

(** [merge_values(v1, v2)] returns [r]. *)
Definition merged (v1 v2 r : errval) : Prop :=
  ∃ depth, merge_values depth v1 v2 = Ret r.

(** [merge_values(v1, v2)] raises [e]. *)
Definition raises (v1 v2 : errval) (e : Py.exn) : Prop :=
  ∃ depth, merge_values depth v1 v2 = Exc e.

(** What a key of the merged dictionary holds, from what the two
    dictionaries hold there. *)
Definition merged_entry (merge : errval → errval → errval → Prop)
    (o1 o2 o : option errval) : Prop :=
  match o1, o2 with
  | Some a, Some b => ∃ m, o = Some m ∧ merge a b m
  | Some a, None => o = Some a
  | None, Some b => o = Some b
  | None, None => o = None
  end.

(** Both values are strings, both are sequences (lists or tuples), or
    both are dictionaries. *)
Definition same_kind (v1 v2 : errval) : bool :=
  match v1, v2 with
  | EStr _, EStr _ | EDict _, EDict _ => true
  | (EList _ | ETuple _), (EList _ | ETuple _) => true
  | _, _ => false
  end.

(** *** [format_compound_error] *)

(** The objects [format_compound_error] is applied to: an exception
    (with the text [str] gives for it), [None], a string, a list, a
    dictionary keyed by field name, or any other object (with its
    [repr]). *)
Inductive errobj :=
| OExc (msg : string)
| ONone
| OStr (s : string)
| OList (l : list errobj)
| ODict (d : gmap string errobj)
| OOther (r : string).

Definition obj_is_none (v : errobj) : bool :=
  match v with ONone => true | _ => false end.

(** [s * n] *)
Definition str_mul (s : string) (n : nat) : string :=
  String.concat EmptyString (replicate n s).

(** [l.sort()] on the items of a dictionary: the keys are distinct, so
    the order of the pairs is the order of their keys, that of byte
    strings. *)
Definition key_le {A} (x y : string * A) : Prop := String.le x.1 y.1.

Global Instance key_le_dec {A} : RelDecision (@key_le A) :=
  λ x y, String.le_dec x.1 y.1.

Definition sort_items {A} (l : list (string * A)) : list (string * A) :=
  merge_sort key_le l.

(** [format_compound_error(v, indent)].  In the dictionary case every
    item carries, next to its value, the result of the recursive call on
    that value, which is only looked at for the items the comprehension
    keeps. *)
Fixpoint format_compound_error (v : errobj) (indent : nat) : Py.result string :=
  match v with
  | OExc msg => Py.Ok msg
  | ODict d =>
      let l := map_fold (λ k value acc,
                 (k, (value, format_compound_error value (String.length k + 2)))
                 :: acc) [] d in
      let l := sort_items l in
      parts ← Py.mapM (λ kv : string * (errobj * Py.result string),
                         r ← kv.2.2; Py.Ok (kv.1 +:+ ": " +:+ r))
                (List.filter (λ kv, negb (obj_is_none kv.2.1)) l);
      Py.Ok (Py.str_join (str_mul " " indent +:+ Py.NL) parts)
  | OList l =>
      parts ← (fix go (l : list errobj) : Py.result (list string) :=
                 match l with
                 | [] => Py.Ok []
                 | value :: l' =>
                     if obj_is_none value then go l'
                     else r ← format_compound_error value indent;
                          rs ← go l'; Py.Ok (r :: rs)
                 end) l;
      Py.Ok (Py.str_join (str_mul " " indent +:+ Py.NL) parts)
  | OStr s => Py.Ok s
  | ONone => Py.Raise (Py.AssertionError "I didn't expect something like None")
  | OOther r =>
      Py.Raise (Py.AssertionError ("I didn't expect something like " +:+ r))
  end.

(** An item of a dictionary with the result of the recursive call on
    its value, and the two steps of the comprehension. *)
Definition with_result (kv : string * errobj)
  : string * (errobj * Py.result string) :=
  (kv.1, (kv.2, format_compound_error kv.2 (String.length kv.1 + 2))).

Definition kept (kv : string * (errobj * Py.result string)) : bool :=
  negb (obj_is_none kv.2.1).

Definition item_line (kv : string * (errobj * Py.result string))
  : Py.result string :=
  r ← kv.2.2; Py.Ok (kv.1 +:+ ": " +:+ r).

(** The values [format_compound_error] accepts: [None] and other
    objects are refused at the top and accepted nowhere but, for
    [None], as an element or entry that is skipped. *)
Fixpoint formattable (v : errobj) : bool :=
  match v with
  | OExc _ | OStr _ => true
  | ONone | OOther _ => false
  | OList l => forallb (λ x, obj_is_none x || formattable x) l
  | ODict d => map_fold (λ _ x acc, (obj_is_none x || formattable x) && acc) true d
  end.

(** How deeply lists and dictionaries are nested in an object. *)
Fixpoint height (v : errobj) : nat :=
  match v with
  | OList l => S (foldr (λ x acc, max (height x) acc) 0 l)
  | ODict d => S (map_fold (λ _ x acc, max (height x) acc) 0 d)
  | _ => 0
  end.

(** One line of the message for a dictionary of errors. *)
Definition error_line (kv : string * string) : string := kv.1 +:+ ": " +:+ kv.2.

(** *** Containers shared between a class and its instances

    [fields], [chained_validators] and [pre_validators] are class
    attributes holding a mutable object.  Objects live in a store, at
    locations; [a is b] compares locations.  An instance has the
    attribute of its own ([Some l]) or finds the class's ([None]). *)
Section class_attributes.
Context {C : Type} `{!Inhabited C}.

(** [self.x] *)
Definition attr (own : option nat) (cls : nat) : nat := default cls own.

(** The body shared by [add_field], [add_chained_validator] and
    [add_pre_validator].  [update] is the statement that changes the
    container in place; [self] is [None] when the method is called on
    the class, and else holds the instance's own attribute.  Returns the
    store and the instance's own attribute. *)
Definition add_to_attr (update : C → C) (self : option (option nat))
    (cls : nat) (h : gmap nat C) : gmap nat C * option nat :=
  match self with
  | Some own =>
      if decide (attr own cls = cls) then
        let l := fresh (dom h) in
        let h := <[l := h !!! cls]> h in
        (alter update l h, Some l)
      else (alter update (attr own cls) h, own)
  | None => (alter update cls h, None)
  end.
End class_attributes.

Definition add_field {V} (name : string) (validator : V)
  : option (option nat) → nat → gmap nat (gmap string V)
    → gmap nat (gmap string V) * option nat :=
  add_to_attr (λ fields, <[name := validator]> fields).

Definition add_chained_validator {V} (validator : V)
  : option (option nat) → nat → gmap nat (list V)
    → gmap nat (list V) * option nat :=
  add_to_attr (λ chained_validators, chained_validators ++ [validator]).

Definition add_pre_validator {V} (validator : V)
  : option (option nat) → nat → gmap nat (list V)
    → gmap nat (list V) * option nat :=
  add_to_attr (λ pre_validators, pre_validators ++ [validator]).

End Schema.

(** ** Sample documents and parsers *)

Module Examples.
Import Py Htmlfill.

(** [s] between double quotes. *)
Definition quoted (s : string) : string := DQ +:+ s +:+ DQ.

(** A parser with the default construction arguments. *)
Definition plain : config :=
  init ∅ ErrorsNone false None (Some "error") None None.

(** [<p>Hi</p>] and the events of its three tokens. *)
Definition doc_p : string := "<p>Hi</p>".
Definition tokens_p : list token :=
  [((1, 0), Starttag "p" []); ((1, 3), Misc); ((1, 5), Endtag "p")].

(** The parser right after [feed] has split the document [data]. *)
Definition fed (data : string) : parser :=
  set_source_pos (1, 0) (set_lines (split_lines data) new_parser).

(** One error, for the field [k]. *)
Definition errors_k : errors_arg := ErrorsDict {[ Some "k" := VStr "bad" ]}.


(** A buffer with a marker for [k] between two texts. *)
Definition marked_p : parser :=
  set_content [Text (VStr "a"); Marker (Some "k"); Text (VStr "b")] new_parser.

(** Strict mode with a default nothing uses. *)
Definition strict_c : config :=
  init (<[Some "k" := VStr "v"]> {[ Some "unused" := VStr "x" ]})
       ErrorsNone true None (Some "error") None None.

Definition used_k_p : parser := set_used_keys {[ Some "k" ]} new_parser.

(** Strict mode with an error nothing uses and no automatic insertion. *)
Definition strict_errors_c : config :=
  init ∅ errors_k true None (Some "error") None None.



(** [<input type="submit" name="k" value="Go">] with an empty default. *)
Definition doc_submit : string :=
  "<input type=" +:+ quoted "submit" +:+ " name=" +:+ quoted "k"
  +:+ " value=" +:+ quoted "Go" +:+ ">".
Definition submit_go : attrs :=
  [("type", Some "submit"); ("name", Some "k"); ("value", Some "Go")].
Definition tokens_submit : list token := [((1, 0), Starttag "input" submit_go)].
Definition empty_default : config :=
  init {[ Some "k" := VStr EmptyString ]} ErrorsNone false None (Some "error")
       None None.
Definition default_send : config :=
  init {[ Some "k" := VStr "Send" ]} ErrorsNone false None (Some "error")
       None None.

(** [<textarea name="a">old</textarea>] with default [x<y], and
    [<textarea name="a"><input name="b"></textarea>]. *)
Definition textarea_a : attrs := [("name", Some "a")].
Definition doc_textarea : string :=
  "<textarea name=" +:+ quoted "a" +:+ ">old</textarea>".
Definition default_a : config :=
  init {[ Some "a" := VStr "x<y" ]} ErrorsNone false None (Some "error")
       None None.
Definition doc_textarea_input : string :=
  "<textarea name=" +:+ quoted "a" +:+ "><input name=" +:+ quoted "b"
  +:+ "></textarea>".
Definition tokens_textarea_input : list token :=
  [((1, 0), Starttag "textarea" textarea_a);
   ((1, 19), Starttag "input" [("name", Some "b")]);
   ((1, 35), Endtag "textarea")].

(** [<form:iferror name="k">X</form:iferror>] and
    [<form:iferror name="k"><input name="b"></form:iferror>]. *)
Definition name_k : attrs := [("name", Some "k")].

(** [<form:error name="k"/>] with the error [bad] for [k]. *)
Definition doc_error : string := "<form:error name=" +:+ quoted "k" +:+ "/>".
Definition error_c : config :=
  init ∅ errors_k false None (Some "error") None None.

(** What [default_formatter] writes for the escaped text [q]. *)
Definition error_span (q : string) : string :=
  "<span class=" +:+ quoted "error-message" +:+ ">" +:+ q
  +:+ "</span><br />" +:+ NL.

(** [<form:error name="k"></form:error>X<p>] and the events of its four
    tokens. *)
Definition doc_error_pair : string :=
  "<form:error name=" +:+ quoted "k" +:+ "></form:error>X<p>".
Definition tokens_error_pair : list token :=
  [((1, 0), Starttag "form:error" name_k); ((1, 21), Endtag "form:error");
   ((1, 34), Misc); ((1, 35), Starttag "p" [])].

(** [<form:error name="k"/>X<p>] and the events of its three tokens. *)
Definition doc_error_single : string := doc_error +:+ "X<p>".
Definition tokens_error_single : list token :=
  [((1, 0), Startendtag "form:error" name_k); ((1, 22), Misc);
   ((1, 23), Starttag "p" [])].

(** [<form:iferror name="k">Y</form:iferror>X<p>] and the events of its
    five tokens. *)
Definition doc_iferror_pair : string :=
  "<form:iferror name=" +:+ quoted "k" +:+ ">Y</form:iferror>X<p>".
Definition tokens_iferror_pair : list token :=
  [((1, 0), Starttag "form:iferror" name_k); ((1, 23), Misc);
   ((1, 24), Endtag "form:iferror"); ((1, 39), Misc);
   ((1, 40), Starttag "p" [])].

(** [<form:error name="k" format="none"/>X<p>] and the events of its
    three tokens. *)
Definition doc_error_none : string :=
  "<form:error name=" +:+ quoted "k" +:+ " format=" +:+ quoted "none"
  +:+ "/>X<p>".
Definition tokens_error_none : list token :=
  [((1, 0), Startendtag "form:error" [("name", Some "k"); ("format", Some "none")]);
   ((1, 36), Misc); ((1, 37), Starttag "p" [])].

(** An error text with markup in it: [<b>&] and a double quote. *)
Definition markup : string := "<b>&" +:+ DQ.
Definition markup_c : config :=
  init ∅ (ErrorsDict {[ Some "k" := VStr markup ]}) false None (Some "error")
       None None.

(** [a<input name="k">b] and the events of its three tokens. *)
Definition doc_a_input : string := "a<input name=" +:+ quoted "k" +:+ ">b".
Definition tokens_a_input : list token :=
  [((1, 0), Misc); ((1, 1), Starttag "input" name_k); ((1, 17), Misc)].

(** The parser after [<input type="submit" name="k" value="Go">] has been
    fed with the default [Send]. *)
Definition submit_fed : parser :=
  add_key (Some "k")
    (set_skip_next true
       (write_text
          (VStr ("<input type=" +:+ quoted "submit" +:+ " name=" +:+ quoted "k"
                 +:+ " value=" +:+ quoted "Send" +:+ ">"))
          (write_marker (Some "k")
             (set_source_pos (1, 0)
                (write_text (VStr EmptyString) (fed doc_submit)))))).

(** A radio button with the value [Send]. *)
Definition radio_send : attrs :=
  [("type", Some "radio"); ("name", Some "k"); ("value", Some "Send")].

(** [<input type="file" name="f">x]. *)
Definition file_f : attrs := [("type", Some "file"); ("name", Some "f")].
Definition doc_file : string :=
  "<input type=" +:+ quoted "file" +:+ " name=" +:+ quoted "f" +:+ ">x".

(** An input of a type the handler does not know. *)
Definition color_a : attrs := [("type", Some "color")].

(** Inside [<select name="s">], with the default [v] for [s]. *)
Definition in_select_s : parser := set_in_select (Some "s") new_parser.
Definition default_s : config :=
  init {[ Some "s" := VStr "v" ]} ErrorsNone false None (Some "error") None None.
Definition option_v : attrs := [("value", Some "v")].

(** [<form:error name="k" format="escape">]. *)
Definition escape_k : attrs := [("name", Some "k"); ("format", Some "escape")].

(** Strict mode with a string given as [errors]. *)
Definition form_level_c : config :=
  init ∅ (ErrorsStr "bad") true None (Some "error") None None.

(** A store holding the class's empty container at location 0. *)
Definition class_fields : gmap nat (gmap string nat) := {[ 0 := ∅ ]}.
Definition class_validators : gmap nat (list nat) := {[ 0 := [] ]}.

End Examples.

(** * Properties *)

(** ** The error-merge rule *)

Section merge_facts.
Import Schema.

Variables mv mv' : errval → errval → outcome errval.
Hypothesis mv_le : ∀ x y o, mv x y = o → o ≠ Cut → mv' x y = o.

Lemma merge_item_le x y o :
  merge_item mv x y = o → o ≠ Cut → merge_item mv' x y = o.
Proof using mv_le.
  unfold merge_item. destruct (is_none x), (is_none y); auto.
Qed.

Lemma merge_zip_le l1 l2 o :
  merge_zip mv l1 l2 = o → o ≠ Cut → merge_zip mv' l1 l2 = o.
Proof using mv_le.
  revert l2 o. induction l1 as [|x l1 IH]; intros [|y l2] o; simpl; auto.
  destruct (merge_item mv x y) as [it|e|] eqn:Hit; simpl.
  - rewrite (merge_item_le _ _ _ Hit) by done. simpl.
    destruct (merge_zip mv l1 l2) as [rest|e|] eqn:Hz; simpl.
    + intros <- _. by rewrite (IH _ _ Hz).
    + intros <- _. by rewrite (IH _ _ Hz).
    + by intros <-.
  - intros <- _. by rewrite (merge_item_le _ _ _ Hit).
  - by intros <-.
Qed.

Lemma merge_key_le d kv o :
  merge_key mv d kv = o → o ≠ Cut → merge_key mv' d kv = o.
Proof using mv_le.
  unfold merge_key. destruct d as [d|e|]; simpl; [|done..].
  destruct (d !! kv.1) as [v1|]; [|done].
  destruct (mv v1 kv.2) as [m|e|] eqn:Hm; simpl.
  - intros <- _. by rewrite (mv_le _ _ _ Hm).
  - intros <- _. by rewrite (mv_le _ _ _ Hm).
  - by intros <-.
Qed.

Lemma foldl_merge_key_Exc (f : errval → errval → outcome errval) e l :
  foldl (merge_key f) (Exc e) l = Exc e.
Proof. induction l; simpl; auto. Qed.

Lemma foldl_merge_key_Cut (f : errval → errval → outcome errval) l :
  foldl (merge_key f) Cut l = Cut.
Proof. induction l; simpl; auto. Qed.

Lemma foldl_merge_key_le l d o :
  foldl (merge_key mv) d l = o → o ≠ Cut → foldl (merge_key mv') d l = o.
Proof using mv_le.
  revert d. induction l as [|kv l IH]; intros d; cbn [foldl].
  - by intros <-.
  - intros H Ho. destruct (merge_key mv d kv) as [d0|e|] eqn:Hk.
    + rewrite (merge_key_le _ _ _ Hk) by done. by apply IH.
    + rewrite (merge_key_le _ _ _ Hk) by done.
      rewrite foldl_merge_key_Exc in *. done.
    + rewrite foldl_merge_key_Cut in H. by subst.
Qed.

Lemma merge_lists_le s1 s2 o :
  merge_lists_with mv s1 s2 = o → o ≠ Cut → merge_lists_with mv' s1 s2 = o.
Proof using mv_le.
  unfold merge_lists_with. cbv zeta.
  destruct (if _ <? _ then pad s1 _ else Ret s1) as [l1|e|]; simpl; [|done..].
  destruct (if List.length (items s1) <? List.length (items s2) then Ret s2
            else _) as [l2|e|]; simpl; [|done..].
  apply merge_zip_le.
Qed.
End merge_facts.

Section merge_rules.
Import Schema.

Variable mv : errval → errval → outcome errval.

(** Looking past the end of a padded list reads the padding. *)
Lemma lookup_padded (l : list errval) n i :
  i < List.length l + n →
  (l ++ replicate n ENone) !! i = Some (default ENone (l !! i)).
Proof.
  intros Hi. destruct (decide (i < List.length l)) as [Hlt|Hge].
  - rewrite lookup_app_l by done.
    destruct (lookup_lt_is_Some_2 l i Hlt) as [x Hx]. by rewrite Hx.
  - rewrite lookup_app_r by lia.
    rewrite (lookup_ge_None_2 l i) by lia. simpl.
    apply lookup_replicate_2. lia.
Qed.

Lemma merge_zip_spec l1 l2 r :
  merge_zip mv l1 l2 = Ret r →
  List.length r = min (List.length l1) (List.length l2) ∧
  ∀ i x y, l1 !! i = Some x → l2 !! i = Some y →
           ∃ item, r !! i = Some item ∧ merge_item mv x y = Ret item.
Proof.
  revert l2 r. induction l1 as [|a l1 IH]; intros [|b l2] r; simpl;
    try (intros [= <-]; split; [done|]; intros i x y; by rewrite ?lookup_nil).
  destruct (merge_item mv a b) as [it|e|] eqn:Hit; simpl; [|done..].
  destruct (merge_zip mv l1 l2) as [rest|e|] eqn:Hz; simpl; [|done..].
  intros [= <-]. destruct (IH _ _ Hz) as [Hlen Hi]. split.
  - simpl. by rewrite Hlen.
  - intros [|i] x y; simpl.
    + intros [= <-] [= <-]. eauto.
    + apply Hi.
Qed.

Lemma merge_zip_returns l1 l2 :
  (∀ i x y, l1 !! i = Some x → l2 !! i = Some y →
            ∃ item, merge_item mv x y = Ret item) →
  ∃ r, merge_zip mv l1 l2 = Ret r.
Proof.
  revert l2. induction l1 as [|a l1 IH]; intros [|b l2] H; simpl; try by eexists.
  destruct (H 0 a b eq_refl eq_refl) as [it ->]. simpl.
  destruct (IH l2) as [rest ->]; [|by eexists].
  intros i x y. apply (H (S i)).
Qed.

Lemma merge_zip_not_cut l1 l2 :
  (∀ i x y, l1 !! i = Some x → l2 !! i = Some y → merge_item mv x y ≠ Cut) →
  merge_zip mv l1 l2 ≠ Cut.
Proof.
  revert l2. induction l1 as [|a l1 IH]; intros [|b l2] H; simpl; try done.
  pose proof (H 0 a b eq_refl eq_refl) as Ha.
  destruct (merge_item mv a b) as [it|e|]; simpl; [|done..].
  assert (merge_zip mv l1 l2 ≠ Cut) as Hz.
  { apply IH. intros i x y. apply (H (S i)). }
  by destruct (merge_zip mv l1 l2).
Qed.

(** A tuple that would have to be padded makes [merge_lists] raise. *)
Lemma merge_lists_short_tuple s1 s2 :
  (List.length (items s1) < List.length (items s2) ∧ (∃ l, s1 = STuple l))
  ∨ (List.length (items s2) < List.length (items s1) ∧ (∃ l, s2 = STuple l)) →
  merge_lists_with mv s1 s2 = Exc tuple_plus_list.
Proof.
  unfold merge_lists_with. cbv zeta. intros [[Hlt [l ->]]|[Hlt [l ->]]].
  - by rewrite (proj2 (Nat.ltb_lt _ _) Hlt).
  - rewrite (proj2 (Nat.ltb_ge _ _)) by lia.
    rewrite (proj2 (Nat.ltb_lt _ _) Hlt). simpl. by destruct s1.
Qed.

(** Otherwise the two sequences are zipped, the shorter one padded. *)
Lemma merge_lists_padded s1 s2 :
  (List.length (items s1) < List.length (items s2) → ∃ l, s1 = SList l) →
  (List.length (items s2) < List.length (items s1) → ∃ l, s2 = SList l) →
  merge_lists_with mv s1 s2
  = merge_zip mv
      (items s1 ++ replicate (List.length (items s2) - List.length (items s1)) ENone)
      (items s2 ++ replicate (List.length (items s1) - List.length (items s2)) ENone).
Proof.
  unfold merge_lists_with. cbv zeta. intros H1 H2.
  destruct (Nat.ltb_spec (List.length (items s1)) (List.length (items s2)))
    as [H12|H12].
  - destruct (H1 H12) as [l ->]. simpl in *.
    replace (List.length l - List.length (items s2)) with 0 by lia.
    simpl. by rewrite app_nil_r.
  - destruct (Nat.ltb_spec (List.length (items s2)) (List.length (items s1)))
      as [H21|H21].
    + destruct (H2 H21) as [l ->]. simpl in *.
      replace (List.length l - List.length (items s1)) with 0 by lia.
      simpl. by rewrite app_nil_r.
    + replace (List.length (items s2) - List.length (items s1)) with 0 by lia.
      replace (List.length (items s1) - List.length (items s2)) with 0 by lia.
      simpl. by rewrite !app_nil_r.
Qed.

Lemma merge_lists_cases s1 s2 :
  merge_lists_with mv s1 s2 = Exc tuple_plus_list
  ∨ merge_lists_with mv s1 s2
    = merge_zip mv
        (items s1 ++ replicate (List.length (items s2) - List.length (items s1)) ENone)
        (items s2 ++ replicate (List.length (items s1) - List.length (items s2)) ENone).
Proof.
  destruct (decide (List.length (items s1) < List.length (items s2))) as [H12|H12].
  - destruct s1 as [l|l].
    + right. apply merge_lists_padded; [by eexists|simpl in *; lia].
    + left. apply merge_lists_short_tuple. left. split; [done|by eexists].
  - destruct (decide (List.length (items s2) < List.length (items s1)))
      as [H21|H21].
    + destruct s2 as [l|l].
      * right. apply merge_lists_padded; [simpl in *; lia|by eexists].
      * left. apply merge_lists_short_tuple. right. split; [done|by eexists].
    + right. apply merge_lists_padded; lia.
Qed.

(** [merge_lists]: the result is as long as the longer sequence, and
    its element at [i] merges the two elements at [i], a missing one
    being [None]. *)
Lemma merge_lists_spec s1 s2 r :
  merge_lists_with mv s1 s2 = Ret r →
  List.length r = max (List.length (items s1)) (List.length (items s2)) ∧
  ∀ i, i < List.length r →
       ∃ item, r !! i = Some item ∧
               merge_item mv (default ENone (items s1 !! i))
                 (default ENone (items s2 !! i))
               = Ret item.
Proof.
  intros H. destruct (merge_lists_cases s1 s2) as [He|Hz]; [congruence|].
  rewrite Hz in H. apply merge_zip_spec in H as [Hlen Hi].
  rewrite !length_app, !length_replicate in Hlen.
  split; [lia|]. intros i Hlt. apply Hi; apply lookup_padded; lia.
Qed.

Lemma elem_of_padded (l : list errval) n i x :
  (l ++ replicate n ENone) !! i = Some x → is_none x = false → x ∈ l.
Proof.
  intros [Hx|[_ Hx]]%lookup_app_Some Hn.
  - by eapply list_elem_of_lookup_2.
  - apply lookup_replicate in Hx as [-> _]. done.
Qed.

Lemma merge_lists_returns s1 s2 :
  (List.length (items s1) < List.length (items s2) → ∃ l, s1 = SList l) →
  (List.length (items s2) < List.length (items s1) → ∃ l, s2 = SList l) →
  (∀ x y, x ∈ items s1 → y ∈ items s2 → is_none x = false → is_none y = false →
          ∃ m, mv x y = Ret m) →
  ∃ r, merge_lists_with mv s1 s2 = Ret r.
Proof.
  intros H1 H2 H. rewrite merge_lists_padded by done. apply merge_zip_returns.
  intros i x y Hx Hy. unfold merge_item.
  destruct (is_none x) eqn:Ex; [by eexists|].
  destruct (is_none y) eqn:Ey; [by eexists|].
  apply H; [by eapply elem_of_padded|by eapply elem_of_padded|done|done].
Qed.

Lemma merge_lists_not_cut s1 s2 :
  (∀ x y, x ∈ items s1 → y ∈ items s2 → is_none x = false → is_none y = false →
          mv x y ≠ Cut) →
  merge_lists_with mv s1 s2 ≠ Cut.
Proof.
  intros H. destruct (merge_lists_cases s1 s2) as [->| ->]; [done|].
  apply merge_zip_not_cut. intros i x y Hx Hy. unfold merge_item.
  destruct (is_none x) eqn:Ex; [done|].
  destruct (is_none y) eqn:Ey; [done|].
  apply H; [by eapply elem_of_padded|by eapply elem_of_padded|done|done].
Qed.
End merge_rules.

Section merge_dict_rules.
Import Schema.

Variable mv : errval → errval → outcome errval.

Lemma foldl_merge_key_spec (l : list (string * errval)) d d' :
  NoDup l.*1 →
  foldl (merge_key mv) (Ret d) l = Ret d' →
  ∀ k, merged_entry (λ a b m, mv a b = Ret m)
         (d !! k) ((list_to_map l : gmap string errval) !! k) (d' !! k).
Proof.
  revert d. induction l as [|[k0 v0] l IH]; intros d Hnd; cbn [foldl].
  - intros [= <-] k. rewrite list_to_map_nil, lookup_empty. unfold merged_entry.
    by destruct (d !! k).
  - apply NoDup_cons in Hnd as [Hk0 Hnd]. intros Hf k.
    destruct (merge_key mv (Ret d) (k0, v0)) as [d0|e|] eqn:Hd0;
      [|by rewrite foldl_merge_key_Exc in Hf|by rewrite foldl_merge_key_Cut in Hf].
    specialize (IH d0 Hnd Hf k). rewrite list_to_map_cons.
    unfold merge_key in Hd0. simpl in Hd0.
    destruct (decide (k = k0)) as [->|Hne].
    + rewrite lookup_insert_eq.
      rewrite (not_elem_of_list_to_map_1 l k0) in IH by done.
      destruct (d !! k0) as [a|] eqn:Ha.
      * destruct (mv a v0) as [m|e|] eqn:Hm; simpl in Hd0; [|done..].
        injection Hd0 as <-. rewrite lookup_insert_eq in IH.
        simpl in *. eauto.
      * injection Hd0 as <-. rewrite lookup_insert_eq in IH. done.
    + rewrite lookup_insert_ne by done.
      assert (d0 !! k = d !! k) as <-; [|done].
      destruct (d !! k0) as [a|].
      * destruct (mv a v0) as [m|e|]; simpl in Hd0; [|done..].
        injection Hd0 as <-. by rewrite lookup_insert_ne.
      * injection Hd0 as <-. by rewrite lookup_insert_ne.
Qed.

Lemma foldl_merge_key_returns (l : list (string * errval)) d :
  NoDup l.*1 →
  (∀ k a b, d !! k = Some a → (k, b) ∈ l → ∃ m, mv a b = Ret m) →
  ∃ d', foldl (merge_key mv) (Ret d) l = Ret d'.
Proof.
  revert d. induction l as [|[k0 v0] l IH]; intros d Hnd H; cbn [foldl];
    [by eexists|].
  apply NoDup_cons in Hnd as [Hk0 Hnd].
  assert (∃ d0, merge_key mv (Ret d) (k0, v0) = Ret d0 ∧
                ∀ k, k ≠ k0 → d0 !! k = d !! k) as (d0 & -> & Hd0).
  { unfold merge_key. simpl. destruct (d !! k0) as [a|] eqn:Ha.
    - destruct (H k0 a v0 Ha) as [m ->]; [left|]. simpl.
      eexists; split; [done|]. intros k Hk. by rewrite lookup_insert_ne.
    - eexists; split; [done|]. intros k Hk. by rewrite lookup_insert_ne. }
  apply IH; [done|]. intros k a b Ha Hb.
  assert (k ≠ k0).
  { intros ->. apply Hk0. apply list_elem_of_fmap. by exists (k0, b). }
  rewrite Hd0 in Ha by done. eapply H; [done|by right].
Qed.

Lemma foldl_merge_key_not_cut (l : list (string * errval)) d :
  NoDup l.*1 →
  (∀ k a b, d !! k = Some a → (k, b) ∈ l → mv a b ≠ Cut) →
  foldl (merge_key mv) (Ret d) l ≠ Cut.
Proof.
  revert d. induction l as [|[k0 v0] l IH]; intros d Hnd H; cbn [foldl];
    [done|].
  apply NoDup_cons in Hnd as [Hk0 Hnd].
  assert ((∃ e, merge_key mv (Ret d) (k0, v0) = Exc e)
          ∨ ∃ d0, merge_key mv (Ret d) (k0, v0) = Ret d0 ∧
                  ∀ k, k ≠ k0 → d0 !! k = d !! k) as [[e ->]|(d0 & -> & Hd0)].
  { unfold merge_key. simpl. destruct (d !! k0) as [a|] eqn:Ha.
    - pose proof (H k0 a v0 Ha (list_elem_of_here _ _)) as Hm.
      destruct (mv a v0) as [m|e|]; simpl; [|by left; eexists|done].
      right. eexists; split; [done|]. intros k Hk. by rewrite lookup_insert_ne.
    - right. eexists; split; [done|]. intros k Hk. by rewrite lookup_insert_ne. }
  { by rewrite foldl_merge_key_Exc. }
  apply IH; [done|]. intros k a b Ha Hb.
  assert (k ≠ k0).
  { intros ->. apply Hk0. apply list_elem_of_fmap. by exists (k0, b). }
  rewrite Hd0 in Ha by done. eapply H; [done|by right].
Qed.

Lemma merge_dicts_spec d1 d2 d :
  merge_dicts_with mv d1 d2 = Ret d →
  ∀ k, merged_entry (λ a b m, mv a b = Ret m) (d1 !! k) (d2 !! k) (d !! k).
Proof.
  unfold merge_dicts_with. intros H k.
  rewrite <-(list_to_map_to_list d2) at 1.
  eapply foldl_merge_key_spec; [apply NoDup_fst_map_to_list|done].
Qed.

Lemma merge_dicts_returns d1 d2 :
  (∀ k a b, d1 !! k = Some a → d2 !! k = Some b → ∃ m, mv a b = Ret m) →
  ∃ d, merge_dicts_with mv d1 d2 = Ret d.
Proof.
  intros H. apply foldl_merge_key_returns; [apply NoDup_fst_map_to_list|].
  intros k a b Ha Hb. apply (H k a b Ha). by apply elem_of_map_to_list.
Qed.

Lemma merge_dicts_not_cut d1 d2 :
  (∀ k a b, d1 !! k = Some a → d2 !! k = Some b → mv a b ≠ Cut) →
  merge_dicts_with mv d1 d2 ≠ Cut.
Proof.
  intros H. apply foldl_merge_key_not_cut; [apply NoDup_fst_map_to_list|].
  intros k a b Ha Hb. apply (H k a b Ha). by apply elem_of_map_to_list.
Qed.
End merge_dict_rules.

Section merge_values_facts.
Import Schema.

Lemma merge_values_mono n m v1 v2 o :
  merge_values n v1 v2 = o → o ≠ Cut → n ≤ m → merge_values m v1 v2 = o.
Proof.
  revert m v1 v2 o. induction n as [|n IH]; intros m v1 v2 o.
  { simpl. by intros <-. }
  intros H Ho Hle. destruct m as [|m]; [lia|].
  assert (Hmv : ∀ x y o, merge_values n x y = o → o ≠ Cut →
                         merge_values m x y = o).
  { intros x y o' Hr Ho'. apply IH; [done|done|lia]. }
  destruct v1 as [|s1|l1|l1|d1], v2 as [|s2|l2|l2|d2]; try done;
    cbn [merge_values] in *;
    try (destruct (merge_lists_with (merge_values n) _ _) as [r'|e|] eqn:Hl;
         [rewrite (merge_lists_le _ _ Hmv _ _ _ Hl) by done; done
         |rewrite (merge_lists_le _ _ Hmv _ _ _ Hl) by done; done
         |by subst]).
  destruct (merge_dicts_with (merge_values n) d1 d2) as [r'|e|] eqn:Hd.
  - unfold merge_dicts_with in *.
    by rewrite (foldl_merge_key_le _ _ Hmv _ _ _ Hd).
  - unfold merge_dicts_with in *.
    by rewrite (foldl_merge_key_le _ _ Hmv _ _ _ Hd).
  - by subst.
Qed.

Lemma nesting_elem x (l : list errval) :
  x ∈ l → nesting x ≤ foldr (λ x acc, max (nesting x) acc) 0 l.
Proof.
  induction 1 as [x l|x y l _ IH]; cbn [foldr]; lia.
Qed.

Lemma nesting_lookup (d : gmap string errval) k x :
  d !! k = Some x →
  nesting x ≤ map_fold (λ _ x acc, max (nesting x) acc) 0 d.
Proof.
  rewrite map_fold_foldr. intros H%elem_of_map_to_list.
  remember (k, x) as kx eqn:Hkx. replace x with kx.2 by (by subst).
  clear Hkx. induction H as [[??] ?|[??] [??] ? _ IH]; simpl in *; lia.
Qed.

(** The recursion ends: at a depth above the nesting of [v1] the call
    returns or raises. *)
Lemma merge_values_total n v1 v2 :
  nesting v1 < n → merge_values n v1 v2 ≠ Cut.
Proof.
  revert v1 v2. induction n as [|n IH]; intros v1 v2 Hn; [lia|].
  assert (∀ s1 s2, (∀ x, x ∈ items s1 → nesting x < n) →
            merge_lists_with (merge_values n) s1 s2 ≫= (λ l, Ret (EList l)) ≠ Cut)
    as Hseq.
  { intros s1 s2 Hs.
    assert (merge_lists_with (merge_values n) s1 s2 ≠ Cut) as Hl.
    { apply merge_lists_not_cut. intros x y Hx _ _ _. by apply IH, Hs. }
    by destruct (merge_lists_with (merge_values n) s1 s2). }
  destruct v1 as [|s1|l1|l1|d1], v2 as [|s2|l2|l2|d2]; try done;
    cbn [merge_values]; cbn [nesting] in Hn;
    try (apply Hseq; intros x Hx; pose proof (nesting_elem _ _ Hx);
         cbn [items] in *; lia).
  assert (merge_dicts_with (merge_values n) d1 d2 ≠ Cut) as Hd.
  { apply merge_dicts_not_cut. intros k a b Ha _. apply IH.
    pose proof (nesting_lookup _ _ _ Ha). lia. }
  by destruct (merge_dicts_with (merge_values n) d1 d2).
Qed.

Lemma merged_det v1 v2 r r' : merged v1 v2 r → merged v1 v2 r' → r = r'.
Proof.
  intros [n Hn] [m Hm].
  apply (merge_values_mono _ (max n m)) in Hn; [|done|lia].
  apply (merge_values_mono _ (max n m)) in Hm; [|done|lia]. congruence.
Qed.

Lemma merged_not_raises v1 v2 r e : merged v1 v2 r → raises v1 v2 e → False.
Proof.
  intros [n Hn] [m Hm].
  apply (merge_values_mono _ (max n m)) in Hn; [|done|lia].
  apply (merge_values_mono _ (max n m)) in Hm; [|done|lia]. congruence.
Qed.

(** A call returns a value or raises. *)
Lemma merge_values_settles v1 v2 :
  (∃ r, merged v1 v2 r) ∨ (∃ e, raises v1 v2 e).
Proof.
  pose proof (merge_values_total (S (nesting v1)) v1 v2 ltac:(lia)) as H.
  destruct (merge_values (S (nesting v1)) v1 v2) as [r|e|] eqn:Hr; [| |done].
  - left. exists r. by eexists.
  - right. exists e. by eexists.
Qed.
End merge_values_facts.

Section merge_inversion.
Import Schema.

Lemma merged_dict_inv d1 d2 r :
  merged (EDict d1) (EDict d2) r →
  ∃ n d, r = EDict d ∧ merge_dicts_with (merge_values n) d1 d2 = Ret d.
Proof.
  intros [[|n] Hn]; [done|]. simpl in Hn.
  destruct (merge_dicts_with (merge_values n) d1 d2) as [d|e|] eqn:Hd; [|done..].
  injection Hn as <-. by exists n, d.
Qed.

Lemma merge_values_sequences n s1 s2 :
  merge_values (S n) (seq_value s1) (seq_value s2)
  = l ← merge_lists_with (merge_values n) s1 s2; Ret (EList l).
Proof. by destruct s1, s2. Qed.

Lemma merged_seq_inv s1 s2 r :
  merged (seq_value s1) (seq_value s2) r →
  ∃ n l, r = EList l ∧ merge_lists_with (merge_values n) s1 s2 = Ret l.
Proof.
  intros [[|n] Hn]; [done|]. rewrite merge_values_sequences in Hn.
  destruct (merge_lists_with (merge_values n) s1 s2) as [l|e|] eqn:Hl; [|done..].
  injection Hn as <-. by exists n, l.
Qed.

Lemma merged_list_inv l1 l2 r :
  merged (EList l1) (EList l2) r →
  ∃ n l, r = EList l
         ∧ merge_lists_with (merge_values n) (SList l1) (SList l2) = Ret l.
Proof. apply (merged_seq_inv (SList l1) (SList l2)). Qed.
End merge_inversion.

(** The error-merge rule where it returns: two strings are joined with
    a newline between them; the merge of two lists is a list as long as
    the longer one, whose element at each index merges the two elements
    there, a missing element counting as [None] and [None] on one side
    yielding the other side's element; the merge of two dictionaries
    holds, key by key, the merge of the two values when both have the
    key and the only value otherwise.  A call returns at most one value,
    and it returns or raises. *)
Lemma merge_values_dispatch :
  (∀ s1 s2,
     Schema.merged (Schema.EStr s1) (Schema.EStr s2)
       (Schema.EStr (s1 +:+ Py.NL +:+ s2)))
  ∧ (∀ s1 s2 r0,
       Schema.merged (Schema.seq_value s1) (Schema.seq_value s2) r0 →
       ∃ r, r0 = Schema.EList r
       ∧ List.length r = max (List.length (Schema.items s1))
                             (List.length (Schema.items s2))
       ∧ ∀ i, i < List.length r →
           ∃ item, r !! i = Some item ∧
             let x := default Schema.ENone (Schema.items s1 !! i) in
             let y := default Schema.ENone (Schema.items s2 !! i) in
             if Schema.is_none x then item = y
             else if Schema.is_none y then item = x
             else Schema.merged x y item)
  ∧ (∀ d1 d2 r0,
       Schema.merged (Schema.EDict d1) (Schema.EDict d2) r0 →
       ∃ d, r0 = Schema.EDict d
       ∧ ∀ k, Schema.merged_entry Schema.merged (d1 !! k) (d2 !! k) (d !! k))
  ∧ (∀ v1 v2 r r',
       Schema.merged v1 v2 r → Schema.merged v1 v2 r' → r = r')
  ∧ (∀ v1 v2, (∃ r, Schema.merged v1 v2 r)
              ∨ (∃ e, Schema.raises v1 v2 e)).
Proof.
  split; [|split; [|split; [|split]]].
  - intros s1 s2. by exists 1.
  - intros s1 s2 r0 (n & r & -> & Hr)%merged_seq_inv. exists r. split; [done|].
    destruct (merge_lists_spec _ _ _ _ Hr) as [Hlen Hi]. split; [done|].
    intros i Hlt. destruct (Hi i Hlt) as (item & Hitem & Hm).
    exists item. split; [done|]. cbn zeta. unfold Schema.merge_item in Hm.
    destruct (Schema.is_none (default Schema.ENone (Schema.items s1 !! i)));
      [congruence|].
    destruct (Schema.is_none (default Schema.ENone (Schema.items s2 !! i)));
      [congruence|].
    by exists n.
  - intros d1 d2 r0 (n & d & -> & Hd)%merged_dict_inv. exists d. split; [done|].
    intros k. pose proof (merge_dicts_spec _ _ _ _ Hd k) as Hk.
    unfold Schema.merged_entry in *.
    destruct (d1 !! k), (d2 !! k); try done.
    destruct Hk as (m & Hm & Hmv). exists m. split; [done|]. by exists n.
  - apply merged_det.
  - apply merge_values_settles.
Qed.

(** C9: the rule for two sequences fails where the shorter one is a
    tuple.  [merge_values] sends lists and tuples alike to
    [merge_lists], which pads the shorter operand with
    [l + [None]*n]: on a tuple that is a [TypeError].  So the merge of
    the one-element tuple holding [a] with the list of [b] and [c]
    raises and returns nothing, where the list holding [a] merges with
    it into the list of [a], newline, [b] and of [c], and so does the
    tuple of [a] and [None], which needs no padding.  At any depth a
    merge of two sequences raises whenever the shorter one is a
    tuple. *)
Theorem merge_shorter_tuple_raises :
  Schema.merge_values 1
    (Schema.ETuple [Schema.EStr "a"])
    (Schema.EList [Schema.EStr "b"; Schema.EStr "c"])
  = Schema.Exc Schema.tuple_plus_list
  ∧ (∀ r, ¬ Schema.merged
              (Schema.ETuple [Schema.EStr "a"])
              (Schema.EList [Schema.EStr "b"; Schema.EStr "c"]) r)
  ∧ Schema.merged
      (Schema.EList [Schema.EStr "a"])
      (Schema.EList [Schema.EStr "b"; Schema.EStr "c"])
      (Schema.EList [Schema.EStr ("a" +:+ Py.NL +:+ "b"); Schema.EStr "c"])
  ∧ Schema.merged
      (Schema.ETuple [Schema.EStr "a"; Schema.ENone])
      (Schema.EList [Schema.EStr "b"; Schema.EStr "c"])
      (Schema.EList [Schema.EStr ("a" +:+ Py.NL +:+ "b"); Schema.EStr "c"])
  ∧ (∀ depth l1 l2,
       List.length l1 < List.length l2 →
       Schema.merge_values (S depth) (Schema.ETuple l1) (Schema.EList l2)
       = Schema.Exc Schema.tuple_plus_list
       ∧ Schema.merge_values (S depth) (Schema.ETuple l1) (Schema.ETuple l2)
         = Schema.Exc Schema.tuple_plus_list)
  ∧ (∀ depth l1 l2,
       List.length l2 < List.length l1 →
       Schema.merge_values (S depth) (Schema.EList l1) (Schema.ETuple l2)
       = Schema.Exc Schema.tuple_plus_list
       ∧ Schema.merge_values (S depth) (Schema.ETuple l1) (Schema.ETuple l2)
         = Schema.Exc Schema.tuple_plus_list).
Proof.
  assert (Hshort : ∀ depth s1 s2,
    (List.length (Schema.items s1) < List.length (Schema.items s2)
     ∧ (∃ l, s1 = Schema.STuple l))
    ∨ (List.length (Schema.items s2) < List.length (Schema.items s1)
       ∧ (∃ l, s2 = Schema.STuple l)) →
    (l ← Schema.merge_lists_with (Schema.merge_values depth) s1 s2;
     Schema.Ret (Schema.EList l))
    = Schema.Exc Schema.tuple_plus_list).
  { intros depth s1 s2 H. by rewrite merge_lists_short_tuple. }
  split_and!.
  - reflexivity.
  - intros r Hr. eapply merged_not_raises; [exact Hr|]. by exists 1.
  - by exists 2.
  - by exists 2.
  - intros depth l1 l2 Hlt. split; apply Hshort; left; (split; [done|by eexists]).
  - intros depth l1 l2 Hlt. split; apply Hshort; right; (split; [done|by eexists]).
Qed.

(** ** The result monad *)

Section result_facts.
Import Py.

Lemma bind_Ok {A B} (m : result A) (f : A → result B) b :
  m ≫= f = Ok b ↔ ∃ a, m = Ok a ∧ f a = Ok b.
Proof.
  destruct m as [a|e]; simpl; split.
  - intros H. by exists a.
  - by intros (a' & [= <-] & H).
  - done.
  - by intros (a' & [=] & _).
Qed.

Lemma mapM_Ok_Forall2 {A B} (f : A → result B) l r :
  mapM f l = Ok r ↔ Forall2 (λ x y, f x = Ok y) l r.
Proof.
  revert r. induction l as [|x l IH]; intros r; simpl.
  - split; [intros [= <-]; constructor|by inversion 1].
  - rewrite bind_Ok. split.
    + intros (y & Hy & (ys & Hys & [= <-])%bind_Ok). constructor; [done|].
      by apply IH.
    + inversion 1 as [|? y ? ys Hy Hys]; subst. exists y. split; [done|].
      apply bind_Ok. exists ys. split; [by apply IH|done].
Qed.

Lemma mapM_total {A B} (f : A → result B) l :
  (∀ x, x ∈ l → is_ok (f x) = true) → ∃ r, mapM f l = Ok r.
Proof.
  induction l as [|x l IH]; intros H; simpl; [by eexists|].
  pose proof (H x ltac:(left)) as Hx. destruct (f x) as [y|]; [|done].
  destruct IH as [r ->]; [intros; apply H; by right|]. by eexists.
Qed.

Lemma py_repr_str_ok v : is_ok (py_repr v) = true → is_ok (py_str v) = true.
Proof. by destruct v. Qed.
End result_facts.

(** ** The content buffer *)

Section buffer_facts.
Import Py Htmlfill.

Lemma remove_used_list_lookup {V} (l : list key) (d : gmap key V) k :
  foldl (λ d key, if bool_decide (is_Some (d !! key)) then delete key d else d)
    d l !! k
  = if bool_decide (k ∈ l) then None else d !! k.
Proof.
  revert d. induction l as [|k0 l IH]; intros d; cbn [foldl]; [done|].
  rewrite IH. destruct (decide (k = k0)) as [->|Hne].
  - rewrite (bool_decide_eq_true_2 (k0 ∈ k0 :: l)) by left.
    destruct (bool_decide (k0 ∈ l)); [done|].
    destruct (decide (is_Some (d !! k0))) as [Hs|Hs].
    + by rewrite bool_decide_eq_true_2, lookup_delete_eq.
    + rewrite bool_decide_eq_false_2 by done.
      by rewrite <-eq_None_not_Some in Hs.
  - assert ((if bool_decide (is_Some (d !! k0)) then delete k0 d else d) !! k
            = d !! k) as ->.
    { destruct (bool_decide (is_Some (d !! k0)));
        [by rewrite lookup_delete_ne|done]. }
    apply (f_equal (λ b : bool, if b then None else d !! k)).
    apply bool_decide_ext. rewrite elem_of_cons. naive_solver.
Qed.

(** The keys of [d] left once those of [used] are deleted. *)
Lemma remove_used_lookup {V} (d : gmap key V) (used : gset key) k :
  remove_used d used !! k = if bool_decide (k ∈ used) then None else d !! k.
Proof.
  unfold remove_used. rewrite remove_used_list_lookup.
  apply (f_equal (λ b : bool, if b then None else d !! k)).
  apply bool_decide_ext, elem_of_elements.
Qed.

Lemma insert_before_None marker text l :
  insert_before marker text l = None ↔ Marker marker ∉ l.
Proof.
  induction l as [|[t|m] l IH]; simpl.
  - split; [intros _; apply not_elem_of_nil|done].
  - rewrite fmap_None, IH, not_elem_of_cons. naive_solver.
  - case_decide as Hm.
    + subst. split; [done|]. intros H. exfalso. apply H. left.
    + rewrite fmap_None, IH, not_elem_of_cons. naive_solver.
Qed.

(** [insert_at_marker] puts the text right before the first marker
    with the key and changes nothing else. *)
Lemma insert_before_Some marker text l l' :
  insert_before marker text l = Some l' →
  ∃ pre post, l = pre ++ (Marker marker :: post) ∧ (Marker marker ∉ pre) ∧
              l' = pre ++ (Text text :: Marker marker :: post).
Proof.
  revert l'. induction l as [|it l IH]; intros l'; simpl; [done|].
  destruct it as [t|m].
  - intros (l0 & Hl0 & ->)%fmap_Some.
    destruct (IH _ Hl0) as (pre & post & -> & Hpre & ->).
    exists (Text t :: pre), post. repeat split; try done.
    rewrite not_elem_of_cons. done.
  - case_decide as Hm.
    + subst. intros [= <-]. exists [], l. repeat split. apply not_elem_of_nil.
    + intros (l0 & Hl0 & ->)%fmap_Some.
      destruct (IH _ Hl0) as (pre & post & -> & Hpre & ->).
      exists (Marker m :: pre), post. repeat split; try done.
      rewrite not_elem_of_cons. split; [congruence|done].
Qed.
End buffer_facts.

Section auto_insertion.
Import Py Htmlfill.



Lemma auto_insert_Ok f kv p p' :
  auto_insert f kv p = Ok p' →
  ∃ t l', f kv.2 = Ok t ∧ insert_before kv.1 t (_content p) = Some l' ∧
          p' = set_content l' p.
Proof.
  unfold auto_insert. intros ([] & _ & (t & Ht & H)%bind_Ok)%bind_Ok.
  unfold insert_at_marker in H.
  destruct (insert_before kv.1 t (_content p)) as [l'|] eqn:Hl; [|done].
  injection H as <-. eauto.
Qed.

End auto_insertion.

Section close_facts.
Import Py Htmlfill.

Lemma auto_insert_errors_Ok c p p' ue :
  auto_insert_errors c p = Ok (p', ue) →
  is_ok (repr_dict (errors c)) = true ∧
  match auto_error_formatter c with
  | Some f => foldM (auto_insert f)
                (map_to_list (remove_used (errors c) (used_errors p))) p = Ok p'
              ∧ ue = ∅
  | None => p' = p ∧ ue = remove_used (errors c) (used_errors p)
  end.
Proof.
  unfold auto_insert_errors. intros ([] & Hpr & H)%bind_Ok. split.
  - unfold py_print in Hpr. simpl in Hpr.
    destruct (repr_dict (remove_used _ _)); [|done].
    by destruct (repr_dict (errors c)).
  - destruct (auto_error_formatter c) as [f|].
    + apply bind_Ok in H as (p0 & Hp0 & [= -> <-]). done.
    + by injection H as -> ->.
Qed.

Lemma auto_insert_used_keys f kvs p p' :
  foldM (auto_insert f) kvs p = Ok p' →
  used_keys p' = used_keys p ∧ used_errors p' = used_errors p.
Proof.
  revert p. induction kvs as [|kv kvs IH]; intros p; simpl.
  - by intros [= <-].
  - intros (p0 & Hp0 & Hrest)%bind_Ok.
    destruct (auto_insert_Ok _ _ _ _ Hp0) as (t0 & l0 & _ & _ & ->).
    by destruct (IH _ Hrest) as [-> ->].
Qed.

End close_facts.

Section close_returns.
Import Py Htmlfill.






End close_returns.


Section strict_mode.
Import Py Htmlfill.

Lemma repr_dict_ok (d : gmap key pyval) k v :
  is_ok (repr_dict d) = true → d !! k = Some v → is_ok (py_repr v) = true.
Proof.
  unfold repr_dict. intros Hok Hk.
  destruct (mapM _ (map_to_list d)) as [rs|] eqn:Hrs; [|done].
  apply mapM_Ok_Forall2 in Hrs. apply elem_of_map_to_list in Hk.
  apply list_elem_of_lookup in Hk as [i Hi].
  destruct (Forall2_lookup_l _ _ _ _ _ Hrs Hi) as (r & _ & Hr).
  simpl in Hr. by destruct (py_repr v).
Qed.

Lemma elem_of_keys {V} (d : gmap key V) k :
  k ∈ (map_to_list d).*1 ↔ is_Some (d !! k).
Proof.
  rewrite list_elem_of_fmap. split.
  - intros ([k' v] & -> & H%elem_of_map_to_list). by exists v.
  - intros [v Hv]. exists (k, v). split; [done|]. by apply elem_of_map_to_list.
Qed.

Lemma remove_used_keys {V} (d : gmap key V) (used : gset key) k :
  k ∈ (map_to_list (remove_used d used)).*1 ↔ is_Some (d !! k) ∧ (k ∉ used).
Proof.
  rewrite elem_of_keys, remove_used_lookup. case_bool_decide.
  - split; [by intros [??]|naive_solver].
  - naive_solver.
Qed.
End strict_mode.

(** C3: the strict-mode checks of [close], made once the auto-insertion
    step has gone through.  With [use_all_keys], [close] fails when a key
    of [defaults] is not in [used_keys], and the failure lists exactly
    those keys; otherwise it fails when an error is still unused, and
    the failure lists those keys with the text of their errors.  The
    errors still unused are those whose key is not in [used_errors] when
    there is no [auto_error_formatter], and none when there is one.
    Without [use_all_keys] neither check is made and [close] returns the
    text of the buffer. *)
Theorem close_strict_mode
    (c : Htmlfill.config) (p p' : Htmlfill.parser)
    (unused_errors : gmap Py.key Py.pyval) :
  Htmlfill.auto_insert_errors c p = Py.Ok (p', unused_errors) →
  let unused := Htmlfill.remove_used (Htmlfill.defaults c) (Htmlfill.used_keys p) in
  (∀ k, k ∈ (map_to_list unused).*1
        ↔ is_Some (Htmlfill.defaults c !! k) ∧ (k ∉ Htmlfill.used_keys p))
  ∧ (∀ k, k ∈ (map_to_list unused_errors).*1
          ↔ Htmlfill.auto_error_formatter c = None
            ∧ is_Some (Htmlfill.errors c !! k) ∧ (k ∉ Htmlfill.used_errors p))
  ∧ (Htmlfill.use_all_keys c = true → unused ≠ ∅ →
     Htmlfill.close c p
     = Py.Raise (Py.AssertionError
         ("These keys from defaults were not used in the form: ["
          +:+ Py.str_join ", " (Py.repr_key <$> (map_to_list unused).*1)
          +:+ "]")))
  ∧ (Htmlfill.use_all_keys c = true → unused = ∅ → unused_errors ≠ ∅ →
     ∃ error_text,
       Forall2 (λ k s, ∃ v sv, Htmlfill.errors c !! k = Some v
                               ∧ Py.py_str v = Py.Ok sv
                               ∧ s = Py.str_key k +:+ ": " +:+ sv)
         (map_to_list unused_errors).*1 error_text
       ∧ Htmlfill.close c p
         = Py.Raise (Py.AssertionError
             ("These errors were not used in the form: "
              +:+ Py.str_join ", " error_text)))
  ∧ (Htmlfill.use_all_keys c = false
     ∨ (unused = ∅ ∧ unused_errors = ∅) →
     Htmlfill.close c p
     = (text ← Htmlfill.join_text (Htmlfill._content p'); Py.Ok (p', text))).
Proof.
  intros Hauto unused.
  pose proof (auto_insert_errors_Ok _ _ _ _ Hauto) as [Hrepr Hcase].
  assert (Hkeys : Htmlfill.used_keys p' = Htmlfill.used_keys p).
  { destruct (Htmlfill.auto_error_formatter c).
    - destruct Hcase as [Hloop _]. by apply auto_insert_used_keys in Hloop as [? _].
    - by destruct Hcase as [-> _]. }
  assert (Hue : ∀ k, k ∈ (map_to_list unused_errors).*1
          ↔ Htmlfill.auto_error_formatter c = None
            ∧ is_Some (Htmlfill.errors c !! k) ∧ (k ∉ Htmlfill.used_errors p)).
  { intros k. destruct (Htmlfill.auto_error_formatter c).
    - destruct Hcase as [_ ->]. rewrite map_to_list_empty. simpl.
      split; [by intros ?%elem_of_nil|by intros [? _]].
    - destruct Hcase as [_ ->]. rewrite remove_used_keys. naive_solver. }
  split; [intros k; apply remove_used_keys|]. split; [done|].
  change ("These keys from defaults were not used in the form: ["
          +:+ Py.str_join ", " (Py.repr_key <$> (map_to_list unused).*1)
          +:+ "]") with (Htmlfill.unused_keys_message unused).
  unfold Htmlfill.close. rewrite Hauto. simpl. rewrite Hkeys. fold unused.
  split; [|split].
  - intros -> Hne. simpl. by rewrite (bool_decide_eq_false_2 (unused = ∅)).
  - intros -> He Hne. simpl. rewrite (bool_decide_eq_true_2 (unused = ∅)) by done.
    simpl. rewrite (bool_decide_eq_false_2 (unused_errors = ∅)) by done.
    destruct (mapM_total (Htmlfill.error_text_of c) (map_to_list unused_errors).*1)
      as [error_text Htext].
    { intros k (_ & [v Hv] & _)%Hue. unfold Htmlfill.error_text_of. rewrite Hv.
      pose proof (py_repr_str_ok v (repr_dict_ok _ _ _ Hrepr Hv)).
      by destruct (Py.py_str v). }
    exists error_text. rewrite Htext. simpl. split; [|done].
    apply mapM_Ok_Forall2 in Htext.
    eapply Forall2_impl; [exact Htext|]. intros k s. simpl.
    unfold Htmlfill.error_text_of. destruct (Htmlfill.errors c !! k) as [v|]; [|done].
    destruct (Py.py_str v) as [sv|] eqn:Hsv; [|done]. simpl.
    intros [= <-]. eauto.
  - intros H. destruct (Htmlfill.use_all_keys c); [|done].
    destruct H as [?|[Hu He]]; [done|]. simpl.
    rewrite (bool_decide_eq_true_2 (unused = ∅)) by done. simpl.
    by rewrite (bool_decide_eq_true_2 (unused_errors = ∅)).
Qed.

(** ** Strings and source positions *)

Section string_facts.
Import Py.

Lemma str_app_cons a s t : String a s +:+ t = String a (s +:+ t).
Proof. done. Qed.

Lemma str_app_nil_r s : s +:+ EmptyString = s.
Proof. induction s as [|a s IH]; [done|]. rewrite str_app_cons. by f_equal. Qed.

Lemma str_app_assoc s t u : (s +:+ t) +:+ u = s +:+ t +:+ u.
Proof. induction s as [|a s IH]; [done|]. rewrite !str_app_cons. by f_equal. Qed.

Lemma str_length_app s t :
  String.length (s +:+ t) = String.length s + String.length t.
Proof.
  induction s as [|a s IH]; [done|]. rewrite str_app_cons.
  cbn [String.length]. by rewrite IH.
Qed.

Lemma str_drop_nil n : str_drop n EmptyString = EmptyString.
Proof. by destruct n. Qed.

Lemma str_take_nil n : str_take n EmptyString = EmptyString.
Proof. by destruct n. Qed.

Lemma str_drop_app_l n s t :
  n ≤ String.length s → str_drop n (s +:+ t) = str_drop n s +:+ t.
Proof.
  revert n. induction s as [|a s IH]; intros [|n] Hn; simpl in *; try done; try lia.
  apply IH. lia.
Qed.

Lemma str_drop_app_r n s t :
  str_drop (String.length s + n) (s +:+ t) = str_drop n t.
Proof. induction s as [|a s IH]; simpl; done. Qed.

Lemma str_take_app_l n s t :
  n ≤ String.length s → str_take n (s +:+ t) = str_take n s.
Proof.
  revert n. induction s as [|a s IH]; intros [|n] Hn; simpl in *; try done; try lia.
  f_equal. apply IH. lia.
Qed.

Lemma str_take_app_r n s t :
  str_take (String.length s + n) (s +:+ t) = s +:+ str_take n t.
Proof.
  induction s as [|a s IH]; [done|]. rewrite !str_app_cons.
  cbn [String.length Nat.add str_take]. by f_equal.
Qed.

Lemma str_take_all n s : String.length s ≤ n → str_take n s = s.
Proof.
  revert n. induction s as [|a s IH]; intros [|n] Hn; simpl in *; try done; try lia.
  f_equal. apply IH. lia.
Qed.

Lemma str_length_drop n s :
  String.length (str_drop n s) = String.length s - n.
Proof. revert n. induction s as [|a s IH]; intros [|n]; simpl; auto. Qed.

Lemma str_drop_drop n m s : str_drop m (str_drop n s) = str_drop (n + m) s.
Proof.
  revert n. induction s as [|a s IH]; intros [|n]; simpl; auto using str_drop_nil.
Qed.

Lemma str_take_add n m s :
  str_take (n + m) s = str_take n s +:+ str_take m (str_drop n s).
Proof.
  revert n. induction s as [|a s IH]; intros [|n]; simpl; try done.
  - by rewrite str_take_nil.
  - rewrite str_app_cons. f_equal. apply IH.
Qed.

(** Two adjacent slices make one. *)
Lemma str_slice_app a b c s :
  a ≤ b → b ≤ c → str_slice a b s +:+ str_slice b c s = str_slice a c s.
Proof.
  intros Hab Hbc. unfold str_slice.
  replace (c - a) with ((b - a) + (c - b)) by lia.
  rewrite str_take_add, str_drop_drop. by replace (a + (b - a)) with b by lia.
Qed.

Lemma str_slice_from_0 b s : str_slice 0 b s = str_take b s.
Proof. unfold str_slice. simpl. by rewrite Nat.sub_0_r. Qed.

Lemma str_slice_same a s : str_slice a a s = EmptyString.
Proof. unfold str_slice. by rewrite Nat.sub_diag. Qed.

Lemma split_lines_nonempty s : split_lines s ≠ [].
Proof.
  destruct s as [|a s]; [done|]. simpl.
  destruct (Ascii.eqb a nl); [done|]. by destruct (split_lines s).
Qed.

Lemma str_join_cons sep x y ys :
  str_join sep (x :: y :: ys) = x +:+ sep +:+ str_join sep (y :: ys).
Proof. done. Qed.

(** Splitting at the newlines and joining again gives the text back. *)
Lemma join_split_lines s : str_join NL (split_lines s) = s.
Proof.
  induction s as [|a s IH]; [done|].
  pose proof (split_lines_nonempty s) as Hne. cbn [split_lines].
  destruct (split_lines s) as [|l ls]; [done|].
  destruct (Ascii.eqb_spec a nl) as [->|Hnl].
  - rewrite str_join_cons, IH. done.
  - destruct ls as [|l' ls].
    + unfold str_join in *. simpl in *. by rewrite IH.
    + rewrite str_join_cons in *. rewrite str_app_cons. by rewrite IH.
Qed.
End string_facts.

Section position_facts.
Import Py Htmlfill.

Lemma flat_cons x ls : flat (x :: ls) = x +:+ NL +:+ flat ls.
Proof. done. Qed.

Lemma rest_cons x ls : rest (x :: ls) = NL +:+ x +:+ rest ls.
Proof. done. Qed.

Lemma flat_app a b : flat (a ++ b) = flat a +:+ flat b.
Proof.
  induction a as [|x a IH]; [done|].
  rewrite <-app_comm_cons, !flat_cons, IH. by rewrite !str_app_assoc.
Qed.

Lemma flat_length ls :
  String.length (flat ls) = foldr (λ l acc, S (String.length l) + acc) 0 ls.
Proof.
  induction ls as [|x ls IH]; [done|].
  rewrite flat_cons, !str_length_app, IH. simpl. lia.
Qed.

Lemma flat_rest mid l post :
  rest (mid ++ l :: post) = NL +:+ flat mid +:+ l +:+ rest post.
Proof.
  induction mid as [|x mid IH]; [done|].
  rewrite <-app_comm_cons, rest_cons, flat_cons, IH.
  by rewrite !str_app_assoc.
Qed.

Lemma source_decomp pre l post :
  source_of (pre ++ l :: post) = flat pre +:+ l +:+ rest post.
Proof.
  unfold source_of. induction pre as [|x pre IH].
  - change (flat [] +:+ l +:+ rest post) with (l +:+ rest post).
    rewrite app_nil_l. revert l. induction post as [|y post IHp]; intros l.
    + by rewrite str_app_nil_r.
    + by rewrite str_join_cons, IHp, rest_cons.
  - rewrite <-app_comm_cons, flat_cons.
    destruct (pre ++ l :: post) as [|y ys] eqn:E.
    { by destruct pre. }
    rewrite str_join_cons, IH, !str_app_assoc. done.
Qed.

Lemma offset_decomp pre l post c :
  offset (pre ++ l :: post) (S (List.length pre), c)
  = String.length (flat pre) + c.
Proof.
  unfold offset. simpl. rewrite Nat.sub_0_r, take_app_length.
  by rewrite flat_length.
Qed.

Lemma split_at (ls : list string) i l :
  ls !! i = Some l →
  ∃ pre post, ls = pre ++ l :: post ∧ List.length pre = i.
Proof.
  intros H. exists (take i ls), (drop (S i) ls).
  split; [by rewrite take_drop_middle|].
  apply length_take_le. apply lookup_lt_Some in H. lia.
Qed.

(** Within one line the span is a slice of that line. *)
Lemma span_same_line ls i l c1 c2 :
  ls !! i = Some l → c1 ≤ String.length l → c2 ≤ String.length l →
  span ls (S i, c1) (S i, c2) = str_slice c1 c2 l.
Proof.
  intros Hl H1 H2. destruct (split_at _ _ _ Hl) as (pre & post & -> & <-).
  unfold span. rewrite !offset_decomp, source_decomp. unfold str_slice.
  rewrite str_drop_app_r, str_drop_app_l by done.
  replace (String.length (flat pre) + c2
           - (String.length (flat pre) + c1)) with (c2 - c1) by lia.
  apply str_take_app_l. rewrite str_length_drop. lia.
Qed.

(** Across lines the span is the end of the first line, the lines in
    between, and the start of the last line. *)
Lemma span_lines ls i j l1 l2 c1 c2 :
  i < j → ls !! i = Some l1 → ls !! j = Some l2 →
  c1 ≤ String.length l1 → c2 ≤ String.length l2 →
  span ls (S i, c1) (S j, c2)
  = str_drop c1 l1 +:+ NL +:+ flat (take (j - S i) (drop (S i) ls))
    +:+ str_take c2 l2.
Proof.
  intros Hij Hl1 Hl2 H1 H2.
  destruct (split_at _ _ _ Hl1) as (pre & tl & -> & <-).
  assert (Htl : tl !! (j - S (List.length pre)) = Some l2).
  { rewrite lookup_app_r in Hl2 by lia.
    rewrite lookup_cons_ne_0 in Hl2 by lia.
    rewrite <-Hl2. f_equal. lia. }
  destruct (split_at _ _ _ Htl) as (mid & post & -> & Hmid).
  assert (drop (S (List.length pre)) (pre ++ l1 :: mid ++ l2 :: post)
          = mid ++ l2 :: post) as ->.
  { rewrite drop_app_ge by lia.
    by replace (S (List.length pre) - List.length pre) with 1 by lia. }
  rewrite <-Hmid, take_app_length.
  assert (Hj : j = List.length (pre ++ l1 :: mid)).
  { rewrite length_app. simpl. lia. }
  unfold span. rewrite offset_decomp.
  assert (offset (pre ++ l1 :: mid ++ l2 :: post) (S j, c2)
          = String.length (flat pre) + (String.length l1 + 1
            + String.length (flat mid) + c2)) as ->.
  { replace (pre ++ l1 :: mid ++ l2 :: post)
      with ((pre ++ l1 :: mid) ++ l2 :: post) by by rewrite <-app_assoc.
    rewrite Hj at 1. rewrite offset_decomp, flat_app, flat_cons.
    rewrite !str_length_app. simpl. lia. }
  rewrite source_decomp, flat_rest.
  unfold str_slice. rewrite str_drop_app_r, str_drop_app_l by done.
  replace (String.length (flat pre)
           + (String.length l1 + 1 + String.length (flat mid) + c2)
           - (String.length (flat pre) + c1))
    with (String.length (str_drop c1 l1)
          + (String.length NL + (String.length (flat mid) + c2))).
  2:{ rewrite str_length_drop. simpl. lia. }
  rewrite !str_take_app_r. f_equal. f_equal. f_equal.
  by apply str_take_app_l.
Qed.
End position_facts.

(** ** [write_pos] *)

Section write_pos_facts.
Import Py Htmlfill.

Lemma join_text_app l1 l2 s1 s2 :
  join_text l1 = Ok s1 → join_text l2 = Ok s2 →
  join_text (l1 ++ l2) = Ok (s1 +:+ s2).
Proof.
  revert s1. induction l1 as [|[t|m] l1 IH]; intros s1; simpl.
  - by intros [= <-].
  - destruct t; try done.
    intros (r & Hr & [= <-])%bind_Ok H2. rewrite (IH _ Hr H2). simpl.
    by rewrite str_app_assoc.
  - auto.
Qed.

Lemma join_text_Ok_app l1 l2 s :
  join_text (l1 ++ l2) = Ok s →
  ∃ s1 s2, join_text l1 = Ok s1 ∧ join_text l2 = Ok s2 ∧ s = s1 +:+ s2.
Proof.
  revert s. induction l1 as [|[t|m] l1 IH]; intros s; simpl.
  - intros H. by exists EmptyString, s.
  - destruct t; try done.
    intros (r & Hr & [= <-])%bind_Ok.
    destruct (IH _ Hr) as (s1 & s2 & -> & -> & ->). simpl.
    exists (s0 +:+ s1), s2. by rewrite str_app_assoc.
  - auto.
Qed.

Lemma write_pos_suppressed pos p :
  in_textarea p || skip_error p = true →
  write_pos pos p = Ok (set_source_pos pos p).
Proof. intros H. unfold write_pos. destruct pos. by rewrite H. Qed.

Lemma write_pos_skip pos p :
  in_textarea p = false → skip_error p = false → skip_next p = true →
  write_pos pos p = Ok (set_source_pos pos (set_skip_next false p)).
Proof. intros H1 H2 H3. unfold write_pos. destruct pos. by rewrite H1, H2, H3. Qed.

Lemma line_at_S ls i l : ls !! i = Some l → line_at ls (S i) = Ok l.
Proof. unfold line_at. by intros ->. Qed.

Lemma write_lines_S from count p :
  write_lines from (S count) p
  = (l ← line_at (lines p) from;
     write_lines (S from) count (write_text (VStr NL) (write_text (VStr l) p))).
Proof. done. Qed.

Lemma write_lines_copy count : ∀ p i,
  (∀ k, k < count → is_Some (lines p !! (i + k))) →
  ∃ new, write_lines (S i) count p = Ok (set_content (_content p ++ new) p)
         ∧ join_text new = Ok (flat (take count (drop i (lines p)))).
Proof.
  induction count as [|count IH]; intros p i H.
  - exists []. simpl. rewrite app_nil_r. by destruct p.
  - destruct (H 0 ltac:(lia)) as [l Hl]. rewrite Nat.add_0_r in Hl.
    rewrite write_lines_S, (line_at_S _ _ _ Hl). simpl mbind.
    destruct (IH (write_text (VStr NL) (write_text (VStr l) p)) (S i))
      as (new & -> & Hnew).
    { intros k Hk. simpl. replace (S (i + k)) with (i + S k) by lia.
      apply H. lia. }
    exists (Text (VStr l) :: Text (VStr NL) :: new). split.
    + simpl. by rewrite <-!app_assoc.
    + simpl in Hnew |- *. rewrite Hnew. simpl.
      rewrite (drop_S _ _ _ Hl). by rewrite firstn_cons, flat_cons.
Qed.

(** When nothing suppresses it, [write_pos] appends to the buffer the
    source text between the cursor and the position of the event, and
    moves the cursor there. *)
Lemma write_pos_copy pos p :
  copying p →
  valid_pos (lines p) (source_pos p) → valid_pos (lines p) pos →
  pos_le (source_pos p) pos →
  ∃ new, write_pos pos p
         = Ok (set_source_pos pos (set_content (_content p ++ new) p))
         ∧ join_text new = Ok (span (lines p) (source_pos p) pos).
Proof.
  intros (Hta & Hse & Hsn) (i & l1 & Hi & Hl1 & Hc1) (j & l2 & Hj & Hl2 & Hc2) Hle.
  unfold write_pos. destruct pos as [cur_line cur_offset].
  destruct (source_pos p) as [src_line src_offset] eqn:Hsp.
  simpl in *. subst. rewrite Hta, Hse, Hsn. simpl.
  destruct (Nat.eqb_spec j i) as [->|Hne].
  - rewrite Hl1 in Hl2. injection Hl2 as <-.
    rewrite (line_at_S _ _ _ Hl1). simpl.
    exists [Text (VStr (str_slice src_offset cur_offset l1))]. split; [done|].
    simpl. rewrite str_app_nil_r. f_equal. symmetry.
    by apply span_same_line.
  - assert (Hij : i < j) by (destruct Hle as [?|[? _]]; simpl in *; lia).
    rewrite (line_at_S _ _ _ Hl1). simpl mbind. simpl source_pos. rewrite Hsp.
    cbn [fst snd].
    destruct (write_lines_copy (j - i - 1)
                (write_text (VStr NL)
                   (write_text (VStr (str_drop src_offset l1)) p)) (S i))
      as (new & Hnew & Hjoin).
    { intros k Hk. simpl. apply lookup_lt_is_Some.
      apply lookup_lt_Some in Hl2. lia. }
    replace (j - S i) with (j - i - 1) by lia.
    simpl in Hnew. simpl. rewrite Hnew. simpl.
    rewrite (line_at_S _ _ _ Hl2). simpl.
    exists (Text (VStr (str_drop src_offset l1)) :: Text (VStr NL)
            :: new ++ [Text (VStr (str_take cur_offset l2))]).
    split.
    + f_equal. f_equal. unfold set_content, write_text. simpl. f_equal.
      by rewrite <-!app_assoc.
    + simpl. simpl in Hjoin.
      rewrite (join_text_app _ _ _ _ Hjoin
                 (eq_refl : join_text [Text (VStr (str_take cur_offset l2))]
                            = Ok (str_take cur_offset l2 +:+ EmptyString))).
      simpl. rewrite str_app_nil_r. f_equal.
      rewrite (span_lines _ _ _ _ _ _ _ Hij Hl1 Hl2 Hc1 Hc2).
      by replace (j - S i) with (j - i - 1) by lia.
Qed.
End write_pos_facts.

(** ** What the handlers leave alone *)

Section frame_facts.
Import Py Htmlfill.

Lemma write_tag_inv tag a startend p p' :
  write_tag tag a startend p = Ok p' →
  ∃ t, tag_text tag a startend = Ok t ∧ p' = write_text (VStr t) p.
Proof. unfold write_tag. intros (t & Ht & [= <-])%bind_Ok. eauto. Qed.

Lemma write_lines_inv count : ∀ from p p',
  write_lines from count p = Ok p' →
  ∃ new, p' = set_content (_content p ++ new) p.
Proof.
  induction count as [|count IH]; intros from p p'.
  - intros [= <-]. exists []. rewrite app_nil_r. by destruct p.
  - rewrite write_lines_S. intros (l & _ & H)%bind_Ok.
    apply IH in H as [new ->]. simpl.
    exists (Text (VStr l) :: Text (VStr NL) :: new).
    unfold set_content. simpl. by rewrite <-!app_assoc.
Qed.

(** [write_pos] appends to the buffer, moves the cursor and may clear
    [skip_next]; it touches nothing else. *)
Lemma write_pos_inv pos p p' :
  write_pos pos p = Ok p' →
  ∃ new b, p' = set_source_pos pos
                  (set_skip_next b (set_content (_content p ++ new) p)).
Proof.
  unfold write_pos. destruct pos as [cur_line cur_offset].
  destruct (in_textarea p || skip_error p).
  { intros [= <-]. exists [], (skip_next p). rewrite app_nil_r. by destruct p. }
  destruct (skip_next p) eqn:Hsn.
  { intros [= <-]. exists [], false. rewrite app_nil_r. by destruct p. }
  intros (p0 & Hp0 & [= <-])%bind_Ok.
  destruct (cur_line =? (source_pos p).1).
  - apply bind_Ok in Hp0 as (l & _ & [= <-]).
    exists [Text (VStr (str_slice (source_pos p).2 cur_offset l))], false.
    destruct p; simpl in *. by subst.
  - apply bind_Ok in Hp0 as (l & _ & Hp0). simpl in Hp0.
    apply bind_Ok in Hp0 as (p1 & Hp1 & Hp0).
    apply bind_Ok in Hp0 as (l' & _ & [= <-]).
    apply write_lines_inv in Hp1 as [new ->].
    exists (Text (VStr (str_drop (source_pos p).2 l)) :: Text (VStr NL)
            :: new ++ [Text (VStr (str_take cur_offset l'))]), false.
    destruct p; simpl in *. subst.
    unfold set_source_pos, set_skip_next, write_text, set_content. simpl.
    by rewrite <-!app_assoc.
Qed.
End frame_facts.

(** ** Error keys stay used *)

Section used_errors_facts.
Import Py Htmlfill.

(** Take apart a successful run of a handler. *)
Ltac inv_ok :=
  repeat match goal with
  | H : Raise _ = Ok _ |- _ => discriminate H
  | H : Ok _ = Ok _ |- _ => injection H as <-
  | H : write_tag _ _ _ _ = Ok _ |- _ => apply write_tag_inv in H as (? & _ & ->)
  | H : write_pos _ _ = Ok _ |- _ => apply write_pos_inv in H as (? & ? & ->)
  | H : (_ ≫= _) = Ok _ |- _ => apply bind_Ok in H as (? & ? & H)
  | H : (if ?b then _ else _) = Ok _ |- _ => destruct b
  | H : match ?x with _ => _ end = Ok _ |- _ => destruct x
  end.

Lemma handle_input_used_errors c pos a startend p p' :
  handle_input c pos a startend p = Ok p' → used_errors p' = used_errors p.
Proof. unfold handle_input. intros H. by inv_ok. Qed.

Lemma handle_used_errors c tok p p' :
  handle c tok p = Ok p' → used_errors p ⊆ used_errors p'.
Proof.
  unfold handle, handle_startendtag, handle_starttag, handle_endtag, handle_misc.
  intros H. destruct tok as [pos [tag a|tag a|tag|]]; simpl in H; inv_ok;
    try (apply handle_input_used_errors in H; rewrite H); try done.
  all: try match goal with
    | H : handle_textarea _ _ _ = Ok _ |- _ => unfold handle_textarea in H
    | H : handle_select _ _ _ = Ok _ |- _ => unfold handle_select in H
    | H : handle_option _ _ _ = Ok _ |- _ => unfold handle_option in H
    | H : handle_error _ _ _ _ = Ok _ |- _ => unfold handle_error in H
    | H : handle_iferror _ _ _ = Ok _ |- _ => unfold handle_iferror in H
    end; inv_ok; simpl; repeat case_match; simpl; try done; try set_solver.
Qed.

Lemma feed_used_errors c tokens p p' :
  foldM (handle c) tokens p = Ok p' → used_errors p ⊆ used_errors p'.
Proof.
  revert p. induction tokens as [|tok tokens IH]; intros p; simpl.
  - by intros [= <-].
  - intros (p0 & Hp0 & H)%bind_Ok. apply handle_used_errors in Hp0.
    apply IH in H. set_solver.
Qed.
End used_errors_facts.

Section form_error_facts.
Import Py Htmlfill.

Lemma truthy_error_default (d : gmap key pyval) k :
  truthy (dict_get d k (VStr EmptyString)) = truthy (dict_get d k VNone).
Proof. unfold dict_get. by destruct (d !! k). Qed.

Lemma error_key_write_pos a pos p p0 :
  write_pos pos p = Ok p0 → error_key a p0 = error_key a p.
Proof. intros (new & b & ->)%write_pos_inv. done. Qed.

(** What [handle_error] does once the key is known. *)
Lemma handle_error_Some c pos a p k :
  error_key a p = Some k →
  handle_error c pos a p
  = (p ← (if truthy (dict_get (errors c) (Some k) (VStr EmptyString)) then
            match error_formatters c !! formatter_name a with
            | Some f => error ← f (dict_get (errors c) (Some k) (VStr EmptyString));
                        Ok (write_text error p)
            | None => Raise (KeyError (repr_str (formatter_name a)))
            end
          else Ok p);
     Ok (set_used_errors ({[ Some k ]} ∪ used_errors p) (set_skip_next true p))).
Proof. unfold handle_error. by intros ->. Qed.

Lemma handle_starttag_form_error c pos a startend p :
  handle_starttag c pos "form:error" a startend p
  = (p ← write_pos pos p; handle_error c pos a p).
Proof. done. Qed.
End form_error_facts.

(** C10: a [form:error] directive whose key resolves to [k] puts [k]
    in [used_errors], also when [errors] has nothing (or only a false
    value) for [k] and nothing is written.  The key stays in
    [used_errors] for the rest of the fill, so at [close] it is not among
    the unused errors: it is neither inserted automatically nor listed
    in the failure of strict mode. *)
Theorem form_error_key_stays_used
    (c : Htmlfill.config) (pos : nat * nat) (a : Htmlfill.attrs)
    (startend : bool) (p : Htmlfill.parser) (k : string) :
  Htmlfill.error_key a p = Some k →
  (Htmlfill.has_error c (Some k) = false →
   ∀ p0, Htmlfill.write_pos pos p = Py.Ok p0 →
     ∃ p', Htmlfill.handle_starttag c pos "form:error" a startend p = Py.Ok p'
           ∧ Htmlfill._content p' = Htmlfill._content p0
           ∧ Some k ∈ Htmlfill.used_errors p')
  ∧ (∀ p' tokens p'',
       Htmlfill.handle_starttag c pos "form:error" a startend p = Py.Ok p' →
       Py.foldM (Htmlfill.handle c) tokens p' = Py.Ok p'' →
       Some k ∈ Htmlfill.used_errors p'
       ∧ Some k ∈ Htmlfill.used_errors p''
       ∧ (Some k ∉ (map_to_list (Htmlfill.remove_used (Htmlfill.errors c)
                                   (Htmlfill.used_errors p''))).*1)
       ∧ ∀ q unused_errors,
           Htmlfill.auto_insert_errors c p'' = Py.Ok (q, unused_errors) →
           Some k ∉ (map_to_list unused_errors).*1).
Proof.
  intros Hk. split.
  - intros Hno p0 Hp0. rewrite handle_starttag_form_error, Hp0. simpl.
    rewrite (handle_error_Some _ _ _ _ k)
      by by rewrite (error_key_write_pos _ _ _ _ Hp0).
    rewrite truthy_error_default. unfold Htmlfill.has_error in Hno. rewrite Hno.
    simpl. eexists. split; [done|]. split; [done|]. simpl. set_solver.
  - intros p' tokens p'' Hp' Hp''.
    assert (Hin : Some k ∈ Htmlfill.used_errors p').
    { rewrite handle_starttag_form_error in Hp'.
      apply bind_Ok in Hp' as (p0 & Hp0 & Hp').
      rewrite (handle_error_Some _ _ _ _ k) in Hp'
        by by rewrite (error_key_write_pos _ _ _ _ Hp0).
      apply bind_Ok in Hp' as (p1 & _ & [= <-]). simpl. set_solver. }
    assert (Hin' : Some k ∈ Htmlfill.used_errors p'').
    { apply feed_used_errors in Hp''. set_solver. }
    split; [done|]. split; [done|]. split.
    + rewrite remove_used_keys. naive_solver.
    + intros q ue Hq. apply auto_insert_errors_Ok in Hq as [_ Hq].
      destruct (Htmlfill.auto_error_formatter c).
      * destruct Hq as [_ ->]. rewrite map_to_list_empty. apply not_elem_of_nil.
      * destruct Hq as [_ ->]. rewrite remove_used_keys. naive_solver.
Qed.

Section skip_facts.
Import Py Htmlfill.

(** With [skip_next] set, the next [write_pos] copies nothing. *)
Lemma write_pos_after_skip pos p :
  skip_next p = true →
  ∃ p', write_pos pos p = Ok p' ∧ _content p' = _content p.
Proof.
  intros Hsn. destruct (in_textarea p || skip_error p) eqn:Hs.
  - rewrite write_pos_suppressed by done. by eexists.
  - apply orb_false_elim in Hs as [H1 H2].
    rewrite write_pos_skip by done. by eexists.
Qed.
End skip_facts.

(** The start tag of a [form:error] directive whose key resolves to
    [k].  When [errors] has a true value for [k], the directive writes
    that value passed through the formatter its [format] attribute
    names, right after the source copied up to the directive; without a
    [format] attribute, or with an empty one, the formatter is
    [default], which wraps the HTML-escaped text in an error span.  When
    [errors] has no true value for [k] the directive writes nothing.  In
    both cases the next [write_pos] copies nothing, so the text of the
    start tag never reaches the output. *)
Theorem form_error_directive
    (c : Htmlfill.config) (pos : nat * nat) (a : Htmlfill.attrs)
    (startend : bool) (p p0 : Htmlfill.parser) (k : string) :
  Htmlfill.write_pos pos p = Py.Ok p0 →
  Htmlfill.error_key a p = Some k →
  let error := Htmlfill.dict_get (Htmlfill.errors c) (Some k) (Py.VStr EmptyString) in
  (Py.truthy error = true →
   ∀ f t, Htmlfill.error_formatters c !! Htmlfill.formatter_name a = Some f →
          f error = Py.Ok t →
          ∃ p', Htmlfill.handle_starttag c pos "form:error" a startend p = Py.Ok p'
                ∧ Htmlfill._content p'
                  = Htmlfill._content p0 ++ [Htmlfill.Text t]
                ∧ Htmlfill.skip_next p' = true)
  ∧ (Py.truthy error = false →
     ∃ p', Htmlfill.handle_starttag c pos "form:error" a startend p = Py.Ok p'
           ∧ Htmlfill._content p' = Htmlfill._content p0
           ∧ Htmlfill.skip_next p' = true)
  ∧ (∀ p' pos', Htmlfill.handle_starttag c pos "form:error" a startend p = Py.Ok p' →
       ∃ p'', Htmlfill.write_pos pos' p' = Py.Ok p''
              ∧ Htmlfill._content p'' = Htmlfill._content p')
  ∧ (Htmlfill.get_attr a "format" None = None →
     Htmlfill.formatter_name a = "default")
  ∧ (∀ f, Htmlfill.get_attr a "format" None = Some f →
          Htmlfill.formatter_name a = if String.eqb f EmptyString then "default" else f)
  ∧ Htmlfill.builtin_formatters !! "default" = Some Htmlfill.default_formatter
  ∧ (∀ s, Htmlfill.default_formatter (Py.VStr s)
          = Py.Ok (Py.VStr ("<span class=" +:+ Py.DQ +:+ "error-message" +:+ Py.DQ
                            +:+ ">" +:+ Htmlfill.cgi_escape s true
                            +:+ "</span><br />" +:+ Py.NL))).
Proof.
  intros Hp0 Hk error.
  assert (Hrun : Htmlfill.handle_starttag c pos "form:error" a startend p
    = (p ← (if Py.truthy error then
              match Htmlfill.error_formatters c !! Htmlfill.formatter_name a with
              | Some f => e ← f error; Py.Ok (Htmlfill.write_text e p0)
              | None => Py.Raise (Py.KeyError
                                    (Py.repr_str (Htmlfill.formatter_name a)))
              end
            else Py.Ok p0);
       Py.Ok (Htmlfill.set_used_errors ({[ Some k ]} ∪ Htmlfill.used_errors p)
                (Htmlfill.set_skip_next true p)))).
  { rewrite handle_starttag_form_error, Hp0. simpl.
    by rewrite (handle_error_Some _ _ _ _ k)
      by by rewrite (error_key_write_pos _ _ _ _ Hp0). }
  split; [|split; [|split; [|split; [|split; [|split]]]]].
  - intros Ht f t Hf Hft. rewrite Hrun, Ht, Hf, Hft. simpl. by eexists.
  - intros Ht. rewrite Hrun, Ht. simpl. by eexists.
  - intros p' pos' Hp'. apply write_pos_after_skip.
    rewrite Hrun in Hp'. by apply bind_Ok in Hp' as (p1 & _ & [= <-]).
  - unfold Htmlfill.formatter_name. by intros ->.
  - unfold Htmlfill.formatter_name. by intros f ->.
  - done.
  - done.
Qed.

(** C7: a [form:error] directive written with an end tag leaves that
    end tag in the output.  [handle_endtag] has a case for the end tag
    of [form:iferror], which it keeps out of the output, and none for
    that of [form:error], which it treats as any other end tag: the
    next token copies it.  So the document made of the start tag of
    [form:error] for [k], its end tag, [X] and a last tag, filled with
    the error [bad] for [k], gives the error span followed by the end
    tag and [X], where the same document around [form:iferror] gives
    only what the block holds.  Written as one empty-element tag the
    directive leaves nothing of itself: the output holds the error
    passed through the formatter that [format] names, [default]
    escaping the text, and holds nothing for it when there is no
    error. *)
Theorem form_error_end_tag_copied :
  Htmlfill.fill Examples.error_c Examples.doc_error_pair
    Examples.tokens_error_pair
  = Py.Ok (Examples.error_span "bad" +:+ "</form:error>X")
  ∧ Htmlfill.fill Examples.error_c Examples.doc_iferror_pair
      Examples.tokens_iferror_pair
    = Py.Ok "YX"
  ∧ (∀ pos p, Htmlfill.handle_endtag pos "form:error" p
              = Htmlfill.write_pos pos p)
  ∧ (∀ pos p, Htmlfill.handle_endtag pos "form:iferror" p
              = (p ← Htmlfill.write_pos pos p;
                 Py.Ok (Htmlfill.handle_end_iferror p)))
  ∧ Htmlfill.fill Examples.error_c Examples.doc_error_single
      Examples.tokens_error_single
    = Py.Ok (Examples.error_span "bad" +:+ "X")
  ∧ Htmlfill.fill Examples.plain Examples.doc_error_single
      Examples.tokens_error_single
    = Py.Ok "X"
  ∧ Htmlfill.fill Examples.markup_c Examples.doc_error_single
      Examples.tokens_error_single
    = Py.Ok (Examples.error_span "&lt;b&gt;&amp;&quot;" +:+ "X")
  ∧ Htmlfill.fill Examples.markup_c Examples.doc_error_none
      Examples.tokens_error_none
    = Py.Ok (Examples.markup +:+ "X").
Proof.
  split_and!; try (vm_compute; reflexivity).
  intros pos p. unfold Htmlfill.handle_endtag.
  by destruct (Htmlfill.write_pos pos p).
Qed.

(** ** Attribute lists *)

Section attr_facts.
Import Py Htmlfill.
Context {V : Type}.
Implicit Types (a : list (string * V)) (name : string).

Lemma get_attr_set_attr a name value dflt :
  str_lower name = name →
  get_attr (set_attr a name value) name dflt = value.
Proof.
  intros Hlow. induction a as [|[n v] a IH]; simpl.
  - by rewrite Hlow, String.eqb_refl.
  - destruct (String.eqb (str_lower n) name) eqn:E; simpl.
    + by rewrite Hlow, String.eqb_refl.
    + by rewrite E.
Qed.



(** [del_attr] removes the first attribute with the name, and only
    that one. *)
Lemma count_del_attr a name :
  count_attr (del_attr a name) name = count_attr a name - 1.
Proof.
  unfold count_attr. induction a as [|[n v] a IH]; simpl; [done|].
  destruct (String.eqb_spec (str_lower n) name) as [E|E]; simpl.
  - lia.
  - destruct (String.eqb_spec (str_lower n) name); [done|]. apply IH.
Qed.

End attr_facts.

Section input_facts.
Import Py Htmlfill.

Lemma get_attr_absent {V} (a : list (string * V)) name dflt :
  count_attr a name = 0 → get_attr a name dflt = dflt.
Proof.
  unfold count_attr. induction a as [|[n v] a IH]; simpl; [done|].
  destruct (String.eqb (str_lower n) name); simpl; [done|auto].
Qed.

Lemma handle_input_prepared c pos a startend p a1 :
  prepare_attrs c (get_attr a "name" None) a = Ok a1 →
  handle_input c pos a startend p
  = (let t := input_type a in
     let name := get_attr a "name" None in
     let p := write_marker name p in
     let value := dict_get (defaults c) name VNone in
     let a := a1 in
     if String.eqb t "text" || String.eqb t "hidden" then
       let value := match value with
                    | VNone => of_attr (get_attr a "value" (Some EmptyString))
                    | _ => value
                    end in
       p ← write_tag "input" (set_attr (as_objects a) "value" value) startend p;
       Ok (add_key name (set_skip_next true p))
     else if String.eqb t "checkbox" then
       checked ← checkbox_checked value (get_attr a "value" None);
       let a := if checked : bool then set_attr a "checked" (Some "checked")
                else del_attr a "checked" in
       p ← write_tag "input" (as_objects a) startend p;
       Ok (add_key name (set_skip_next true p))
     else if String.eqb t "radio" then
       s ← py_str value;
       let a := if bool_decide (Some s = get_attr a "value" None)
                then set_attr a "checked" (Some "checked")
                else del_attr a "checked" in
       p ← write_tag "input" (as_objects a) startend p;
       Ok (add_key name (set_skip_next true p))
     else if String.eqb t "file" then Ok p
     else if String.eqb t "password" then
       let v := py_or value (of_attr (get_attr a "value" (Some EmptyString))) in
       p ← write_tag "input" (set_attr (as_objects a) "value" v) startend p;
       Ok (add_key name (set_skip_next true p))
     else if String.eqb t "image" then
       let v := py_or value (of_attr (get_attr a "src" (Some EmptyString))) in
       p ← write_tag "input" (set_attr (as_objects a) "src" v) startend p;
       Ok (add_key name (set_skip_next true p))
     else if String.eqb t "submit" || String.eqb t "reset"
             || String.eqb t "button" then
       let v := py_or value (of_attr (get_attr a "value" (Some EmptyString))) in
       p ← write_tag "input" (set_attr (as_objects a) "value" v) startend p;
       Ok (add_key name (set_skip_next true p))
     else
       Raise (AssertionError ("I don't know about this kind of <input>: " +:+ t
                              +:+ " (pos: " +:+ str_pos pos +:+ ")"))).
Proof. unfold handle_input. by intros ->. Qed.
End input_facts.

(** C8, as the code has it: for an input of type password, submit,
    reset or button the emitted tag's [value] attribute (for image, its
    [src]) is the default for the tag's name when that default is true
    in a condition, and otherwise the attribute the tag already has, or
    the empty string when the tag has none. *)
Theorem button_like_input_value
    (c : Htmlfill.config) (pos : nat * nat) (a a1 : Htmlfill.attrs)
    (startend : bool) (p : Htmlfill.parser) :
  let t := Htmlfill.input_type a in
  let name := Htmlfill.get_attr a "name" None in
  let attr := if String.eqb t "image" then "src" else "value" in
  let dflt := Htmlfill.dict_get (Htmlfill.defaults c) name Py.VNone in
  let existing := Htmlfill.of_attr (Htmlfill.get_attr a1 attr (Some EmptyString)) in
  let v := if Py.truthy dflt then dflt else existing in
  t ∈ ["password"; "submit"; "reset"; "button"; "image"] →
  Htmlfill.prepare_attrs c name a = Py.Ok a1 →
  Htmlfill.handle_input c pos a startend p
  = (p ← Htmlfill.write_tag "input"
           (Htmlfill.set_attr (Htmlfill.as_objects a1) attr v) startend
           (Htmlfill.write_marker name p);
     Py.Ok (Htmlfill.add_key name (Htmlfill.set_skip_next true p)))
  ∧ Htmlfill.get_attr (Htmlfill.set_attr (Htmlfill.as_objects a1) attr v)
      attr Py.VNone = v
  ∧ (Htmlfill.count_attr a1 attr = 0 → existing = Py.VStr EmptyString).
Proof.
  intros t name attr dflt existing v Ht Hprep.
  split; [|split].
  - rewrite (handle_input_prepared _ _ _ _ _ _ Hprep). fold t. cbv zeta.
    subst v existing attr. fold name. fold dflt.
    repeat (apply elem_of_cons in Ht as [->|Ht]); [done..|].
    by apply elem_of_nil in Ht.
  - apply get_attr_set_attr. subst attr. by destruct (String.eqb t "image").
  - intros H0. subst existing. by rewrite get_attr_absent.
Qed.

Section checkbox_facts.
Import Py Htmlfill.

End checkbox_facts.


(** ** Escaping *)

Section escape_facts.
Import Py Htmlfill.

Lemma replace_char_app c r s t :
  replace_char c r (s +:+ t) = replace_char c r s +:+ replace_char c r t.
Proof.
  induction s as [|a s IH]; [done|]. rewrite str_app_cons.
  cbn [replace_char]. rewrite IH. destruct (Ascii.eqb a c); [|done].
  by rewrite str_app_assoc.
Qed.

Lemma replace_char_cons c r a s :
  replace_char c r (String a s)
  = replace_char c r (String a EmptyString) +:+ replace_char c r s.
Proof. by rewrite <-replace_char_app. Qed.

(** The four replacements of [cgi.escape] amount to escaping each
    character on its own. *)
Lemma cgi_escape_chars s : cgi_escape s true = escape_chars s.
Proof.
  unfold cgi_escape. induction s as [|a s IH]; [done|].
  cbn [escape_chars]. rewrite <-IH. clear IH.
  rewrite (replace_char_cons "&"), !replace_char_app. f_equal.
  unfold escape_char. cbn [replace_char].
  destruct (Ascii.eqb a "&") eqn:E1; [done|]. cbn [replace_char].
  destruct (Ascii.eqb a "<") eqn:E2; [done|]. cbn [replace_char].
  destruct (Ascii.eqb a ">") eqn:E3; [done|]. cbn [replace_char].
  by destruct (Ascii.eqb a dquote) eqn:E4.
Qed.

Lemma unescape_amp r :
  unescape_from 0 ("&amp;" +:+ r) = String "&" (unescape_from 0 r).
Proof. by destruct r. Qed.

Lemma unescape_lt r :
  unescape_from 0 ("&lt;" +:+ r) = String "<" (unescape_from 0 r).
Proof. by destruct r. Qed.

Lemma unescape_gt r :
  unescape_from 0 ("&gt;" +:+ r) = String ">" (unescape_from 0 r).
Proof. by destruct r. Qed.

Lemma unescape_quot r :
  unescape_from 0 ("&quot;" +:+ r) = String dquote (unescape_from 0 r).
Proof. by destruct r. Qed.

Lemma unescape_other a r :
  a ≠ "&"%char →
  unescape_from 0 (String a EmptyString +:+ r) = String a (unescape_from 0 r).
Proof.
  intros E%Ascii.eqb_neq.
  change (unescape_from 0 (String a EmptyString +:+ r))
    with (if Ascii.eqb a "&" then
            if String.prefix "amp;" r then String "&" (unescape_from 4 r)
            else if String.prefix "lt;" r then String "<" (unescape_from 3 r)
            else if String.prefix "gt;" r then String ">" (unescape_from 3 r)
            else if String.prefix "quot;" r
                 then String dquote (unescape_from 5 r)
            else String a (unescape_from 0 r)
          else String a (unescape_from 0 r)).
  by rewrite E.
Qed.

Lemma unescape_escape_chars s : html_unescape (escape_chars s) = s.
Proof.
  unfold html_unescape. induction s as [|a s IH]; [done|].
  cbn [escape_chars]. unfold escape_char.
  destruct (Ascii.eqb_spec a "&") as [->|E1]; [by rewrite unescape_amp, IH|].
  destruct (Ascii.eqb_spec a "<") as [->|E2]; [by rewrite unescape_lt, IH|].
  destruct (Ascii.eqb_spec a ">") as [->|E3]; [by rewrite unescape_gt, IH|].
  destruct (Ascii.eqb_spec a dquote) as [->|E4]; [by rewrite unescape_quot, IH|].
  by rewrite unescape_other, IH.
Qed.

(** Unescaping what [cgi.escape] produced gives the text back. *)
Lemma unescape_cgi_escape s : html_unescape (cgi_escape s true) = s.
Proof. by rewrite cgi_escape_chars, unescape_escape_chars. Qed.
End escape_facts.

(** ** Runs of events that are passed through *)

Section passthrough_facts.
Import Py Htmlfill.

Lemma bind_Ok_r {A} (m : result A) : (m ≫= λ x, Ok x) = m.
Proof. by destruct m. Qed.

Lemma control_tag_false tag :
  control_tag tag = false →
  String.eqb tag "input" = false ∧ String.eqb tag "textarea" = false
  ∧ String.eqb tag "select" = false ∧ String.eqb tag "option" = false
  ∧ String.eqb tag "form:error" = false
  ∧ String.eqb tag "form:iferror" = false.
Proof.
  unfold control_tag. intros H%bool_decide_eq_false.
  repeat split; apply String.eqb_neq; intros ->; apply H;
    repeat ((by left) || right).
Qed.

(** Such an event only moves the cursor. *)
Lemma handle_passthrough c tok p :
  passthrough tok.2 = true → handle c tok p = write_pos tok.1 p.
Proof.
  destruct tok as [pos [tag a|tag a|tag|]]; simpl; [..|done];
    intros H%negb_true_iff%control_tag_false;
    destruct H as (H1 & H2 & H3 & H4 & H5 & H6).
  - unfold handle, handle_starttag. simpl.
    rewrite H1, H2, H3, H4, H5, H6. apply bind_Ok_r.
  - unfold handle, handle_startendtag, handle_starttag. simpl.
    rewrite H1, H2, H3, H4, H5, H6. apply bind_Ok_r.
  - unfold handle, handle_endtag. simpl. rewrite H2, H3, H6. apply bind_Ok_r.
Qed.

Lemma pos_le_refl a : pos_le a a.
Proof. right. done. Qed.

Lemma pos_le_trans a b c : pos_le a b → pos_le b c → pos_le a c.
Proof. unfold pos_le. lia. Qed.

Lemma offset_take_mono (ls : list string) i j l :
  i < j → ls !! i = Some l →
  foldr (λ l acc, S (String.length l) + acc) 0 (take i ls)
  + S (String.length l)
  ≤ foldr (λ l acc, S (String.length l) + acc) 0 (take j ls).
Proof.
  intros Hij Hl. destruct (split_at _ _ _ Hl) as (pre & post & -> & <-).
  rewrite take_app_length.
  rewrite (take_app_ge pre) by lia.
  replace (j - List.length pre) with (S (j - S (List.length pre))) by lia.
  rewrite firstn_cons, <-!flat_length, flat_app, flat_cons.
  rewrite !str_length_app. change (String.length NL) with 1. lia.
Qed.

Lemma offset_mono ls a b :
  valid_pos ls a → valid_pos ls b → pos_le a b → offset ls a ≤ offset ls b.
Proof.
  intros (i & l1 & Hi & Hl1 & Hc1) (j & l2 & Hj & Hl2 & Hc2) Hle.
  unfold offset. rewrite Hi, Hj.
  replace (S i - 1) with i by lia. replace (S j - 1) with j by lia.
  destruct Hle as [Hlt|[Heq Hle]].
  - pose proof (offset_take_mono ls i j l1 ltac:(lia) Hl1). lia.
  - assert (i = j) as -> by lia. lia.
Qed.

(** Spans over adjacent stretches of the source add up. *)
Lemma span_app ls a b c :
  valid_pos ls a → valid_pos ls b → valid_pos ls c →
  pos_le a b → pos_le b c →
  span ls a b +:+ span ls b c = span ls a c.
Proof.
  intros Ha Hb Hc Hab Hbc. unfold span.
  apply str_slice_app; by apply offset_mono.
Qed.

Lemma span_same ls a : span ls a a = EmptyString.
Proof. apply str_slice_same. Qed.

Lemma last_pos_cons a tok rest : last_pos a (tok :: rest) = last_pos tok.1 rest.
Proof.
  unfold last_pos. destruct rest as [|tok' rest]; [done|].
  rewrite last_cons_cons.
  destruct (last (tok' :: rest)) eqn:E; [done|]. by apply last_None in E.
Qed.

Lemma in_order_last ls a tokens :
  valid_pos ls a → in_order ls a tokens →
  valid_pos ls (last_pos a tokens) ∧ pos_le a (last_pos a tokens).
Proof.
  revert a. induction tokens as [|tok rest IH]; intros a Ha.
  - intros _. split; [done|apply pos_le_refl].
  - intros (Hv & Hle & Hrest). rewrite last_pos_cons.
    destruct (IH _ Hv Hrest) as [Hv' Hle']. split; [done|].
    by eapply pos_le_trans.
Qed.

(** A run of passed-through events, with nothing suppressing the copy,
    appends exactly the source text between the cursor and the last
    event of the run. *)
Lemma copy_run c tokens : ∀ p,
  copying p → valid_pos (lines p) (source_pos p) →
  Forall (λ tok : token, passthrough tok.2 = true) tokens →
  in_order (lines p) (source_pos p) tokens →
  ∃ new,
    foldM (handle c) tokens p
    = Ok (set_source_pos (last_pos (source_pos p) tokens)
            (set_content (_content p ++ new) p))
    ∧ join_text new
      = Ok (span (lines p) (source_pos p) (last_pos (source_pos p) tokens)).
Proof.
  induction tokens as [|tok rest IH]; intros p Hcopy Hvalid Hpass Hord.
  - exists []. split.
    + simpl. unfold last_pos. simpl. rewrite app_nil_r. by destruct p.
    + simpl. by rewrite span_same.
  - apply Forall_cons in Hpass as [Hp1 Hpass].
    destruct Hord as (Hv & Hle & Hord).
    destruct (write_pos_copy tok.1 p Hcopy Hvalid Hv Hle) as (new1 & Hw & Hj1).
    cbn [foldM]. rewrite handle_passthrough, Hw by done. simpl mbind.
    destruct (IH (set_source_pos tok.1 (set_content (_content p ++ new1) p)))
      as (new2 & Hrun & Hj2); try done.
    rewrite Hrun. simpl in *. exists (new1 ++ new2). split.
    + rewrite last_pos_cons. unfold set_source_pos, set_content. simpl.
      by rewrite app_assoc.
    + rewrite (join_text_app _ _ _ _ Hj1 Hj2), last_pos_cons. f_equal.
      destruct (in_order_last _ _ _ Hv Hord) as [Hvl Hlel].
      by apply span_app.
Qed.

(** The same run while [write_pos] is suppressed writes nothing. *)
Lemma suppressed_run c tokens : ∀ p,
  in_textarea p || skip_error p = true →
  Forall (λ tok : token, passthrough tok.2 = true) tokens →
  foldM (handle c) tokens p
  = Ok (set_source_pos (last_pos (source_pos p) tokens) p).
Proof.
  induction tokens as [|tok rest IH]; intros p Hs Hpass.
  - simpl. unfold last_pos. simpl. by destruct p.
  - apply Forall_cons in Hpass as [Hp1 Hpass].
    cbn [foldM]. rewrite handle_passthrough, write_pos_suppressed by done.
    simpl mbind. rewrite IH by done. by rewrite last_pos_cons.
Qed.
End passthrough_facts.

(** ** Documents without intercepted tags *)

Section passthrough_fill.
Import Py Htmlfill.

Lemma valid_pos_start data : valid_pos (split_lines data) (1, 0).
Proof.
  pose proof (split_lines_nonempty data) as Hne.
  destruct (split_lines data) as [|l ls]; [done|].
  exists 0, l. repeat split. simpl. lia.
Qed.

(** After [feed], a document whose events are all passed through has
    been copied up to the position of its last event, and no further. *)
Lemma passthrough_feed c data tokens :
  Forall (λ tok : token, passthrough tok.2 = true) tokens →
  in_order (split_lines data) (1, 0) tokens →
  ∃ p, feed c data tokens new_parser = Ok p
       ∧ join_text (_content p)
         = Ok (str_take (offset (split_lines data) (last_pos (1, 0) tokens))
                 data)
       ∧ used_keys p = ∅ ∧ used_errors p = ∅.
Proof.
  intros Hpass Hord. unfold feed.
  destruct (copy_run c tokens
              (set_source_pos (1, 0) (set_lines (split_lines data) new_parser)))
    as (new & Hrun & Hjoin); try done.
  { apply valid_pos_start. }
  rewrite Hrun. eexists. split; [done|]. simpl in *. split; [|done].
  rewrite Hjoin. unfold span, source_of. rewrite join_split_lines.
  by rewrite str_slice_from_0.
Qed.

Lemma close_plain c p :
  errors c = ∅ → use_all_keys c = false → auto_error_formatter c = None →
  close c p = (text ← join_text (_content p); Ok (p, text)).
Proof.
  intros He Hs Hf. unfold close, auto_insert_errors. rewrite He, Hs, Hf.
  assert (remove_used (∅ : gmap key pyval) (used_errors p) = ∅) as ->.
  { apply map_eq. intros k. rewrite remove_used_lookup, lookup_empty.
    by destruct (bool_decide _). }
  done.
Qed.

(** The output of a fill of such a document is the document cut at
    the position of its last event. *)
Lemma passthrough_fill c data tokens :
  errors c = ∅ → use_all_keys c = false → auto_error_formatter c = None →
  Forall (λ tok : token, passthrough tok.2 = true) tokens →
  in_order (split_lines data) (1, 0) tokens →
  fill c data tokens
  = Ok (str_take (offset (split_lines data) (last_pos (1, 0) tokens)) data).
Proof.
  intros He Hs Hf Hpass Hord.
  destruct (passthrough_feed c data tokens Hpass Hord) as (p & Hp & Hj & _).
  unfold fill. rewrite Hp. simpl. rewrite close_plain by done.
  by rewrite Hj.
Qed.
Lemma str_length_take n s :
  String.length (str_take n s) = min n (String.length s).
Proof.
  revert n. induction s as [|a s IH]; intros [|n]; simpl; try done.
  by rewrite IH.
Qed.

(** So whenever the last event starts before the end of the document,
    which is the case when the last token is not empty, the output is
    not the document. *)
Lemma passthrough_fill_truncates c data tokens :
  errors c = ∅ → use_all_keys c = false → auto_error_formatter c = None →
  Forall (λ tok : token, passthrough tok.2 = true) tokens →
  in_order (split_lines data) (1, 0) tokens →
  offset (split_lines data) (last_pos (1, 0) tokens) < String.length data →
  fill c data tokens ≠ Ok data.
Proof.
  intros He Hs Hf Hpass Hord Hlt. rewrite passthrough_fill by done.
  intros [= Heq]. apply (f_equal String.length) in Heq.
  rewrite str_length_take in Heq. lia.
Qed.
End passthrough_fill.

(** C1 at a document without intercepted tags: the three tokens of
    [<p>Hi</p>] are copied up to the start of the last one, and the
    closing tag itself never reaches the output. *)
Theorem passthrough_loses_last_token :
  Htmlfill.fill Examples.plain Examples.doc_p Examples.tokens_p = Py.Ok "<p>Hi"
  ∧ Htmlfill.fill Examples.plain Examples.doc_p Examples.tokens_p
    ≠ Py.Ok Examples.doc_p.
Proof. split; [by vm_compute|]. by vm_compute. Qed.

(** ** Elements whose body is taken over *)

Section block_facts.
Import Py Htmlfill.

Lemma foldM_app {A S} (f : A → S → result S) l1 l2 s :
  foldM f (l1 ++ l2) s = (foldM f l1 s ≫= foldM f l2).
Proof.
  revert s. induction l1 as [|x l1 IH]; intros s; simpl; [done|].
  destruct (f x s); simpl; [apply IH|done].
Qed.

Lemma in_order_app ls a l1 l2 :
  in_order ls a (l1 ++ l2) ↔ in_order ls a l1 ∧ in_order ls (last_pos a l1) l2.
Proof.
  revert a. induction l1 as [|tok l1 IH]; intros a.
  - simpl. unfold last_pos. simpl. tauto.
  - rewrite last_pos_cons. simpl. rewrite IH. tauto.
Qed.

Lemma handle_endtag_textarea c pos p :
  handle c (pos, Endtag "textarea") p
  = (p ← write_pos pos p; Ok (handle_end_textarea p)).
Proof. done. Qed.


Lemma handle_starttag_textarea c pos a startend p :
  handle_starttag c pos "textarea" a startend p
  = (p ← write_pos pos p; handle_textarea c a p).
Proof. done. Qed.


(** A body of passed-through events followed by the closing tag,
    while [in_textarea] is set: nothing is written, and the closing
    tag's own text is skipped. *)
Lemma textarea_body c body pos_end p :
  in_textarea p = true →
  Forall (λ tok : token, passthrough tok.2 = true) body →
  ∃ p', foldM (handle c) (body ++ [(pos_end, Endtag "textarea")]) p = Ok p'
        ∧ _content p' = _content p ∧ in_textarea p' = false
        ∧ skip_next p' = true.
Proof.
  intros Hta Hpass. rewrite foldM_app.
  rewrite suppressed_run; [|by rewrite Hta|done].
  simpl. rewrite bind_Ok_r, handle_endtag_textarea.
  rewrite write_pos_suppressed by (simpl; by rewrite Hta).
  simpl. eexists. by split.
Qed.
End block_facts.

(** C5, as the code has it: a textarea tag writes a marker, the rewritten
    open tag, the default for its name HTML-escaped (the HTML form as it
    is for an [htmlliteral]) and the literal closing tag.  Until the
    closing tag of the source nothing of the source is copied, so a body
    without intercepted tags leaves no trace, and the closing tag of the
    source is skipped too.  For a string default the escaping replaces
    each of the four special characters by its entity, and unescaping the
    written text gives the default back. *)
Theorem textarea_filled
    (c : Htmlfill.config) (pos : nat * nat) (a a1 : Htmlfill.attrs)
    (startend : bool) (p p0 : Htmlfill.parser) (tag q : string) :
  let name := Htmlfill.get_attr a "name" None in
  let value := Htmlfill.dict_get (Htmlfill.defaults c) name (Py.VStr EmptyString) in
  Htmlfill.write_pos pos p = Py.Ok p0 →
  Htmlfill.mark_error c name a = Py.Ok a1 →
  Htmlfill.tag_text "textarea" (Htmlfill.as_objects a1) false = Py.Ok tag →
  Htmlfill.html_quote value = Py.Ok q →
  (∃ p', Htmlfill.handle_starttag c pos "textarea" a startend p = Py.Ok p'
         ∧ Htmlfill._content p'
           = Htmlfill._content p0
             ++ [Htmlfill.Marker name; Htmlfill.Text (Py.VStr tag);
                 Htmlfill.Text (Py.VStr q);
                 Htmlfill.Text (Py.VStr "</textarea>")]
         ∧ ∀ body pos_end,
             Forall (λ tok : Htmlfill.token, Htmlfill.passthrough tok.2 = true) body →
             ∃ p'', Py.foldM (Htmlfill.handle c)
                      (body ++ [(pos_end, Htmlfill.Endtag "textarea")]) p'
                    = Py.Ok p''
                    ∧ Htmlfill._content p'' = Htmlfill._content p'
                    ∧ Htmlfill.in_textarea p'' = false
                    ∧ ∀ pos', ∃ p3, Htmlfill.write_pos pos' p'' = Py.Ok p3
                                    ∧ Htmlfill._content p3 = Htmlfill._content p'')
  ∧ (∀ s, value = Py.VStr s →
          q = Htmlfill.escape_chars s ∧ Htmlfill.html_unescape q = s)
  ∧ (∀ html text, value = Py.VHtml html text → q = html).
Proof.
  intros name value Hp0 Hmark Htag Hq. split; [|split].
  - rewrite handle_starttag_textarea, Hp0. simpl. unfold Htmlfill.handle_textarea.
    fold name. rewrite Hmark. simpl. unfold Htmlfill.write_tag. rewrite Htag.
    simpl. fold value. rewrite Hq. simpl. eexists. split; [done|]. split.
    { simpl. by rewrite <-!app_assoc. }
    intros body pos_end Hbody.
    match goal with
    | |- ∃ _, Py.foldM _ _ ?st = _ ∧ _ =>
        destruct (textarea_body c body pos_end st) as (p'' & Hrun & Hc & Hta & Hsn);
          [done|done|]
    end.
    exists p''. split; [done|]. split; [done|]. split; [done|].
    intros pos'. by apply write_pos_after_skip.
  - intros s Hs. rewrite Hs in Hq. simpl in Hq. injection Hq as <-.
    split; [apply cgi_escape_chars|apply unescape_cgi_escape].
  - intros html text Hv. rewrite Hv in Hq. by injection Hq as <-.
Qed.

Section iferror_facts.
Import Py Htmlfill.



End iferror_facts.


(** ** The cursor *)

Section cursor_facts.
Import Py Htmlfill.

Lemma write_lines_cases count : ∀ from p,
  (∃ new, write_lines from count p = Ok (set_content (_content p ++ new) p))
  ∨ write_lines from count p = Raise (IndexError "list index out of range").
Proof.
  induction count as [|count IH]; intros from p.
  - left. exists []. rewrite app_nil_r. by destruct p.
  - rewrite write_lines_S. unfold line_at.
    destruct (match from with 0 => last (lines p) | S i => lines p !! i end);
      [|by right].
    simpl. destruct (IH (S from) (write_text (VStr NL) (write_text (VStr s) p)))
      as [[new ->]| ->]; [left|by right].
    exists (Text (VStr s) :: Text (VStr NL) :: new).
    unfold set_content. simpl. by rewrite <-!app_assoc.
Qed.

(** What a successful [write_pos] does to each field. *)
Lemma write_pos_effect pos p p' :
  write_pos pos p = Ok p' →
  source_pos p' = pos
  ∧ skip_next p' = skip_next p && (in_textarea p || skip_error p)
  ∧ (∃ new, _content p' = _content p ++ new
            ∧ (in_textarea p || skip_error p || skip_next p = true → new = []))
  ∧ lines p' = lines p ∧ in_textarea p' = in_textarea p
  ∧ in_select p' = in_select p ∧ in_error p' = in_error p
  ∧ skip_error p' = skip_error p ∧ used_keys p' = used_keys p
  ∧ used_errors p' = used_errors p.
Proof.
  intros H. destruct (in_textarea p || skip_error p) eqn:Hs.
  { rewrite write_pos_suppressed in H by done. injection H as <-. simpl.
    rewrite andb_true_r. split_and!; try done. exists []. by rewrite app_nil_r. }
  apply orb_false_iff in Hs as [Hta Hse].
  destruct (skip_next p) eqn:Hsn.
  { rewrite write_pos_skip in H by done. injection H as <-. simpl.
    split_and!; try done. exists []. by rewrite app_nil_r. }
  apply write_pos_inv in H as Hinv. destruct Hinv as (new & b & ->). simpl.
  split_and!; try done; [|by exists new].
  revert H. unfold write_pos. destruct pos as [cl co]. rewrite Hta, Hse, Hsn. simpl.
  intros (p0 & Hp0 & Heq)%bind_Ok.
  assert (skip_next p0 = false) as Hp0sn.
  { destruct (cl =? (source_pos p).1).
    - apply bind_Ok in Hp0 as (l & _ & [= <-]). done.
    - apply bind_Ok in Hp0 as (l & _ & Hp0). simpl in Hp0.
      apply bind_Ok in Hp0 as (p1 & Hp1 & Hp0).
      apply bind_Ok in Hp0 as (l' & _ & [= <-]).
      apply write_lines_inv in Hp1 as [new' ->]. done. }
  apply (f_equal (λ r, match r with Ok q => skip_next q | Raise _ => false end))
    in Heq.
  simpl in Heq. congruence.
Qed.

(** X1: a successful [write_pos] always leaves the cursor at the
    event's position, whether it copied or not.  It clears [skip_next],
    except while output is suppressed (inside a textarea or a skipped
    iferror block), where the flag is kept.  It only appends to the
    buffer, and appends nothing when suppressed or skipping.  Every
    other field is left as it was. *)
Theorem write_pos_moves_cursor (pos : nat * nat) (p p' : parser) :
  write_pos pos p = Ok p' →
  source_pos p' = pos
  ∧ skip_next p' = skip_next p && (in_textarea p || skip_error p)
  ∧ (∃ new, _content p' = _content p ++ new
            ∧ (in_textarea p || skip_error p || skip_next p = true → new = []))
  ∧ lines p' = lines p ∧ in_textarea p' = in_textarea p
  ∧ in_select p' = in_select p ∧ in_error p' = in_error p
  ∧ skip_error p' = skip_error p ∧ used_keys p' = used_keys p
  ∧ used_errors p' = used_errors p.
Proof. apply write_pos_effect. Qed.

(** X2: while copying, with the cursor on a line of the document,
    [write_pos] succeeds for an event on any line of the document,
    whatever the two columns are, and raises [IndexError] for an event
    on a line past the last one. *)
Theorem write_pos_line_bounds (pos : nat * nat) (p : parser) :
  copying p →
  1 ≤ (source_pos p).1 ≤ List.length (lines p) →
  1 ≤ pos.1 →
  (pos.1 ≤ List.length (lines p) → is_ok (write_pos pos p) = true)
  ∧ (List.length (lines p) < pos.1 →
     write_pos pos p = Raise (IndexError "list index out of range")).
Proof.
  intros (Hta & Hse & Hsn) [Hs1 Hs2] Hp1.
  destruct pos as [cl co]. simpl in *.
  destruct (source_pos p) as [sl sc] eqn:Hsp. simpl in *.
  destruct sl as [|si]; [lia|]. destruct cl as [|ci]; [lia|].
  destruct (lookup_lt_is_Some_2 (lines p) si) as [l Hl]; [lia|].
  unfold write_pos. rewrite Hta, Hse, Hsn. simpl.
  rewrite (line_at_S _ _ _ Hl). split.
  - intros Hc. destruct (lookup_lt_is_Some_2 (lines p) ci) as [l' Hl']; [lia|].
    destruct (ci =? si) eqn:Heq.
    + by rewrite (line_at_S _ _ _ Hl').
    + simpl.
      destruct (write_lines_copy (ci - S si)
                  (write_text (VStr NL) (write_text (VStr (str_drop sc l)) p)) (S si))
        as (new & -> & _).
      { intros k Hk. simpl. apply lookup_lt_is_Some_2. lia. }
      simpl. by rewrite (line_at_S _ _ _ Hl').
  - intros Hc. assert ((ci =? si) = false) as -> by (apply Nat.eqb_neq; lia).
    simpl.
    destruct (write_lines_cases (ci - S si) (S (S si))
                (write_text (VStr NL) (write_text (VStr (str_drop sc l)) p)))
      as [[new ->]| ->]; [|done].
    simpl. unfold line_at. by rewrite (lookup_ge_None_2 (lines p) ci) by lia.
Qed.
End cursor_facts.

(** ** What a feed accumulates *)

Section accumulation_facts.
Import Py Htmlfill.

Ltac inv_handler :=
  repeat match goal with
  | H : Raise _ = Ok _ |- _ => discriminate H
  | H : Ok _ = Ok _ |- _ => injection H as <-
  | H : write_tag _ _ _ _ = Ok _ |- _ => apply write_tag_inv in H as (? & _ & ->)
  | H : write_pos _ _ = Ok _ |- _ => apply write_pos_inv in H as (? & ? & ->)
  | H : (_ ≫= _) = Ok _ |- _ => apply bind_Ok in H as (? & ? & H)
  | H : (if ?b then _ else _) = Ok _ |- _ => destruct b eqn:?
  | H : match ?x with _ => _ end = Ok _ |- _ => destruct x eqn:?
  end.

Ltac unfold_handlers H :=
  unfold handle, handle_startendtag, handle_starttag, handle_endtag, handle_misc,
    handle_input, handle_textarea, handle_select, handle_option, handle_error,
    handle_iferror in H.

Lemma get_attr_set_attr_ne {V} (a : list (string * V)) name value name' dflt :
  str_lower name = name → name' ≠ name →
  get_attr (set_attr a name value) name' dflt = get_attr a name' dflt.
Proof.
  intros Hl Hne. induction a as [|[n v] a IH]; simpl.
  - rewrite Hl. by rewrite (proj2 (String.eqb_neq _ _)) by done.
  - destruct (String.eqb (str_lower n) name) eqn:Hn; simpl.
    + apply String.eqb_eq in Hn. rewrite Hl, Hn.
      by rewrite (proj2 (String.eqb_neq name name')) by done.
    + by rewrite IH.
Qed.

Lemma mark_error_name c k a a' :
  mark_error c k a = Ok a' → get_attr a' "name" None = get_attr a "name" None.
Proof.
  unfold mark_error, add_class. destruct (class_enabled c && has_error c k).
  - intros (new & _ & [= <-])%bind_Ok. by apply get_attr_set_attr_ne.
  - by intros [= <-].
Qed.

Lemma handle_accumulates c tok p p' :
  handle c tok p = Ok p' →
  _content p `prefix_of` _content p' ∧ used_keys p ⊆ used_keys p'
  ∧ lines p' = lines p.
Proof.
  intros H. unfold_handlers H.
  destruct tok as [pos [tag a|tag a|tag|]]; simpl in H; inv_handler; simpl;
    repeat case_match; simpl;
    (split; [repeat apply prefix_app_r; done|split; [set_solver|done]]).
Qed.

Lemma handle_keys_marked c tok p p' :
  keys_marked p → handle c tok p = Ok p' → keys_marked p'.
Proof.
  intros [Hk Hs] H. unfold_handlers H.
  destruct tok as [pos [tag a|tag a|tag|]]; simpl in H; inv_handler; simpl;
    repeat case_match; simpl; split; simpl; intros k; 
    rewrite ?elem_of_union, ?elem_of_singleton, ?elem_of_app, ?list_elem_of_singleton;
    try naive_solver.
  all: repeat match goal with
       | H : mark_error _ _ _ = Ok _ |- _ => apply mark_error_name in H
       end.
  all: destruct (in_select p) eqn:?; simplify_eq/=.
  all: try (intuition (subst; eauto; congruence)).
  all: match goal with
       | H : truthy (of_attr (in_select ?p)) = true, H' : in_select ?p = None |- _ =>
           by rewrite H' in H
       end.
Qed.

Lemma feed_accumulates c tokens : ∀ p p',
  foldM (handle c) tokens p = Ok p' →
  _content p `prefix_of` _content p' ∧ used_keys p ⊆ used_keys p'
  ∧ lines p' = lines p.
Proof.
  induction tokens as [|tok tokens IH]; intros p p'; simpl.
  - by intros [= <-].
  - intros (p0 & Hp0 & H)%bind_Ok.
    apply handle_accumulates in Hp0 as (Hc0 & Hk0 & Hl0).
    apply IH in H as (Hc & Hk & Hl).
    split; [by etrans|]. split; [set_solver|congruence].
Qed.

Lemma feed_keys_marked c tokens : ∀ p p',
  keys_marked p → foldM (handle c) tokens p = Ok p' → keys_marked p'.
Proof.
  induction tokens as [|tok tokens IH]; intros p p' Hp; simpl.
  - by intros [= <-].
  - intros (p0 & Hp0 & H)%bind_Ok. eapply IH; [|done].
    by eapply handle_keys_marked.
Qed.

Lemma handle_no_form_level c tok p p' :
  None ∉ used_errors p → handle c tok p = Ok p' → None ∉ used_errors p'.
Proof.
  intros Hn H.
  unfold handle, handle_startendtag, handle_starttag, handle_endtag, handle_misc,
    handle_textarea, handle_select, handle_option, handle_error,
    handle_iferror in H.
  destruct tok as [pos [tag a|tag a|tag|]]; simpl in H; inv_handler;
    try (apply handle_input_used_errors in H; rewrite H); simpl;
    repeat case_match; simpl; try done; set_solver.
Qed.

Lemma feed_no_form_level c tokens : ∀ p p',
  None ∉ used_errors p → foldM (handle c) tokens p = Ok p' →
  None ∉ used_errors p'.
Proof.
  induction tokens as [|tok tokens IH]; intros p p' Hn; simpl.
  - by intros [= <-].
  - intros (p0 & Hp0 & H)%bind_Ok. eapply IH; [|done].
    by eapply handle_no_form_level.
Qed.
(** X3: handling events only accumulates: the buffer grows at its
    end, the used keys and the used errors only grow, and the lines of
    the document are not touched. *)
Theorem feed_only_accumulates (c : config) (tokens : list token) (p p' : parser) :
  foldM (handle c) tokens p = Ok p' →
  (∃ new, _content p' = _content p ++ new)
  ∧ used_keys p ⊆ used_keys p'
  ∧ used_errors p ⊆ used_errors p'
  ∧ lines p' = lines p.
Proof.
  intros H. destruct (feed_accumulates _ _ _ _ H) as (Hc & Hk & Hl).
  split_and!; try done. by eapply feed_used_errors.
Qed.

(** X4: after a feed from a fresh parser every key marked as used
    has a marker in the buffer, so inserting at the marker of a used key
    cannot fail. *)
Theorem used_keys_have_markers (c : config) (data : string)
    (tokens : list token) (p : parser) :
  feed c data tokens new_parser = Ok p →
  ∀ k, k ∈ used_keys p →
    Marker k ∈ _content p
    ∧ ∀ text, is_ok (insert_at_marker k text p) = true.
Proof.
  unfold feed. intros H k Hk.
  apply feed_keys_marked in H as [Hm _]; [|by split].
  split; [by apply Hm|]. intros text. unfold insert_at_marker.
  destruct (insert_before k text (_content p)) eqn:Hi; [done|].
  apply insert_before_None in Hi. by apply Hm in Hk.
Qed.
End accumulation_facts.

(** X13: the error stored under the key [None], where a string
    given as [errors] goes, is never marked as used by a directive.  It
    is still among the unused errors after any feed, and in strict mode
    without an automatic formatter [close] then always fails. *)
Theorem form_level_error_stays_unused
    (c : Htmlfill.config) (data : string) (tokens : list Htmlfill.token)
    (p : Htmlfill.parser) (v : Py.pyval) :
  Htmlfill.feed c data tokens Htmlfill.new_parser = Py.Ok p →
  Htmlfill.errors c !! None = Some v →
  (None ∉ Htmlfill.used_errors p)
  ∧ Htmlfill.remove_used (Htmlfill.errors c) (Htmlfill.used_errors p) !! None
    = Some v
  ∧ (Htmlfill.use_all_keys c = true → Htmlfill.auto_error_formatter c = None →
     Py.is_ok (Htmlfill.close c p) = false).
Proof.
  unfold Htmlfill.feed. intros Hfeed Hv.
  apply feed_no_form_level in Hfeed; [|set_solver].
  assert (Htmlfill.remove_used (Htmlfill.errors c) (Htmlfill.used_errors p) !! None
          = Some v) as Hun.
  { rewrite remove_used_lookup. by rewrite bool_decide_eq_false_2. }
  split; [done|]. split; [done|].
  intros Hs Hf. unfold Htmlfill.close, Htmlfill.auto_insert_errors.
  rewrite Hs, Hf.
  destruct (Py.py_print _); [|done]. simpl.
  destruct (bool_decide (Htmlfill.remove_used (Htmlfill.defaults c)
                           (Htmlfill.used_keys p) = ∅)); [|done].
  simpl.
  rewrite (bool_decide_eq_false_2
             (Htmlfill.remove_used (Htmlfill.errors c) (Htmlfill.used_errors p) = ∅)).
  2:{ intros He. by rewrite He, lookup_empty in Hun. }
  by destruct (Py.mapM _ _).
Qed.

(** ** One intercepted tag in a document *)

Section in_place_facts.
Import Py Htmlfill.

(** [copy_run], by what it leaves behind. *)
Lemma copy_run_state c tokens p :
  copying p → valid_pos (lines p) (source_pos p) →
  Forall (λ tok : token, passthrough tok.2 = true) tokens →
  in_order (lines p) (source_pos p) tokens →
  ∃ p' new,
    foldM (handle c) tokens p = Ok p'
    ∧ _content p' = _content p ++ new
    ∧ join_text new
      = Ok (span (lines p) (source_pos p) (last_pos (source_pos p) tokens))
    ∧ source_pos p' = last_pos (source_pos p) tokens
    ∧ lines p' = lines p ∧ copying p' ∧ used_keys p' = used_keys p.
Proof.
  intros Hc Hv Hpass Hord.
  destruct (copy_run c tokens p) as (new & Hrun & Hj); try done.
  eexists _, new. split; [exact Hrun|]. by split_and!.
Qed.

(** A text or hidden input met while copying. *)
Lemma text_input_step c pos a a1 tag p :
  let name := get_attr a "name" None in
  let dflt := dict_get (defaults c) name VNone in
  let v := match dflt with
           | VNone => of_attr (get_attr a1 "value" (Some EmptyString))
           | _ => dflt
           end in
  copying p → valid_pos (lines p) (source_pos p) → valid_pos (lines p) pos →
  pos_le (source_pos p) pos →
  input_type a ∈ ["text"; "hidden"] →
  prepare_attrs c name a = Ok a1 →
  tag_text "input" (set_attr (as_objects a1) "value" v) false = Ok tag →
  ∃ p' new,
    handle c (pos, Starttag "input" a) p = Ok p'
    ∧ _content p' = _content p ++ new ++ [Marker name; Text (VStr tag)]
    ∧ join_text new = Ok (span (lines p) (source_pos p) pos)
    ∧ source_pos p' = pos ∧ lines p' = lines p
    ∧ in_textarea p' = false ∧ skip_error p' = false ∧ skip_next p' = true
    ∧ used_keys p' = {[ name ]} ∪ used_keys p.
Proof.
  intros name dflt v Hc Hv Hvpos Hle Ht Hprep Htag.
  destruct (write_pos_copy pos p) as (new & Hw & Hj); try done.
  destruct Hc as (Hta & Hse & Hsn).
  change (handle c (pos, Starttag "input" a) p)
    with (p ← write_pos pos p; handle_input c pos a false p).
  rewrite Hw. cbn [mbind result_bind].
  rewrite (handle_input_prepared _ _ _ _ _ _ Hprep). cbv zeta.
  fold name dflt v.
  assert (String.eqb (input_type a) "text" || String.eqb (input_type a) "hidden"
          = true) as ->.
  { repeat (apply elem_of_cons in Ht as [->|Ht]); [done..|].
    by apply elem_of_nil in Ht. }
  unfold write_tag. rewrite Htag. cbn [mbind result_bind].
  eexists _, new. split; [done|]. simpl. split_and!; try done.
  by rewrite <-!app_assoc.
Qed.
End in_place_facts.

(** X5: a document whose only intercepted tag is a text or hidden
    input.  The text written by the feed is the source up to the tag,
    then the rewritten tag, then the source from the next event up to
    the last event: the text of the original tag is not copied.  The
    input's name is the only key used. *)
Theorem input_replaced_in_place
    (c : Htmlfill.config) (data : string) (pre post : list Htmlfill.token)
    (pos pos2 : nat * nat) (a a1 : Htmlfill.attrs) (ev2 : Htmlfill.event)
    (tag : string) :
  let ls := Py.split_lines data in
  let name := Htmlfill.get_attr a "name" None in
  let dflt := Htmlfill.dict_get (Htmlfill.defaults c) name Py.VNone in
  let v := match dflt with
           | Py.VNone =>
               Htmlfill.of_attr (Htmlfill.get_attr a1 "value" (Some EmptyString))
           | _ => dflt
           end in
  let tokens := pre ++ (pos, Htmlfill.Starttag "input" a) :: (pos2, ev2) :: post in
  Forall (λ tok : Htmlfill.token, Htmlfill.passthrough tok.2 = true) pre →
  Htmlfill.passthrough ev2 = true →
  Forall (λ tok : Htmlfill.token, Htmlfill.passthrough tok.2 = true) post →
  Htmlfill.in_order ls (1, 0) tokens →
  Htmlfill.input_type a ∈ ["text"; "hidden"] →
  Htmlfill.prepare_attrs c name a = Py.Ok a1 →
  Htmlfill.tag_text "input"
    (Htmlfill.set_attr (Htmlfill.as_objects a1) "value" v) false = Py.Ok tag →
  ∃ p, Htmlfill.feed c data tokens Htmlfill.new_parser = Py.Ok p
       ∧ Htmlfill.join_text (Htmlfill._content p)
         = Py.Ok (Htmlfill.span ls (1, 0) pos +:+ tag
                  +:+ Htmlfill.span ls pos2 (Htmlfill.last_pos pos2 post))
       ∧ Htmlfill.used_keys p = {[ name ]}.
Proof.
  intros ls name dflt v tokens Hpre Hev Hpost Hord Ht Hprep Htag.
  subst tokens. apply in_order_app in Hord as [Hord1 Hord2].
  simpl in Hord2. destruct Hord2 as (Hvpos & Hle1 & Hvpos2 & Hle2 & Hord3).
  destruct (in_order_last ls (1, 0) pre) as [Hvlp Hlelp];
    [apply valid_pos_start|done|].
  unfold Htmlfill.feed. rewrite foldM_app.
  destruct (copy_run_state c pre
              (Htmlfill.set_source_pos (1, 0)
                 (Htmlfill.set_lines (Py.split_lines data) Htmlfill.new_parser)))
    as (p1 & new1 & -> & Hc1 & Hj1 & Hsp1 & Hl1 & Hcp1 & Hk1); try done.
  { apply valid_pos_start. }
  simpl in Hc1, Hj1, Hsp1, Hl1, Hk1. fold ls in Hj1, Hl1.
  cbn [mbind Py.result_bind Py.foldM].
  destruct (text_input_step c pos a a1 tag p1)
    as (p2 & new2 & -> & Hc2 & Hj2 & Hsp2 & Hl2 & Hta2 & Hse2 & Hsn2 & Hk2);
    try done; rewrite ?Hl1, ?Hsp1; try done.
  rewrite Hl1, Hsp1 in Hj2.
  cbn [mbind Py.result_bind].
  rewrite handle_passthrough by done. cbn [fst].
  rewrite write_pos_skip by done.
  cbn [mbind Py.result_bind].
  destruct (copy_run_state c post
              (Htmlfill.set_source_pos pos2 (Htmlfill.set_skip_next false p2)))
    as (p3 & new3 & -> & Hc3 & Hj3 & Hsp3 & Hl3 & Hcp3 & Hk3); try done;
    simpl; rewrite ?Hl2, ?Hl1; try done.
  simpl in Hc3, Hj3, Hk3. rewrite Hl2, Hl1 in Hj3.
  eexists. split; [done|]. split.
  - rewrite Hc3, Hc2, Hc1. simpl.
    rewrite <-(span_app ls (1, 0) (Htmlfill.last_pos (1, 0) pre) pos),
      !str_app_assoc; [|apply valid_pos_start|done..].
    rewrite <-!app_assoc.
    apply join_text_app; [done|]. apply join_text_app; [done|].
    simpl. by rewrite Hj3.
  - rewrite Hk3, Hk2, Hk1. set_solver.
Qed.

(** ** The kinds of input *)

(** X6: for an input of type text or hidden the emitted [value] is
    the default for the tag's name whenever that default is not [None],
    also when it is empty or zero, and otherwise the value the tag
    already has, or the empty string when it has none. *)
Theorem text_input_value
    (c : Htmlfill.config) (pos : nat * nat) (a a1 : Htmlfill.attrs)
    (startend : bool) (p : Htmlfill.parser) :
  let t := Htmlfill.input_type a in
  let name := Htmlfill.get_attr a "name" None in
  let dflt := Htmlfill.dict_get (Htmlfill.defaults c) name Py.VNone in
  let existing := Htmlfill.of_attr (Htmlfill.get_attr a1 "value" (Some EmptyString)) in
  let v := match dflt with Py.VNone => existing | _ => dflt end in
  t ∈ ["text"; "hidden"] →
  Htmlfill.prepare_attrs c name a = Py.Ok a1 →
  Htmlfill.handle_input c pos a startend p
  = (p ← Htmlfill.write_tag "input"
           (Htmlfill.set_attr (Htmlfill.as_objects a1) "value" v) startend
           (Htmlfill.write_marker name p);
     Py.Ok (Htmlfill.add_key name (Htmlfill.set_skip_next true p)))
  ∧ Htmlfill.get_attr (Htmlfill.set_attr (Htmlfill.as_objects a1) "value" v)
      "value" Py.VNone = v
  ∧ (dflt ≠ Py.VNone → v = dflt)
  ∧ (dflt = Py.VNone → Htmlfill.count_attr a1 "value" = 0 →
     v = Py.VStr EmptyString).
Proof.
  intros t name dflt existing v Ht Hprep.
  split; [|split; [|split]].
  - rewrite (handle_input_prepared _ _ _ _ _ _ Hprep). fold t. cbv zeta.
    subst v existing. fold name. fold dflt.
    repeat (apply elem_of_cons in Ht as [->|Ht]); [done..|].
    by apply elem_of_nil in Ht.
  - by apply get_attr_set_attr.
  - intros Hd. subst v. by destruct dflt.
  - intros Hd H0. subst v existing. rewrite Hd. by rewrite get_attr_absent.
Qed.

(** X7: a radio input gets [checked] exactly when the stringified
    default equals the tag's [value] attribute; otherwise its first
    [checked] attribute is removed.  A missing default is compared as
    the text [None]. *)
Theorem radio_input_checked
    (c : Htmlfill.config) (pos : nat * nat) (a a1 : Htmlfill.attrs)
    (startend : bool) (p : Htmlfill.parser) (s : string) :
  let name := Htmlfill.get_attr a "name" None in
  let dflt := Htmlfill.dict_get (Htmlfill.defaults c) name Py.VNone in
  let v := Htmlfill.get_attr a1 "value" None in
  let a' := if bool_decide (Some s = v)
            then Htmlfill.set_attr a1 "checked" (Some "checked")
            else Htmlfill.del_attr a1 "checked" in
  Htmlfill.input_type a = "radio" →
  Htmlfill.prepare_attrs c name a = Py.Ok a1 →
  Py.py_str dflt = Py.Ok s →
  Htmlfill.handle_input c pos a startend p
  = (p ← Htmlfill.write_tag "input" (Htmlfill.as_objects a') startend
           (Htmlfill.write_marker name p);
     Py.Ok (Htmlfill.add_key name (Htmlfill.set_skip_next true p)))
  ∧ (v = Some s → Htmlfill.get_attr a' "checked" None = Some "checked")
  ∧ (v ≠ Some s →
     Htmlfill.count_attr a' "checked" = Htmlfill.count_attr a1 "checked" - 1)
  ∧ (Htmlfill.defaults c !! name = None → s = "None").
Proof.
  intros name dflt v a' Ht Hprep Hs.
  split; [|split; [|split]].
  - rewrite (handle_input_prepared _ _ _ _ _ _ Hprep), Ht. cbv zeta.
    fold name dflt v. simpl. by rewrite Hs.
  - intros Hv. subst a'. rewrite bool_decide_eq_true_2 by done.
    by apply get_attr_set_attr.
  - intros Hv. subst a'. rewrite bool_decide_eq_false_2 by congruence.
    apply count_del_attr.
  - intros Hd. subst dflt. unfold Htmlfill.dict_get in Hs. rewrite Hd in Hs.
    simpl in Hs. congruence.
Qed.

(** X9: an input whose type is none of the ten known ones makes
    the handler fail; once the attribute rules have been applied the
    failure is an [AssertionError] naming the type and the position. *)
Theorem unknown_input_type_fails
    (c : Htmlfill.config) (pos : nat * nat) (a : Htmlfill.attrs)
    (startend : bool) (p : Htmlfill.parser) :
  Htmlfill.input_type a ∉ Htmlfill.input_types →
  Py.is_ok (Htmlfill.handle_input c pos a startend p) = false
  ∧ ∀ a1, Htmlfill.prepare_attrs c (Htmlfill.get_attr a "name" None) a = Py.Ok a1 →
      Htmlfill.handle_input c pos a startend p
      = Py.Raise (Py.AssertionError
          ("I don't know about this kind of <input>: " +:+ Htmlfill.input_type a
           +:+ " (pos: " +:+ Htmlfill.str_pos pos +:+ ")")).
Proof.
  intros Ht.
  assert (∀ x, x ∈ Htmlfill.input_types → String.eqb (Htmlfill.input_type a) x = false)
    as Hne.
  { intros x Hx. apply String.eqb_neq. by intros <-. }
  assert (∀ a1, Htmlfill.prepare_attrs c (Htmlfill.get_attr a "name" None) a = Py.Ok a1 →
      Htmlfill.handle_input c pos a startend p
      = Py.Raise (Py.AssertionError
          ("I don't know about this kind of <input>: " +:+ Htmlfill.input_type a
           +:+ " (pos: " +:+ Htmlfill.str_pos pos +:+ ")"))) as Hraise.
  { intros a1 Hprep. rewrite (handle_input_prepared _ _ _ _ _ _ Hprep). cbv zeta.
    unfold Htmlfill.input_types in Hne.
    rewrite !Hne by (set_solver). done. }
  split; [|done].
  destruct (Htmlfill.prepare_attrs c (Htmlfill.get_attr a "name" None) a)
    as [a1|e] eqn:Hprep.
  - by rewrite (Hraise a1).
  - unfold Htmlfill.handle_input. by rewrite Hprep.
Qed.

Section untouched_input.
Import Py Htmlfill.

Lemma handle_starttag_input c pos a startend p :
  handle_starttag c pos "input" a startend p
  = (p ← write_pos pos p; handle_input c pos a startend p).
Proof. done. Qed.
End untouched_input.

(** X8: an input of type file is left alone.  Only a marker is
    written, its name is not marked as used, and the next event copies
    the tag's own source text. *)
Theorem file_input_left_alone
    (c : Htmlfill.config) (pos pos' : nat * nat) (a a1 : Htmlfill.attrs)
    (startend : bool) (p p0 : Htmlfill.parser) :
  let name := Htmlfill.get_attr a "name" None in
  Htmlfill.input_type a = "file" →
  Htmlfill.prepare_attrs c name a = Py.Ok a1 →
  Htmlfill.in_textarea p = false → Htmlfill.skip_error p = false →
  Htmlfill.write_pos pos p = Py.Ok p0 →
  Htmlfill.valid_pos (Htmlfill.lines p) pos →
  Htmlfill.valid_pos (Htmlfill.lines p) pos' →
  Htmlfill.pos_le pos pos' →
  ∃ p1 p2 new,
    Htmlfill.handle_starttag c pos "input" a startend p = Py.Ok p1
    ∧ Htmlfill.used_keys p1 = Htmlfill.used_keys p
    ∧ Htmlfill.write_pos pos' p1 = Py.Ok p2
    ∧ Htmlfill._content p2
      = Htmlfill._content p0 ++ Htmlfill.Marker name :: new
    ∧ Htmlfill.join_text new
      = Py.Ok (Htmlfill.span (Htmlfill.lines p) pos pos').
Proof.
  intros name Ht Hprep Hta Hse Hp0 Hv Hv' Hle.
  destruct (write_pos_effect _ _ _ Hp0)
    as (Hsp & Hsn & _ & Hl & Hta0 & _ & _ & Hse0 & Huk & _).
  rewrite Hta, Hse, andb_false_r in Hsn.
  destruct (write_pos_copy pos' (Htmlfill.write_marker name p0))
    as (new & Hw & Hj).
  { split; [|split]; simpl; congruence. }
  { simpl. by rewrite Hl, Hsp. }
  { simpl. by rewrite Hl. }
  { simpl. by rewrite Hsp. }
  simpl in Hw, Hj. rewrite Hl, Hsp in Hj.
  eexists (Htmlfill.write_marker name p0), _, new. split_and!.
  - rewrite handle_starttag_input, Hp0. simpl.
    rewrite (handle_input_prepared _ _ _ _ _ _ Hprep), Ht. done.
  - done.
  - exact Hw.
  - simpl. by rewrite <-app_assoc.
  - done.
Qed.

(** ** Options and directives *)

(** X10: inside a select element named [s], an option gets
    [selected] exactly when the stringified default for [s] (the empty
    string when there is none) equals the option's [value] attribute,
    and [s] is then marked as used; otherwise the option's first
    [selected] attribute is removed. *)
Theorem option_selected
    (c : Htmlfill.config) (a : Htmlfill.attrs) (p : Htmlfill.parser)
    (s d : string) :
  let v := Htmlfill.get_attr a "value" None in
  let a' := if bool_decide (Some d = v)
            then Htmlfill.set_attr a "selected" (Some "selected")
            else Htmlfill.del_attr a "selected" in
  Htmlfill.in_select p = Some s → s ≠ EmptyString →
  Py.py_str (Htmlfill.dict_get (Htmlfill.defaults c) (Some s) (Py.VStr EmptyString))
  = Py.Ok d →
  Htmlfill.handle_option c a p
  = (p ← Htmlfill.write_tag "option" (Htmlfill.as_objects a') false
           (if bool_decide (Some d = v) then Htmlfill.add_key (Some s) p else p);
     Py.Ok (Htmlfill.set_skip_next true p))
  ∧ (v = Some d → Htmlfill.get_attr a' "selected" None = Some "selected")
  ∧ (v ≠ Some d →
     Htmlfill.count_attr a' "selected" = Htmlfill.count_attr a "selected" - 1)
  ∧ (Htmlfill.defaults c !! Some s = None → d = EmptyString).
Proof.
  intros v a' Hs Hne Hd. split; [|split; [|split]].
  - unfold Htmlfill.handle_option. rewrite Hs. simpl.
    rewrite (proj2 (String.eqb_neq s EmptyString)) by done. simpl.
    rewrite Hd. simpl. fold v. subst a'. by destruct (bool_decide (Some d = v)).
  - intros Hv. subst a'. rewrite bool_decide_eq_true_2 by done.
    by apply get_attr_set_attr.
  - intros Hv. subst a'. rewrite bool_decide_eq_false_2 by congruence.
    apply count_del_attr.
  - intros Hnone. unfold Htmlfill.dict_get in Hd. rewrite Hnone in Hd.
    simpl in Hd. congruence.
Qed.

(** X11: an option outside a select element, and a form:iferror
    without a name, do not fail with the message the code means to
    give: building that message from the position pair raises
    [TypeError].  A form:error without a name outside a form:iferror
    fails with an [AssertionError] that gives the position. *)
Theorem directive_needs_name
    (c : Htmlfill.config) (pos : nat * nat) (a : Htmlfill.attrs)
    (startend : bool) (p p0 : Htmlfill.parser) :
  Htmlfill.write_pos pos p = Py.Ok p0 →
  (Htmlfill.in_select p = None ∨ Htmlfill.in_select p = Some EmptyString →
   Htmlfill.handle_starttag c pos "option" a startend p
   = Py.Raise Htmlfill.bad_format)
  ∧ (Htmlfill.get_attr a "name" None = None
     ∨ Htmlfill.get_attr a "name" None = Some EmptyString →
     Htmlfill.handle_starttag c pos "form:iferror" a startend p
     = Py.Raise Htmlfill.bad_format)
  ∧ (Htmlfill.get_attr a "name" None = None → Htmlfill.in_error p = None →
     Htmlfill.handle_starttag c pos "form:error" a startend p
     = Py.Raise (Py.AssertionError
         ("Name attribute in <form:error> required if not contained in "
          +:+ "<form:iferror> (" +:+ pretty pos.1 +:+ ":" +:+ pretty pos.2 +:+ ")"))).
Proof.
  intros Hp0.
  destruct (write_pos_effect _ _ _ Hp0)
    as (_ & _ & _ & _ & _ & Hsel & Herr & _).
  unfold Htmlfill.handle_starttag. rewrite Hp0. simpl. split_and!.
  - unfold Htmlfill.handle_option. rewrite Hsel. by intros [-> | ->].
  - unfold Htmlfill.handle_iferror. by intros [-> | ->].
  - intros Hn He. unfold Htmlfill.handle_error, Htmlfill.error_key.
    by rewrite Hn, Herr, He.
Qed.

(** X12: a form:error whose key has an error fails with [KeyError]
    when its [format] names no registered formatter, and with
    [TypeError] for the built-in [escape] formatter, which calls
    [html_quote] with two arguments. *)
Theorem form_error_bad_formatter
    (c : Htmlfill.config) (pos : nat * nat) (a : Htmlfill.attrs)
    (startend : bool) (p p0 : Htmlfill.parser) (k : string) :
  Htmlfill.write_pos pos p = Py.Ok p0 →
  Htmlfill.error_key a p = Some k →
  Htmlfill.has_error c (Some k) = true →
  (Htmlfill.error_formatters c !! Htmlfill.formatter_name a = None →
   Htmlfill.handle_starttag c pos "form:error" a startend p
   = Py.Raise (Py.KeyError (Py.repr_str (Htmlfill.formatter_name a))))
  ∧ (Htmlfill.error_formatters c = Htmlfill.builtin_formatters →
     Htmlfill.formatter_name a = "escape" →
     Htmlfill.handle_starttag c pos "form:error" a startend p
     = Py.Raise (Py.TypeError "html_quote() takes exactly 1 argument (2 given)")).
Proof.
  intros Hp0 Hk He.
  assert (Hrun : Htmlfill.handle_starttag c pos "form:error" a startend p
    = (p ← match Htmlfill.error_formatters c !! Htmlfill.formatter_name a with
           | Some f =>
               e ← f (Htmlfill.dict_get (Htmlfill.errors c) (Some k)
                        (Py.VStr EmptyString));
               Py.Ok (Htmlfill.write_text e p0)
           | None => Py.Raise (Py.KeyError
                                 (Py.repr_str (Htmlfill.formatter_name a)))
           end;
       Py.Ok (Htmlfill.set_used_errors ({[ Some k ]} ∪ Htmlfill.used_errors p)
                (Htmlfill.set_skip_next true p)))).
  { rewrite handle_starttag_form_error, Hp0. simpl.
    rewrite (handle_error_Some _ _ _ _ k)
      by (by rewrite (error_key_write_pos _ _ _ _ Hp0)).
    unfold Htmlfill.has_error in He. rewrite <-truthy_error_default in He.
    by rewrite He. }
  rewrite Hrun. split.
  - intros Hf. unfold Htmlfill.formatter in *. by rewrite Hf.
  - by intros -> ->.
Qed.

(** ** Quoting and the buffer's text *)

Section quoting_facts.
Import Py Htmlfill.

Lemma str_contains_app c s t :
  str_contains c (s +:+ t) = str_contains c s || str_contains c t.
Proof.
  induction s as [|a s IH]; [done|]. rewrite str_app_cons. simpl.
  by destruct (Ascii.eqb a c).
Qed.

Lemma escape_char_clean c a :
  c ∈ ["<"%char; ">"%char; dquote] → str_contains c (escape_char a) = false.
Proof.
  intros Hc. unfold escape_char.
  destruct (Ascii.eqb a "&") eqn:H1.
  { repeat (apply elem_of_cons in Hc as [->|Hc]); [done..|]. by apply elem_of_nil in Hc. }
  destruct (Ascii.eqb a "<") eqn:H2.
  { repeat (apply elem_of_cons in Hc as [->|Hc]); [done..|]. by apply elem_of_nil in Hc. }
  destruct (Ascii.eqb a ">") eqn:H3.
  { repeat (apply elem_of_cons in Hc as [->|Hc]); [done..|]. by apply elem_of_nil in Hc. }
  destruct (Ascii.eqb a dquote) eqn:H4.
  { repeat (apply elem_of_cons in Hc as [->|Hc]); [done..|]. by apply elem_of_nil in Hc. }
  simpl.
  repeat (apply elem_of_cons in Hc as [->|Hc]); [by rewrite ?H2, ?H3, ?H4..|].
  by apply elem_of_nil in Hc.
Qed.

Lemma escape_chars_clean c s :
  c ∈ ["<"%char; ">"%char; dquote] → str_contains c (escape_chars s) = false.
Proof.
  intros Hc. induction s as [|a s IH]; [done|].
  simpl. by rewrite str_contains_app, escape_char_clean, IH.
Qed.
End quoting_facts.

(** X14: the text [html_quote] returns for anything but an
    htmlliteral contains no [<], no [>] and no double quote. *)
Theorem html_quote_no_markup (v : Py.pyval) (q : string) :
  Htmlfill.html_quote v = Py.Ok q →
  (∀ html text, v ≠ Py.VHtml html text) →
  Py.str_contains "<" q = false
  ∧ Py.str_contains ">" q = false
  ∧ Py.str_contains Py.dquote q = false.
Proof.
  intros Hq Hv.
  assert (q = EmptyString ∨ ∃ s, q = Htmlfill.escape_chars s) as [->|[s ->]].
  { destruct v as [| | | |h x|]; simpl in Hq.
    - left. congruence.
    - right. injection Hq as <-. eexists. apply cgi_escape_chars.
    - right. injection Hq as <-. eexists. apply cgi_escape_chars.
    - right. injection Hq as <-. eexists. apply cgi_escape_chars.
    - by destruct (Hv h x).
    - right. apply bind_Ok in Hq as (s & _ & [= <-]). eexists.
      apply cgi_escape_chars. }
  - done.
  - split_and!; apply escape_chars_clean; set_solver.
Qed.

(** X15: [write_tag] never writes an attribute whose name starts
    with [form:], and does not convert its value either. *)
Theorem write_tag_drops_form_attrs
    (tag : string) (a1 a2 : list (string * Py.pyval)) (n : string) (v : Py.pyval)
    (startend : bool) (p : Htmlfill.parser) :
  Py.startswith "form:" n = true →
  Htmlfill.write_tag tag (a1 ++ (n, v) :: a2) startend p
  = Htmlfill.write_tag tag (a1 ++ a2) startend p.
Proof.
  intros Hn. unfold Htmlfill.write_tag, Htmlfill.tag_text.
  rewrite !List.filter_app. simpl. by rewrite Hn.
Qed.

Section buffer_text.
Import Py Htmlfill.

Lemma str_join_empty_cons x l :
  str_join EmptyString (x :: l) = x +:+ str_join EmptyString l.
Proof.
  destruct l as [|y l]; [by rewrite str_app_nil_r|]. by rewrite str_join_cons.
Qed.

Lemma join_text_written l s :
  join_text l = Ok s → s = str_join EmptyString (written_strings l).
Proof.
  revert s. induction l as [|it l IH]; intros r.
  - by intros [= <-].
  - destruct it as [t|k]; [destruct t as [| | |s| |]|]; try done.
    + intros (r' & Hr' & [= <-])%bind_Ok.
      change (written_strings (Text (VStr s) :: l)) with (s :: written_strings l).
      rewrite str_join_empty_cons. f_equal. by apply IH.
    + apply IH.
Qed.

Lemma join_text_is_ok l :
  is_ok (join_text l) = true ↔ ∀ t, Text t ∈ l → ∃ s, t = VStr s.
Proof.
  induction l as [|it l IH]; simpl.
  - split; [|done]. intros _ t Ht. by apply elem_of_nil in Ht.
  - destruct it as [t|k].
    + destruct t; simpl;
        try (split; [done|]; intros H;
             destruct (H _ (list_elem_of_here _ _)) as [? [=]]).
      destruct (join_text l) eqn:Hj; simpl.
      * split; [|done]. intros _ t [[= ->]|Ht]%elem_of_cons; [by eexists|].
        by apply IH.
      * split; [done|]. intros H. apply IH. intros t Ht. apply H. by right.
    + rewrite IH. split; intros H t Ht.
      * apply elem_of_cons in Ht as [[=]|Ht]. by apply H.
      * apply H. by right.
Qed.
End buffer_text.

(** X19: the final join succeeds exactly when every object written
    to the buffer is a string.  Its result is the concatenation of the
    written strings, and a marker contributes nothing. *)
Theorem join_text_strings_only (l : list Htmlfill.item) :
  (Py.is_ok (Htmlfill.join_text l) = true
   ↔ ∀ t, Htmlfill.Text t ∈ l → ∃ s, t = Py.VStr s)
  ∧ (∀ s, Htmlfill.join_text l = Py.Ok s →
          s = Py.str_join EmptyString (Htmlfill.written_strings l))
  ∧ (∀ k l', Htmlfill.join_text (l ++ Htmlfill.Marker k :: l')
             = Htmlfill.join_text (l ++ l')).
Proof.
  split; [apply join_text_is_ok|]. split; [apply join_text_written|].
  intros k l'. induction l as [|[[]|k'] l IH]; simpl; try done. by rewrite IH.
Qed.

(** X20: inserting a string at a marker puts it, in the joined
    text, between the text written before the first marker with that key
    and the text written after it. *)
Theorem insert_at_marker_text
    (k : Py.key) (t s : string) (p p' : Htmlfill.parser) :
  Htmlfill.insert_at_marker k (Py.VStr t) p = Py.Ok p' →
  Htmlfill.join_text (Htmlfill._content p) = Py.Ok s →
  ∃ pre post s1 s2,
    Htmlfill._content p = pre ++ Htmlfill.Marker k :: post
    ∧ (Htmlfill.Marker k ∉ pre)
    ∧ Htmlfill.join_text pre = Py.Ok s1
    ∧ Htmlfill.join_text post = Py.Ok s2
    ∧ s = s1 +:+ s2
    ∧ Htmlfill.join_text (Htmlfill._content p') = Py.Ok (s1 +:+ t +:+ s2).
Proof.
  unfold Htmlfill.insert_at_marker. intros Hi Hs.
  destruct (Htmlfill.insert_before k (Py.VStr t) (Htmlfill._content p))
    as [l'|] eqn:Hl; [|done].
  injection Hi as <-.
  apply insert_before_Some in Hl as (pre & post & Hc & Hpre & ->).
  rewrite Hc in Hs. apply join_text_Ok_app in Hs as (s1 & s2 & Hs1 & Hs2 & ->).
  simpl in Hs2. exists pre, post, s1, s2. split_and!; try done.
  simpl. apply join_text_app; [done|]. simpl. by rewrite Hs2.
Qed.

(** ** The attribute primitives *)

Section attr_algebra.
Import Py Htmlfill.
Context {V : Type}.
Implicit Types a : list (string * V).

Lemma lower_ascii_idemp x : lower_ascii (lower_ascii x) = lower_ascii x.
Proof. by destruct x as [[] [] [] [] [] [] [] []]. Qed.

Lemma str_lower_idemp s : str_lower (str_lower s) = str_lower s.
Proof. induction s as [|x s IH]; [done|]. simpl. by rewrite lower_ascii_idemp, IH. Qed.

Lemma eqb_lower_mixed n name :
  str_lower name ≠ name → String.eqb (str_lower n) name = false.
Proof.
  intros Hne. apply String.eqb_neq. intros <-. by rewrite str_lower_idemp in Hne.
Qed.

Lemma count_attr_cons n v a name :
  count_attr ((n, v) :: a) name
  = (if String.eqb (str_lower n) name then 1 else 0) + count_attr a name.
Proof. unfold count_attr. simpl. by destruct (String.eqb (str_lower n) name). Qed.

Lemma count_set_attr a name value :
  str_lower name = name →
  count_attr (set_attr a name value) name = max 1 (count_attr a name).
Proof.
  intros Hl. induction a as [|[n v] a IH]; simpl.
  - rewrite count_attr_cons, Hl, String.eqb_refl. done.
  - destruct (String.eqb (str_lower n) name) eqn:Hn.
    + rewrite !count_attr_cons, Hl, String.eqb_refl, Hn. lia.
    + rewrite !count_attr_cons, Hn, IH. done.
Qed.

Lemma get_attr_del_attr_ne a name name' dflt :
  name' ≠ name → get_attr (del_attr a name) name' dflt = get_attr a name' dflt.
Proof.
  intros Hne. induction a as [|[n v] a IH]; simpl; [done|].
  destruct (String.eqb (str_lower n) name) eqn:Hn; simpl.
  - apply String.eqb_eq in Hn. rewrite Hn.
    by rewrite (proj2 (String.eqb_neq name name')) by done.
  - by rewrite IH.
Qed.

Lemma get_attr_del_attr_eq a name dflt :
  count_attr a name ≤ 1 → get_attr (del_attr a name) name dflt = dflt.
Proof.
  intros Hc. apply get_attr_absent. rewrite count_del_attr. lia.
Qed.
End attr_algebra.

(** X16: for a lower-case name, [get_attr] after [set_attr] returns
    the value set and other names read as before.  The number of
    attributes with that name becomes one when there was none and is
    unchanged otherwise: later duplicates are kept. *)
Theorem set_attr_get_attr {V} (a : list (string * V)) (name name' : string)
    (value dflt : V) :
  Py.str_lower name = name →
  Htmlfill.get_attr (Htmlfill.set_attr a name value) name dflt = value
  ∧ (name' ≠ name →
     Htmlfill.get_attr (Htmlfill.set_attr a name value) name' dflt
     = Htmlfill.get_attr a name' dflt)
  ∧ Htmlfill.count_attr (Htmlfill.set_attr a name value) name
    = max 1 (Htmlfill.count_attr a name).
Proof.
  intros Hl. split_and!.
  - by apply get_attr_set_attr.
  - intros Hne. by apply get_attr_set_attr_ne.
  - by apply count_set_attr.
Qed.

(** X17: [del_attr] leaves other names as they read and removes one
    attribute of the name when there is one.  The name then reads as
    absent when the tag had at most one, and nothing changes when the
    tag has none. *)
Theorem del_attr_get_attr {V} (a : list (string * V)) (name name' : string)
    (dflt : V) :
  (name' ≠ name →
   Htmlfill.get_attr (Htmlfill.del_attr a name) name' dflt
   = Htmlfill.get_attr a name' dflt)
  ∧ Htmlfill.count_attr (Htmlfill.del_attr a name) name
    = Htmlfill.count_attr a name - 1
  ∧ (Htmlfill.count_attr a name ≤ 1 →
     Htmlfill.get_attr (Htmlfill.del_attr a name) name dflt = dflt)
  ∧ (Htmlfill.count_attr a name = 0 → Htmlfill.del_attr a name = a).
Proof.
  split_and!.
  - apply get_attr_del_attr_ne.
  - apply count_del_attr.
  - apply get_attr_del_attr_eq.
  - intros Hc. induction a as [|[n v] a IH]; [done|]. simpl.
    rewrite count_attr_cons in Hc.
    destruct (String.eqb (Py.str_lower n) name); [done|]. by rewrite IH.
Qed.

(** X18: the three primitives compare the lower-cased attribute
    name with the name they are given, as it is.  A name that is not in
    lower case is never found: [get_attr] returns the default,
    [set_attr] appends, and [del_attr] removes nothing. *)
Theorem attr_name_not_lower_case {V} (a : list (string * V)) (name : string)
    (value dflt : V) :
  Py.str_lower name ≠ name →
  Htmlfill.get_attr a name dflt = dflt
  ∧ Htmlfill.set_attr a name value = a ++ [(name, value)]
  ∧ Htmlfill.del_attr a name = a.
Proof.
  intros Hne. induction a as [|[n v] a (IH1 & IH2 & IH3)]; [done|]. simpl.
  rewrite (eqb_lower_mixed n name Hne). by rewrite IH1, IH2, IH3.
Qed.

(** ** Merging: mismatches and empty operands *)

Section merge_edge_facts.
Import Schema.

Lemma merge_values_mismatch n v1 v2 r :
  same_kind v1 v2 = false → merge_values n v1 v2 = Ret r → r = v1.
Proof.
  intros Hk. destruct n as [|n]; [done|]. simpl.
  destruct v1, v2; try done; congruence.
Qed.
End merge_edge_facts.

(** X21: when the two values are not both strings, both sequences or
    both dictionaries, [merge_values] returns the first and drops the
    second.  So a merge of dictionaries keeps the first dictionary's
    value for a key whose two values differ in kind. *)
Theorem merge_values_keeps_first (v1 v2 : Schema.errval) :
  Schema.same_kind v1 v2 = false →
  Schema.merged v1 v2 v1
  ∧ (∀ r, Schema.merged v1 v2 r → r = v1)
  ∧ (∀ d1 d2 r k,
       d1 !! k = Some v1 → d2 !! k = Some v2 →
       Schema.merged (Schema.EDict d1) (Schema.EDict d2) r →
       ∃ d, r = Schema.EDict d ∧ d !! k = Some v1).
Proof.
  intros Hk. split_and!.
  - exists 1. by destruct v1, v2.
  - intros r [n Hn]. by eapply merge_values_mismatch.
  - intros d1 d2 r k H1 H2 (n & d & -> & Hd)%merged_dict_inv.
    exists d. split; [done|].
    pose proof (merge_dicts_spec _ _ _ _ Hd k) as Hm.
    unfold Schema.merged_entry in Hm. rewrite H1, H2 in Hm.
    destruct Hm as (m & -> & Hm). f_equal. by eapply merge_values_mismatch.
Qed.

Section merge_identity_facts.
Import Schema.

Lemma merged_with_empty_inv :
  (∀ d r, merged (EDict d) (EDict ∅) r → r = EDict d)
  ∧ (∀ d r, merged (EDict ∅) (EDict d) r → r = EDict d)
  ∧ (∀ l r, merged (EList l) (EList []) r → r = EList l)
  ∧ (∀ l r, merged (EList []) (EList l) r → r = EList l).
Proof.
  split_and!.
  - intros d r (n & d' & -> & Hd)%merged_dict_inv. f_equal. apply map_eq. intros k.
    pose proof (merge_dicts_spec _ _ _ _ Hd k) as Hm.
    unfold merged_entry in Hm. rewrite lookup_empty in Hm.
    by destruct (d !! k).
  - intros d r (n & d' & -> & Hd)%merged_dict_inv. f_equal. apply map_eq. intros k.
    pose proof (merge_dicts_spec _ _ _ _ Hd k) as Hm.
    unfold merged_entry in Hm. rewrite lookup_empty in Hm.
    by destruct (d !! k).
  - intros l r (n & l' & -> & Hl)%merged_list_inv. f_equal.
    destruct (merge_lists_spec _ _ _ _ Hl) as [Hlen Hi]. simpl in Hlen.
    rewrite Nat.max_0_r in Hlen.
    apply list_eq_same_length with (List.length l); [done..|].
    intros i x y Hlt Hx Hy. destruct (Hi i) as (item & Hitem & Hm); [lia|].
    simpl in Hm. rewrite Hy in Hm. simpl in Hm. unfold merge_item in Hm.
    destruct y; simpl in Hm; congruence.
  - intros l r (n & l' & -> & Hl)%merged_list_inv. f_equal.
    destruct (merge_lists_spec _ _ _ _ Hl) as [Hlen Hi]. simpl in Hlen.
    apply list_eq_same_length with (List.length l); [done..|].
    intros i x y Hlt Hx Hy. destruct (Hi i) as (item & Hitem & Hm); [lia|].
    simpl in Hm. rewrite Hy in Hm. simpl in Hm. unfold merge_item in Hm.
    simpl in Hm. congruence.
Qed.

(** Merging with an empty operand returns. *)
Lemma merged_with_empty_returns :
  (∀ d, ∃ r, merged (EDict d) (EDict ∅) r)
  ∧ (∀ d, ∃ r, merged (EDict ∅) (EDict d) r)
  ∧ (∀ l, ∃ r, merged (EList l) (EList []) r)
  ∧ (∀ l, ∃ r, merged (EList []) (EList l) r).
Proof.
  assert (Hd : ∀ d1 d2, (d1 = ∅ ∨ d2 = ∅) →
            ∃ r, merged (EDict d1) (EDict d2) r).
  { intros d1 d2 He.
    destruct (merge_dicts_returns (λ _ _, Cut) d1 d2) as [d Hd].
    { intros k a b Ha Hb. destruct He as [-> | ->]; by rewrite lookup_empty in *. }
    exists (EDict d), 1. cbn [merge_values]. by rewrite Hd. }
  assert (Hl : ∀ l1 l2, (l1 = [] ∨ l2 = []) →
            ∃ r, merged (EList l1) (EList l2) r).
  { intros l1 l2 He.
    destruct (merge_lists_returns (λ _ _, Cut) (SList l1) (SList l2))
      as [l Hl]; [by eexists..| |].
    { intros x y Hx Hy. destruct He as [-> | ->]; simpl in *;
        by apply elem_of_nil in Hx || by apply elem_of_nil in Hy. }
    exists (EList l), 1. cbn [merge_values]. by rewrite Hl. }
  split_and!; intros; (apply Hd || apply Hl); auto.
Qed.
End merge_identity_facts.

(** X22: merging with an empty dictionary or with an empty list, on
    either side, returns the other operand. *)
Theorem merge_with_empty :
  (∀ d, Schema.merged (Schema.EDict d) (Schema.EDict ∅) (Schema.EDict d))
  ∧ (∀ d, Schema.merged (Schema.EDict ∅) (Schema.EDict d) (Schema.EDict d))
  ∧ (∀ l, Schema.merged (Schema.EList l) (Schema.EList []) (Schema.EList l))
  ∧ (∀ l, Schema.merged (Schema.EList []) (Schema.EList l) (Schema.EList l)).
Proof.
  destruct merged_with_empty_inv as (H1 & H2 & H3 & H4).
  destruct merged_with_empty_returns as (R1 & R2 & R3 & R4).
  split_and!.
  - intros d. destruct (R1 d) as [r Hr]. pose proof (H1 d r Hr). by subst r.
  - intros d. destruct (R2 d) as [r Hr]. pose proof (H2 d r Hr). by subst r.
  - intros l. destruct (R3 l) as [r Hr]. pose proof (H3 l r Hr). by subst r.
  - intros l. destruct (R4 l) as [r Hr]. pose proof (H4 l r Hr). by subst r.
Qed.

(** ** [format_compound_error] *)

Section sorting_facts.
Import Py Schema.
Context {A : Type}.
Implicit Types l : list (string * A).

Lemma key_le_trans : Transitive (@key_le A).
Proof. intros x y z. unfold key_le. apply transitivity. Qed.

Lemma key_le_total : Total (@key_le A).
Proof. intros x y. unfold key_le. apply total, _. Qed.

Lemma sort_items_sorted l : StronglySorted key_le (sort_items l).
Proof.
  apply (@StronglySorted_merge_sort _ key_le _ key_le_trans key_le_total).
Qed.

Lemma sort_items_perm l : sort_items l ≡ₚ l.
Proof. apply merge_sort_Permutation. Qed.

Lemma key_le_antisym_in l l' (x y : string * A) :
  NoDup l.*1 → l' ≡ₚ l → x ∈ l → y ∈ l' → key_le x y → key_le y x → x = y.
Proof.
  intros Hnd Hp Hx Hy Hxy Hyx. rewrite Hp in Hy.
  assert (x.1 = y.1) as Hk by (by apply (anti_symm String.le)).
  apply list_elem_of_lookup in Hx as [i Hi], Hy as [j Hj].
  assert (i = j) as ->.
  { apply (NoDup_lookup _ _ _ x.1 Hnd); rewrite list_lookup_fmap.
    - by rewrite Hi.
    - by rewrite Hj, Hk. }
  congruence.
Qed.

Lemma sort_items_unique l l' :
  NoDup l.*1 → l' ≡ₚ l → StronglySorted key_le l' → sort_items l = l'.
Proof.
  intros Hnd Hp Hs. apply (StronglySorted_unique_strong key_le).
  - intros x y Hx Hy. rewrite sort_items_perm in Hx.
    by apply (key_le_antisym_in l l').
  - apply sort_items_sorted.
  - done.
  - by rewrite sort_items_perm.
Qed.

Lemma sort_items_proper l l' :
  NoDup l.*1 → l ≡ₚ l' → sort_items l = sort_items l'.
Proof.
  intros Hnd Hp. apply sort_items_unique; [done| |apply sort_items_sorted].
  by rewrite sort_items_perm.
Qed.

Lemma StronglySorted_filter (P : string * A → bool) l :
  StronglySorted key_le l → StronglySorted key_le (List.filter P l).
Proof.
  induction 1 as [|x l Hs IH Hx]; simpl; [constructor|].
  destruct (P x); [|done]. constructor; [done|].
  apply Forall_forall. intros y [Hy _]%list_elem_of_In%filter_In.
  rewrite Forall_forall in Hx. by apply Hx, list_elem_of_In.
Qed.

Lemma filter_perm (P : string * A → bool) l l' :
  l ≡ₚ l' → List.filter P l ≡ₚ List.filter P l'.
Proof.
  induction 1 as [|x l l' _ IH|x y l|l l' l'' _ IH1 _ IH2]; simpl.
  - done.
  - destruct (P x); by rewrite IH.
  - destruct (P x), (P y); try done. apply perm_swap.
  - by etrans.
Qed.

Lemma NoDup_fst_filter (P : string * A → bool) l :
  NoDup l.*1 → NoDup (List.filter P l).*1.
Proof.
  induction l as [|x l IH]; simpl; [done|].
  intros [Hx Hnd]%NoDup_cons. destruct (P x); [|by apply IH].
  simpl. apply NoDup_cons. split; [|by apply IH].
  intros (y & Hy1 & [Hy _]%list_elem_of_In%filter_In)%list_elem_of_fmap.
  apply Hx, list_elem_of_fmap. exists y. split; [done|]. by apply list_elem_of_In.
Qed.

Lemma filter_sort_items (P : string * A → bool) l :
  NoDup l.*1 → List.filter P (sort_items l) = sort_items (List.filter P l).
Proof.
  intros Hnd. symmetry. apply sort_items_unique.
  - by apply NoDup_fst_filter.
  - apply filter_perm, sort_items_perm.
  - apply StronglySorted_filter, sort_items_sorted.
Qed.
End sorting_facts.

Section format_facts.
Import Py Schema.

Lemma format_dict d indent :
  format_compound_error (ODict d) indent
  = (parts ← mapM item_line
               (List.filter kept (sort_items (with_result <$> map_to_list d)));
     Ok (str_join (str_mul " " indent +:+ NL) parts)).
Proof.
  simpl. rewrite map_fold_foldr.
  assert (foldr (uncurry (λ k value acc,
             (k, (value, format_compound_error value (String.length k + 2)))
             :: acc)) [] (map_to_list d)
          = with_result <$> map_to_list d) as ->; [|done].
  induction (map_to_list d) as [|[k v] l IH]; [done|]. simpl. by rewrite IH.
Qed.

Lemma with_result_fst (l : list (string * errobj)) : (with_result <$> l).*1 = l.*1.
Proof. induction l as [|[k v] l IH]; [done|]. cbn. f_equal. apply IH. Qed.

Lemma NoDup_with_result (d : gmap string errobj) :
  NoDup (with_result <$> map_to_list d).*1.
Proof. rewrite with_result_fst. apply NoDup_fst_map_to_list. Qed.

Lemma mapM_item_line_exc (l : list (string * string)) :
  mapM item_line (with_result <$> (prod_map id OExc <$> l))
  = Ok (error_line <$> l).
Proof.
  induction l as [|[k msg] l IH]; [done|].
  rewrite !fmap_cons. cbn [mapM]. rewrite IH. done.
Qed.

Lemma filter_kept_exc (l : list (string * string)) :
  List.filter kept (with_result <$> (prod_map id OExc <$> l))
  = with_result <$> (prod_map id OExc <$> l).
Proof.
  induction l as [|[k msg] l IH]; [done|].
  rewrite !fmap_cons. cbn [List.filter]. rewrite IH. done.
Qed.

Lemma sort_items_fmap {A B} (f : string * A → string * B) (l : list (string * A)) :
  (∀ x, (f x).1 = x.1) → NoDup l.*1 →
  sort_items (f <$> l) = f <$> sort_items l.
Proof.
  intros Hf Hnd.
  assert (∀ l' : list (string * A), (f <$> l').*1 = l'.*1) as Hfst.
  { intros l'. induction l' as [|x l' IH]; [done|].
    rewrite !fmap_cons. by rewrite Hf, IH. }
  apply sort_items_unique.
  - by rewrite Hfst.
  - by rewrite sort_items_perm.
  - apply (StronglySorted_fmap _ key_le key_le); [|apply sort_items_sorted].
    intros x y. unfold key_le. by rewrite !Hf.
Qed.
End format_facts.

(** X23: for a dictionary of exceptions the message has one line
    [key: text] per key, in ascending order of the keys, the lines
    joined by [indent] spaces followed by a newline. *)
Theorem format_compound_error_fields (m : gmap string string) (indent : nat) :
  ∃ l, l ≡ₚ map_to_list m
       ∧ StronglySorted (λ x y, String.le x.1 y.1) l
       ∧ Schema.format_compound_error (Schema.ODict (Schema.OExc <$> m)) indent
         = Py.Ok (Py.str_join (Schema.str_mul " " indent +:+ Py.NL)
                    (Schema.error_line <$> l)).
Proof.
  exists (Schema.sort_items (map_to_list m)). split; [apply sort_items_perm|].
  split; [apply sort_items_sorted|].
  rewrite format_dict, map_to_list_fmap.
  rewrite <-list_fmap_compose.
  rewrite (sort_items_fmap (Schema.with_result ∘ prod_map id Schema.OExc));
    [|by intros []|apply NoDup_fst_map_to_list].
  rewrite list_fmap_compose, filter_kept_exc, mapM_item_line_exc. done.
Qed.

(** X24: [None] values of a dictionary and [None] elements of a
    list are skipped: the message is that of the container without
    them.  [None] itself is refused. *)
Theorem format_compound_error_skips_none :
  (∀ (d : gmap string Schema.errobj) k indent,
     Schema.format_compound_error (Schema.ODict (<[k := Schema.ONone]> d)) indent
     = Schema.format_compound_error (Schema.ODict (delete k d)) indent)
  ∧ (∀ l1 l2 indent,
       Schema.format_compound_error (Schema.OList (l1 ++ Schema.ONone :: l2)) indent
       = Schema.format_compound_error (Schema.OList (l1 ++ l2)) indent)
  ∧ (∀ indent,
       Schema.format_compound_error Schema.ONone indent
       = Py.Raise (Py.AssertionError "I didn't expect something like None")).
Proof.
  split; [|split; [|done]].
  - intros d k indent. rewrite !format_dict.
    rewrite !filter_sort_items by apply NoDup_with_result.
    f_equal. f_equal. apply sort_items_proper.
    { apply NoDup_fst_filter, NoDup_with_result. }
    trans (List.filter Schema.kept
             (Schema.with_result
                <$> ((k, Schema.ONone) :: map_to_list (delete k d)))); [|done].
    apply filter_perm, fmap_Permutation.
    rewrite <-(insert_delete_eq d k Schema.ONone).
    apply map_to_list_insert, lookup_delete_eq.
  - intros l1 l2 indent. simpl. f_equal.
    induction l1 as [|x l1 IH]; [done|]. simpl. by rewrite IH.
Qed.

Section formattable_facts.
Import Py Schema.

Lemma height_elem x (l : list errobj) :
  x ∈ l → height x ≤ foldr (λ x acc, max (height x) acc) 0 l.
Proof. induction 1 as [x l|x y l _ IH]; cbn [foldr]; lia. Qed.

Lemma height_entry (d : gmap string errobj) kv :
  kv ∈ map_to_list d →
  height kv.2 ≤ map_fold (λ _ x acc, max (height x) acc) 0 d.
Proof.
  rewrite map_fold_foldr.
  induction 1 as [[??] ?|[??] [??] ? _ IH]; simpl in *; lia.
Qed.

Lemma is_ok_mapM {A B} (f : A → result B) l :
  is_ok (mapM f l) = forallb (λ x, is_ok (f x)) l.
Proof.
  induction l as [|x l IH]; [done|]. simpl.
  destruct (f x); [|done]. simpl. rewrite <-IH. by destruct (mapM f l).
Qed.

Lemma is_ok_bind_Ok {A B} (m : result A) (g : A → B) :
  is_ok (m ≫= λ x, Ok (g x)) = is_ok m.
Proof. by destruct m. Qed.

Lemma forallb_perm {A} (P : A → bool) l l' :
  l ≡ₚ l' → forallb P l = forallb P l'.
Proof.
  induction 1 as [|x l l' _ IH|x y l|l l' l'' _ IH1 _ IH2]; simpl.
  - done.
  - by rewrite IH.
  - by destruct (P x), (P y).
  - congruence.
Qed.

Lemma forallb_ext_in {A} (P Q : A → bool) l :
  (∀ x, x ∈ l → P x = Q x) → forallb P l = forallb Q l.
Proof.
  induction l as [|x l IH]; [done|]. intros H. simpl.
  rewrite (H x) by left. rewrite IH; [done|]. intros y Hy. apply H. by right.
Qed.

Lemma forallb_filter_fmap {A B} (f : A → B) (keep P : B → bool) l :
  forallb P (List.filter keep (f <$> l))
  = forallb (λ x, negb (keep (f x)) || P (f x)) l.
Proof.
  induction l as [|x l IH]; [done|]. rewrite fmap_cons. simpl.
  destruct (keep (f x)); simpl; by rewrite IH.
Qed.

Lemma formattable_dict (d : gmap string errobj) :
  formattable (ODict d)
  = forallb (λ kv, obj_is_none kv.2 || formattable kv.2) (map_to_list d).
Proof.
  simpl. rewrite map_fold_foldr.
  induction (map_to_list d) as [|[k v] l IH]; [done|]. simpl. by rewrite IH.
Qed.

Lemma format_formattable n : ∀ v indent,
  height v < n → is_ok (format_compound_error v indent) = formattable v.
Proof.
  induction n as [|n IH]; intros v indent Hn; [lia|].
  destruct v as [msg| |s|l|d|r]; try done.
  - cbn [format_compound_error]. rewrite is_ok_bind_Ok. simpl in Hn. simpl.
    induction l as [|x l IHl]; [done|]. cbn [foldr] in Hn. simpl.
    destruct (obj_is_none x) eqn:Hx; simpl.
    + apply IHl. lia.
    + rewrite <-(IH x indent) by lia.
      destruct (format_compound_error x indent); [|done]. simpl.
      rewrite <-IHl by lia. by rewrite is_ok_bind_Ok.
  - rewrite format_dict, formattable_dict, is_ok_bind_Ok, is_ok_mapM.
    rewrite (forallb_perm _ _ _ (filter_perm kept _ _ (sort_items_perm _))).
    rewrite forallb_filter_fmap. apply forallb_ext_in.
    intros [k v] Hkv. unfold kept, item_line. simpl. rewrite negb_involutive.
    rewrite is_ok_bind_Ok. f_equal. apply IH.
    pose proof (height_entry _ _ Hkv). simpl in *. lia.
Qed.
End formattable_facts.

(** X25: [format_compound_error] raises exactly on the values that
    are not formattable: [None] or an unexpected object at the top, or
    an unexpected object as an element or entry at any depth. *)
Theorem format_compound_error_ok (v : Schema.errobj) (indent : nat) :
  Py.is_ok (Schema.format_compound_error v indent) = Schema.formattable v.
Proof. apply (format_formattable (S (Schema.height v))). lia. Qed.

(** ** Shared containers *)

Section class_attribute_facts.
Import Schema.
Context {C : Type} `{!Inhabited C}.

Lemma add_to_attr_instance (update : C → C) own cls (h h' : gmap nat C) own' :
  cls ∈ dom h → attr own cls ∈ dom h →
  add_to_attr update (Some own) cls h = (h', own') →
  h' !! cls = h !! cls
  ∧ h' !!! attr own' cls = update (h !!! attr own cls)
  ∧ attr own' cls ≠ cls
  ∧ ∀ l, l ∈ dom h → l ≠ attr own' cls → h' !! l = h !! l.
Proof.
  intros Hcls Hown. unfold add_to_attr.
  pose proof (is_fresh (dom h)) as Hfresh.
  destruct (decide (attr own cls = cls)) as [Heq|Hne]; intros [= <- <-].
  - rewrite Heq. change (attr (Some (fresh (dom h))) cls) with (fresh (dom h)).
    assert (fresh (dom h) ≠ cls) as Hf.
    { intros E. apply Hfresh. by rewrite E. }
    split_and!.
    + by rewrite lookup_alter_ne, lookup_insert_ne.
    + rewrite lookup_total_alter_eq. by rewrite lookup_insert_eq.
    + done.
    + intros l Hl Hne. by rewrite lookup_alter_ne, lookup_insert_ne.
  - apply elem_of_dom in Hown as [x Hx]. split_and!.
    + by rewrite lookup_alter_ne.
    + rewrite lookup_total_alter_eq, Hx. simpl.
      by rewrite (lookup_total_correct _ _ _ Hx).
    + done.
    + intros l Hl Hl'. by rewrite lookup_alter_ne.
Qed.

Lemma add_to_attr_class (update : C → C) cls (h h' : gmap nat C) own' :
  cls ∈ dom h →
  add_to_attr update None cls h = (h', own') →
  h' !!! cls = update (h !!! cls)
  ∧ (∀ own, attr own cls = cls → h' !!! attr own cls = update (h !!! cls))
  ∧ ∀ l, l ≠ cls → h' !! l = h !! l.
Proof.
  intros [x Hx]%elem_of_dom [= <- <-].
  assert (alter update cls h !!! cls = update (h !!! cls)) as Hcls.
  { rewrite lookup_total_alter_eq, Hx. simpl.
    by rewrite (lookup_total_correct _ _ _ Hx). }
  split_and!.
  - done.
  - by intros own ->.
  - intros l Hl. by rewrite lookup_alter_ne.
Qed.
End class_attribute_facts.

(** X26: [add_field] called on an instance never changes the
    class's dictionary.  When the instance still shares it, the field
    goes into a fresh copy, which becomes the instance's own; no other
    object of the store changes.  Called on the class it changes the
    class's dictionary, which every instance still sharing it sees. *)
Theorem add_field_copy_on_write {V} (name : string) (validator : V)
    (cls : nat) (h : gmap nat (gmap string V)) :
  cls ∈ dom h →
  (∀ own h' own',
     Schema.attr own cls ∈ dom h →
     Schema.add_field name validator (Some own) cls h = (h', own') →
     h' !! cls = h !! cls
     ∧ h' !!! Schema.attr own' cls
       = <[name := validator]> (h !!! Schema.attr own cls)
     ∧ Schema.attr own' cls ≠ cls
     ∧ ∀ l, l ∈ dom h → l ≠ Schema.attr own' cls → h' !! l = h !! l)
  ∧ (∀ h' own',
       Schema.add_field name validator None cls h = (h', own') →
       h' !!! cls = <[name := validator]> (h !!! cls)
       ∧ (∀ own, Schema.attr own cls = cls →
            h' !!! Schema.attr own cls = <[name := validator]> (h !!! cls))
       ∧ ∀ l, l ≠ cls → h' !! l = h !! l).
Proof.
  intros Hcls. split.
  - intros own h' own' Hown. by apply add_to_attr_instance.
  - intros h' own'. by apply add_to_attr_class.
Qed.

(** X27: [add_chained_validator] and [add_pre_validator] called
    on an instance append the validator to the end of the instance's
    list, after copying the class's list when it is shared; the class's
    list does not change. *)
Theorem add_validator_copy_on_write {V} (validator : V)
    (own own' : option nat) (cls : nat) (h h' : gmap nat (list V)) :
  cls ∈ dom h → Schema.attr own cls ∈ dom h →
  (Schema.add_chained_validator validator (Some own) cls h = (h', own')
   ∨ Schema.add_pre_validator validator (Some own) cls h = (h', own')) →
  h' !! cls = h !! cls
  ∧ h' !!! Schema.attr own' cls = h !!! Schema.attr own cls ++ [validator]
  ∧ Schema.attr own' cls ≠ cls
  ∧ ∀ l, l ∈ dom h → l ≠ Schema.attr own' cls → h' !! l = h !! l.
Proof.
  intros Hc Ho [H|H];
    exact (add_to_attr_instance (λ l, l ++ [validator]) _ _ _ _ _ Hc Ho H).
Qed.

(** ** The properties at sample inputs *)

(** The general statement at the sample document [<p>Hi</p>]: the
    output is the document cut at column 5, where its last token starts. *)
Lemma passthrough_fill_sample :
  Htmlfill.fill Examples.plain Examples.doc_p Examples.tokens_p
  = Py.Ok (Py.str_take 5 Examples.doc_p).
Proof.
  rewrite passthrough_fill; try done.
  - repeat constructor.
  - repeat split; try (by right; simpl; lia);
      by (eexists 0, Examples.doc_p; repeat split; simpl; lia).
Qed.


(** C3 at two samples: the default [unused] that nothing uses, and the
    error [bad] for [k] that nothing uses. *)
Lemma close_strict_mode_witness :
  Htmlfill.auto_insert_errors Examples.strict_c Examples.used_k_p
  = Py.Ok (Examples.used_k_p, ∅)
  ∧ Htmlfill.close Examples.strict_c Examples.used_k_p
    = Py.Raise (Py.AssertionError
        "These keys from defaults were not used in the form: ['unused']")
  ∧ Htmlfill.auto_insert_errors Examples.strict_errors_c Htmlfill.new_parser
    = Py.Ok (Htmlfill.new_parser, {[ Some "k" := Py.VStr "bad" ]})
  ∧ Htmlfill.close Examples.strict_errors_c Htmlfill.new_parser
    = Py.Raise (Py.AssertionError
        "These errors were not used in the form: k: bad").
Proof.
  assert (H : Htmlfill.auto_insert_errors Examples.strict_c Examples.used_k_p
              = Py.Ok (Examples.used_k_p, ∅)) by (vm_compute; reflexivity).
  assert (H' : Htmlfill.auto_insert_errors Examples.strict_errors_c
                 Htmlfill.new_parser
               = Py.Ok (Htmlfill.new_parser, {[ Some "k" := Py.VStr "bad" ]}))
    by (vm_compute; reflexivity).
  split; [exact H|]. split; [|split; [exact H'|]].
  - destruct (close_strict_mode Examples.strict_c Examples.used_k_p
                Examples.used_k_p ∅ H) as (_ & _ & Hfail & _).
    rewrite Hfail.
    + vm_compute. reflexivity.
    + reflexivity.
    + intros E. apply (f_equal (λ m, m !! Some "unused")) in E.
      vm_compute in E. discriminate E.
  - destruct (close_strict_mode Examples.strict_errors_c Htmlfill.new_parser
                Htmlfill.new_parser _ H') as (_ & _ & _ & Hfail & _).
    destruct Hfail as (error_text & Htext & ->).
    + reflexivity.
    + vm_compute. reflexivity.
    + intros E. apply (f_equal (λ m, m !! Some "k")) in E.
      rewrite lookup_singleton_eq, lookup_empty in E. discriminate E.
    + rewrite map_to_list_singleton in Htext.
      apply Forall2_cons_inv_l in Htext
        as (s & rest & (v & sv & Hv & Hsv & ->) & Hrest%Forall2_nil_inv_l & ->).
      subst rest.
      change (({[ Some "k" := Py.VStr "bad" ]} : gmap Py.key Py.pyval)
                !! Some "k" = Some v) in Hv.
      rewrite lookup_singleton_eq in Hv. injection Hv as <-.
      injection Hsv as <-. reflexivity.
Defined.



(** C8 at a sample: the default [Send] replaces the value [Go]. *)
Lemma button_like_input_value_witness :
  Htmlfill.input_type Examples.submit_go
    ∈ ["password"; "submit"; "reset"; "button"; "image"]
  ∧ Htmlfill.prepare_attrs Examples.default_send (Some "k") Examples.submit_go
    = Py.Ok Examples.submit_go
  ∧ Htmlfill.get_attr
      (Htmlfill.set_attr (Htmlfill.as_objects Examples.submit_go) "value"
         (Py.VStr "Send")) "value" Py.VNone = Py.VStr "Send".
Proof.
  assert (H1 : Htmlfill.input_type Examples.submit_go
               ∈ ["password"; "submit"; "reset"; "button"; "image"])
    by (right; left).
  assert (H2 : Htmlfill.prepare_attrs Examples.default_send (Some "k")
                 Examples.submit_go = Py.Ok Examples.submit_go)
    by (vm_compute; reflexivity).
  split; [exact H1|]. split; [exact H2|].
  destruct (button_like_input_value Examples.default_send (1, 0)
              Examples.submit_go Examples.submit_go false Htmlfill.new_parser
              H1 H2) as (_ & Hget & _).
  exact Hget.
Defined.

(** C8 fails as stated: the default for [k] is present and empty, and
    the emitted tag keeps the value [Go] of the source. *)
Lemma submit_empty_default_keeps_value :
  Htmlfill.defaults Examples.empty_default !! Some "k" = Some (Py.VStr EmptyString)
  ∧ Htmlfill.fill Examples.empty_default Examples.doc_submit Examples.tokens_submit
    = Py.Ok ("<input type=" +:+ Examples.quoted "submit" +:+ " name="
             +:+ Examples.quoted "k" +:+ " value=" +:+ Examples.quoted "Go"
             +:+ ">").
Proof. split; vm_compute; reflexivity. Qed.

(** C5 at a sample: the default [x<y] is written as [x&lt;y], which
    unescapes to the default. *)
Lemma textarea_filled_witness :
  Htmlfill.write_pos (1, 0) (Examples.fed Examples.doc_textarea)
  = Py.Ok (Htmlfill.set_source_pos (1, 0)
             (Htmlfill.write_text (Py.VStr EmptyString)
                (Examples.fed Examples.doc_textarea)))
  ∧ Htmlfill.mark_error Examples.default_a (Some "a") Examples.textarea_a
    = Py.Ok Examples.textarea_a
  ∧ Htmlfill.tag_text "textarea" (Htmlfill.as_objects Examples.textarea_a) false
    = Py.Ok ("<textarea name=" +:+ Examples.quoted "a" +:+ ">")
  ∧ Htmlfill.html_quote (Py.VStr "x<y") = Py.Ok "x&lt;y"
  ∧ Htmlfill.html_unescape "x&lt;y" = "x<y".
Proof.
  assert (H1 : Htmlfill.write_pos (1, 0) (Examples.fed Examples.doc_textarea)
    = Py.Ok (Htmlfill.set_source_pos (1, 0)
               (Htmlfill.write_text (Py.VStr EmptyString)
                  (Examples.fed Examples.doc_textarea))))
    by (vm_compute; reflexivity).
  assert (H2 : Htmlfill.mark_error Examples.default_a (Some "a")
                 Examples.textarea_a = Py.Ok Examples.textarea_a)
    by (vm_compute; reflexivity).
  assert (H3 : Htmlfill.tag_text "textarea"
                 (Htmlfill.as_objects Examples.textarea_a) false
               = Py.Ok ("<textarea name=" +:+ Examples.quoted "a" +:+ ">"))
    by (vm_compute; reflexivity).
  assert (H4 : Htmlfill.html_quote (Py.VStr "x<y") = Py.Ok "x&lt;y")
    by (vm_compute; reflexivity).
  repeat (split; [assumption|]).
  destruct (textarea_filled Examples.default_a (1, 0) Examples.textarea_a
              Examples.textarea_a false (Examples.fed Examples.doc_textarea)
              _ _ _ H1 H2 H3 H4) as (_ & Hstr & _).
  exact (proj2 (Hstr "x<y" eq_refl)).
Defined.

(** C5 fails as stated: an [input] tag inside the body of the textarea
    is still rewritten and written out, after the closing tag. *)
Lemma textarea_body_input_written :
  Htmlfill.fill Examples.default_a Examples.doc_textarea_input
    Examples.tokens_textarea_input
  = Py.Ok ("<textarea name=" +:+ Examples.quoted "a" +:+ ">x&lt;y</textarea>"
           +:+ "<input name=" +:+ Examples.quoted "b" +:+ " value="
           +:+ Examples.quoted EmptyString +:+ ">").
Proof. vm_compute. reflexivity. Qed.



(** The directive at a sample: [<form:error name="k"/>] with the error [bad]. *)
Lemma form_error_directive_witness :
  Htmlfill.write_pos (1, 0) (Examples.fed Examples.doc_error)
  = Py.Ok (Htmlfill.set_source_pos (1, 0)
             (Htmlfill.write_text (Py.VStr EmptyString)
                (Examples.fed Examples.doc_error)))
  ∧ Htmlfill.error_key Examples.name_k (Examples.fed Examples.doc_error)
    = Some "k"
  ∧ ∃ p', Htmlfill.handle_starttag Examples.error_c (1, 0) "form:error"
            Examples.name_k true (Examples.fed Examples.doc_error) = Py.Ok p'
          ∧ Htmlfill._content p'
            = [Htmlfill.Text (Py.VStr EmptyString);
               Htmlfill.Text
                 (Py.VStr ("<span class=" +:+ Examples.quoted "error-message"
                           +:+ ">bad</span><br />" +:+ Py.NL))].
Proof.
  assert (H1 : Htmlfill.write_pos (1, 0) (Examples.fed Examples.doc_error)
    = Py.Ok (Htmlfill.set_source_pos (1, 0)
               (Htmlfill.write_text (Py.VStr EmptyString)
                  (Examples.fed Examples.doc_error))))
    by (vm_compute; reflexivity).
  assert (H2 : Htmlfill.error_key Examples.name_k
                 (Examples.fed Examples.doc_error) = Some "k")
    by reflexivity.
  split; [exact H1|]. split; [exact H2|].
  destruct (form_error_directive Examples.error_c (1, 0) Examples.name_k true
              (Examples.fed Examples.doc_error) _ "k" H1 H2) as [Hyes _].
  destruct (Hyes eq_refl Htmlfill.default_formatter
              (Py.VStr ("<span class=" +:+ Examples.quoted "error-message"
                        +:+ ">bad</span><br />" +:+ Py.NL))
              eq_refl eq_refl) as (p' & Hrun & Hc & _).
  exists p'. split; [exact Hrun|]. rewrite Hc. reflexivity.
Defined.

(** C10 at a sample: [<form:error name="k"/>] with no error for [k]
    writes nothing and still marks [k] as used. *)
Lemma form_error_key_stays_used_witness :
  Htmlfill.error_key Examples.name_k (Examples.fed Examples.doc_error) = Some "k"
  ∧ Htmlfill.has_error Examples.plain (Some "k") = false
  ∧ ∃ p', Htmlfill.handle_starttag Examples.plain (1, 0) "form:error"
            Examples.name_k true (Examples.fed Examples.doc_error) = Py.Ok p'
          ∧ Htmlfill._content p' = [Htmlfill.Text (Py.VStr EmptyString)]
          ∧ Some "k" ∈ Htmlfill.used_errors p'.
Proof.
  assert (H1 : Htmlfill.error_key Examples.name_k
                 (Examples.fed Examples.doc_error) = Some "k")
    by reflexivity.
  assert (H2 : Htmlfill.has_error Examples.plain (Some "k") = false)
    by reflexivity.
  split; [exact H1|]. split; [exact H2|].
  destruct (form_error_key_stays_used Examples.plain (1, 0) Examples.name_k
              true (Examples.fed Examples.doc_error) "k" H1) as [Hno _].
  destruct (Hno H2 _ ltac:(vm_compute; reflexivity)) as (p' & Hrun & Hc & Hin).
  exists p'. split; [exact Hrun|]. split; [|exact Hin]. rewrite Hc. reflexivity.
Defined.

(** X1 at a sample: the second event of [<p>Hi</p>] copies [<p>] and
    leaves the cursor at column 3. *)
Lemma write_pos_moves_cursor_witness :
  Htmlfill.write_pos (1, 3) (Examples.fed Examples.doc_p)
  = Py.Ok (Htmlfill.set_source_pos (1, 3)
             (Htmlfill.write_text (Py.VStr "<p>") (Examples.fed Examples.doc_p)))
  ∧ Htmlfill.source_pos
      (Htmlfill.set_source_pos (1, 3)
         (Htmlfill.write_text (Py.VStr "<p>") (Examples.fed Examples.doc_p)))
    = (1, 3).
Proof.
  assert (H : Htmlfill.write_pos (1, 3) (Examples.fed Examples.doc_p)
    = Py.Ok (Htmlfill.set_source_pos (1, 3)
               (Htmlfill.write_text (Py.VStr "<p>")
                  (Examples.fed Examples.doc_p))))
    by (vm_compute; reflexivity).
  split; [exact H|].
  exact (proj1 (write_pos_moves_cursor _ _ _ H)).
Defined.

(** X2 at a sample: in the one-line document [<p>Hi</p>] an event on
    line 1 is copied and an event on line 2 raises. *)
Lemma write_pos_line_bounds_witness :
  Htmlfill.copying (Examples.fed Examples.doc_p)
  ∧ Py.is_ok (Htmlfill.write_pos (1, 3) (Examples.fed Examples.doc_p)) = true
  ∧ Htmlfill.write_pos (2, 0) (Examples.fed Examples.doc_p)
    = Py.Raise (Py.IndexError "list index out of range").
Proof.
  assert (H1 : Htmlfill.copying (Examples.fed Examples.doc_p))
    by (repeat split; reflexivity).
  assert (H2 : 1 ≤ (Htmlfill.source_pos (Examples.fed Examples.doc_p)).1
               ≤ List.length (Htmlfill.lines (Examples.fed Examples.doc_p)))
    by (simpl; lia).
  split; [exact H1|]. split.
  - apply (write_pos_line_bounds (1, 3) _ H1 H2); simpl; lia.
  - apply (write_pos_line_bounds (2, 0) _ H1 H2); simpl; lia.
Defined.

(** X3 at a sample: the three events of [<p>Hi</p>] leave the lines
    as they were. *)
Lemma feed_only_accumulates_witness :
  ∃ p', Py.foldM (Htmlfill.handle Examples.plain) Examples.tokens_p
          (Examples.fed Examples.doc_p) = Py.Ok p'
        ∧ Htmlfill.lines p' = Htmlfill.lines (Examples.fed Examples.doc_p).
Proof.
  destruct (Py.foldM (Htmlfill.handle Examples.plain) Examples.tokens_p
              (Examples.fed Examples.doc_p)) as [p'|e] eqn:H.
  - exists p'. split; [reflexivity|].
    exact (proj2 (proj2 (proj2 (feed_only_accumulates _ _ _ _ H)))).
  - vm_compute in H. discriminate H.
Defined.

(** X4 at a sample: after the submit button named [k] has been fed,
    the buffer has a marker for [k]. *)
Lemma used_keys_have_markers_witness :
  Htmlfill.feed Examples.default_send Examples.doc_submit Examples.tokens_submit
    Htmlfill.new_parser = Py.Ok Examples.submit_fed
  ∧ Htmlfill.Marker (Some "k") ∈ Htmlfill._content Examples.submit_fed.
Proof.
  assert (H : Htmlfill.feed Examples.default_send Examples.doc_submit
                Examples.tokens_submit Htmlfill.new_parser
              = Py.Ok Examples.submit_fed) by (vm_compute; reflexivity).
  split; [exact H|].
  apply (used_keys_have_markers _ _ _ _ H (Some "k")).
  simpl. apply elem_of_union_l, elem_of_singleton. reflexivity.
Defined.

(** X5 at a sample: in [a<input name="k">b] with the default [Send]
    the tag is replaced by the rewritten one and the text before it is
    kept. *)
Lemma input_replaced_in_place_witness :
  ∃ p, Htmlfill.feed Examples.default_send Examples.doc_a_input
         Examples.tokens_a_input Htmlfill.new_parser = Py.Ok p
       ∧ Htmlfill.join_text (Htmlfill._content p)
         = Py.Ok ("a<input name=" +:+ Examples.quoted "k" +:+ " value="
                  +:+ Examples.quoted "Send" +:+ ">")
       ∧ Htmlfill.used_keys p = {[ Some "k" ]}.
Proof.
  destruct (input_replaced_in_place Examples.default_send Examples.doc_a_input
              [((1, 0), Htmlfill.Misc)] [] (1, 1) (1, 17)
              Examples.name_k Examples.name_k Htmlfill.Misc
              ("<input name=" +:+ Examples.quoted "k" +:+ " value="
               +:+ Examples.quoted "Send" +:+ ">"))
    as (p & Hfeed & Hjoin & Hkeys).
  - repeat constructor.
  - reflexivity.
  - constructor.
  - repeat split; try (by right; simpl; lia);
      by (eexists 0, Examples.doc_a_input; repeat split; simpl; lia).
  - left.
  - vm_compute. reflexivity.
  - vm_compute. reflexivity.
  - exists p. split; [exact Hfeed|]. split; [|exact Hkeys].
    rewrite Hjoin. vm_compute. reflexivity.
Defined.

(** X6 at a sample: an input without a type is a text input, and the
    default [Send] becomes its value. *)
Lemma text_input_value_witness :
  Htmlfill.input_type Examples.name_k ∈ ["text"; "hidden"]
  ∧ Htmlfill.prepare_attrs Examples.default_send (Some "k") Examples.name_k
    = Py.Ok Examples.name_k
  ∧ Htmlfill.get_attr
      (Htmlfill.set_attr (Htmlfill.as_objects Examples.name_k) "value"
         (Py.VStr "Send")) "value" Py.VNone = Py.VStr "Send".
Proof.
  assert (H1 : Htmlfill.input_type Examples.name_k ∈ ["text"; "hidden"]) by left.
  assert (H2 : Htmlfill.prepare_attrs Examples.default_send (Some "k")
                 Examples.name_k = Py.Ok Examples.name_k)
    by (vm_compute; reflexivity).
  split; [exact H1|]. split; [exact H2|].
  destruct (text_input_value Examples.default_send (1, 0) Examples.name_k
              Examples.name_k false Htmlfill.new_parser H1 H2)
    as (_ & Hget & _).
  exact Hget.
Defined.

(** X7 at a sample: the default [Send] checks the radio button with
    the value [Send]. *)
Lemma radio_input_checked_witness :
  Htmlfill.input_type Examples.radio_send = "radio"
  ∧ Htmlfill.prepare_attrs Examples.default_send (Some "k") Examples.radio_send
    = Py.Ok Examples.radio_send
  ∧ Htmlfill.get_attr
      (Htmlfill.set_attr Examples.radio_send "checked" (Some "checked"))
      "checked" None = Some "checked".
Proof.
  assert (H1 : Htmlfill.input_type Examples.radio_send = "radio") by reflexivity.
  assert (H2 : Htmlfill.prepare_attrs Examples.default_send (Some "k")
                 Examples.radio_send = Py.Ok Examples.radio_send)
    by (vm_compute; reflexivity).
  split; [exact H1|]. split; [exact H2|].
  destruct (radio_input_checked Examples.default_send (1, 0) Examples.radio_send
              Examples.radio_send false Htmlfill.new_parser "Send" H1 H2
              ltac:(vm_compute; reflexivity)) as (_ & Hset & _).
  exact (Hset eq_refl).
Defined.

(** X8 at a sample: [<input type="file" name="f">] is copied as it
    is by the next event, and [f] is not marked as used. *)
Lemma file_input_left_alone_witness :
  Htmlfill.input_type Examples.file_f = "file"
  ∧ ∃ p1 p2 new,
      Htmlfill.handle_starttag Examples.plain (1, 0) "input" Examples.file_f
        false (Examples.fed Examples.doc_file) = Py.Ok p1
      ∧ Htmlfill.used_keys p1 = ∅
      ∧ Htmlfill.write_pos (1, 28) p1 = Py.Ok p2
      ∧ Htmlfill._content p2
        = [Htmlfill.Text (Py.VStr EmptyString); Htmlfill.Marker (Some "f")]
          ++ new
      ∧ Htmlfill.join_text new
        = Py.Ok ("<input type=" +:+ Examples.quoted "file" +:+ " name="
                 +:+ Examples.quoted "f" +:+ ">").
Proof.
  split; [reflexivity|].
  destruct (file_input_left_alone Examples.plain (1, 0) (1, 28) Examples.file_f
              Examples.file_f false (Examples.fed Examples.doc_file)
              (Htmlfill.set_source_pos (1, 0)
                 (Htmlfill.write_text (Py.VStr EmptyString)
                    (Examples.fed Examples.doc_file))))
    as (p1 & p2 & new & H1 & Hk & H2 & Hc & Hj).
  - reflexivity.
  - vm_compute. reflexivity.
  - reflexivity.
  - reflexivity.
  - vm_compute. reflexivity.
  - eexists 0, Examples.doc_file. repeat split; simpl; lia.
  - eexists 0, Examples.doc_file. repeat split; simpl; lia.
  - right. simpl. lia.
  - exists p1, p2, new. split; [exact H1|]. split; [exact Hk|].
    split; [exact H2|]. split; [exact Hc|]. rewrite Hj. vm_compute. reflexivity.
Defined.

(** X9 at a sample: [<input type="color">] makes the handler fail. *)
Lemma unknown_input_type_fails_witness :
  (Htmlfill.input_type Examples.color_a ∉ Htmlfill.input_types)
  ∧ Py.is_ok (Htmlfill.handle_input Examples.plain (1, 0) Examples.color_a false
                Htmlfill.new_parser) = false.
Proof.
  assert (H : Htmlfill.input_type Examples.color_a ∉ Htmlfill.input_types).
  { intros H. repeat (apply elem_of_cons in H as [H|H]; [discriminate H|]).
    by apply elem_of_nil in H. }
  split; [exact H|].
  exact (proj1 (unknown_input_type_fails Examples.plain (1, 0) Examples.color_a
                  false Htmlfill.new_parser H)).
Defined.

(** X10 at a sample: inside the select element [s] with the default
    [v], the option with the value [v] is selected. *)
Lemma option_selected_witness :
  Htmlfill.in_select Examples.in_select_s = Some "s"
  ∧ Py.py_str (Htmlfill.dict_get (Htmlfill.defaults Examples.default_s) (Some "s")
                 (Py.VStr EmptyString)) = Py.Ok "v"
  ∧ Htmlfill.get_attr
      (Htmlfill.set_attr Examples.option_v "selected" (Some "selected"))
      "selected" None = Some "selected".
Proof.
  assert (H1 : Htmlfill.in_select Examples.in_select_s = Some "s") by reflexivity.
  assert (H2 : Py.py_str (Htmlfill.dict_get (Htmlfill.defaults Examples.default_s)
                            (Some "s") (Py.VStr EmptyString)) = Py.Ok "v")
    by (vm_compute; reflexivity).
  split; [exact H1|]. split; [exact H2|].
  destruct (option_selected Examples.default_s Examples.option_v
              Examples.in_select_s "s" "v" H1 ltac:(discriminate) H2)
    as (_ & Hset & _).
  exact (Hset eq_refl).
Defined.

(** X11 at a sample: an option and a form:iferror without attributes,
    at the start of a document, raise [TypeError]. *)
Lemma directive_needs_name_witness :
  Htmlfill.write_pos (1, 0) (Examples.fed Examples.doc_p)
  = Py.Ok (Htmlfill.set_source_pos (1, 0)
             (Htmlfill.write_text (Py.VStr EmptyString)
                (Examples.fed Examples.doc_p)))
  ∧ Htmlfill.handle_starttag Examples.plain (1, 0) "option" [] false
      (Examples.fed Examples.doc_p) = Py.Raise Htmlfill.bad_format
  ∧ Htmlfill.handle_starttag Examples.plain (1, 0) "form:iferror" [] false
      (Examples.fed Examples.doc_p) = Py.Raise Htmlfill.bad_format.
Proof.
  assert (H : Htmlfill.write_pos (1, 0) (Examples.fed Examples.doc_p)
    = Py.Ok (Htmlfill.set_source_pos (1, 0)
               (Htmlfill.write_text (Py.VStr EmptyString)
                  (Examples.fed Examples.doc_p))))
    by (vm_compute; reflexivity).
  split; [exact H|].
  destruct (directive_needs_name Examples.plain (1, 0) [] false
              (Examples.fed Examples.doc_p) _ H) as (Hopt & Hif & _).
  split; [apply Hopt|apply Hif]; left; reflexivity.
Defined.

(** X12 at a sample: [<form:error name="k" format="escape">] with an
    error for [k] raises [TypeError]. *)
Lemma form_error_bad_formatter_witness :
  Htmlfill.error_key Examples.escape_k (Examples.fed Examples.doc_error) = Some "k"
  ∧ Htmlfill.has_error Examples.error_c (Some "k") = true
  ∧ Htmlfill.handle_starttag Examples.error_c (1, 0) "form:error"
      Examples.escape_k true (Examples.fed Examples.doc_error)
    = Py.Raise (Py.TypeError "html_quote() takes exactly 1 argument (2 given)").
Proof.
  assert (H1 : Htmlfill.error_key Examples.escape_k
                 (Examples.fed Examples.doc_error) = Some "k") by reflexivity.
  assert (H2 : Htmlfill.has_error Examples.error_c (Some "k") = true)
    by (vm_compute; reflexivity).
  split; [exact H1|]. split; [exact H2|].
  destruct (form_error_bad_formatter Examples.error_c (1, 0) Examples.escape_k
              true (Examples.fed Examples.doc_error) _ "k"
              ltac:(vm_compute; reflexivity) H1 H2) as [_ Hesc].
  apply Hesc; reflexivity.
Defined.

(** X13 at a sample: with the string [bad] given as [errors], in
    strict mode, closing after [<p>Hi</p>] fails. *)
Lemma form_level_error_stays_unused_witness :
  Htmlfill.errors Examples.form_level_c !! None = Some (Py.VStr "bad")
  ∧ ∃ p, Htmlfill.feed Examples.form_level_c Examples.doc_p Examples.tokens_p
           Htmlfill.new_parser = Py.Ok p
         ∧ Py.is_ok (Htmlfill.close Examples.form_level_c p) = false.
Proof.
  assert (H1 : Htmlfill.errors Examples.form_level_c !! None
               = Some (Py.VStr "bad")) by (vm_compute; reflexivity).
  split; [exact H1|].
  destruct (Htmlfill.feed Examples.form_level_c Examples.doc_p Examples.tokens_p
              Htmlfill.new_parser) as [p|e] eqn:H.
  - exists p. split; [reflexivity|].
    destruct (form_level_error_stays_unused _ _ _ _ _ H H1) as (_ & _ & Hclose).
    apply Hclose; reflexivity.
  - vm_compute in H. discriminate H.
Defined.

(** X14 at a sample: [a<b] is quoted as [a&lt;b], which has no [<]. *)
Lemma html_quote_no_markup_witness :
  Htmlfill.html_quote (Py.VStr "a<b") = Py.Ok "a&lt;b"
  ∧ Py.str_contains "<" "a&lt;b" = false.
Proof.
  assert (H : Htmlfill.html_quote (Py.VStr "a<b") = Py.Ok "a&lt;b")
    by (vm_compute; reflexivity).
  split; [exact H|].
  exact (proj1 (html_quote_no_markup (Py.VStr "a<b") "a&lt;b" H
                  ltac:(discriminate))).
Defined.

(** X15 at a sample: the attribute [form:x] is not written. *)
Lemma write_tag_drops_form_attrs_witness :
  Py.startswith "form:" "form:x" = true
  ∧ Htmlfill.write_tag "input"
      ([("name", Py.VStr "k")] ++ ("form:x", Py.VNone) :: []) false
      Htmlfill.new_parser
    = Htmlfill.write_tag "input" ([("name", Py.VStr "k")] ++ []) false
        Htmlfill.new_parser.
Proof.
  split; [reflexivity|].
  apply (write_tag_drops_form_attrs "input" [("name", Py.VStr "k")] [] "form:x").
  reflexivity.
Defined.

(** X16 at a sample: the value set for [value] is the one read back. *)
Lemma set_attr_get_attr_witness :
  Py.str_lower "value" = "value"
  ∧ Htmlfill.get_attr (Htmlfill.set_attr Examples.submit_go "value" (Some "Send"))
      "value" None = Some "Send".
Proof.
  split; [reflexivity|].
  exact (proj1 (set_attr_get_attr Examples.submit_go "value" "name"
                  (Some "Send") None eq_refl)).
Defined.

(** X18 at a sample: the name [onClick] is not found in a tag that
    has it, and setting it appends a second attribute. *)
Lemma attr_name_not_lower_case_witness :
  Py.str_lower "onClick" = "onclick"
  ∧ Htmlfill.get_attr [("onClick", Some "f()")] "onClick" None = None
  ∧ Htmlfill.set_attr [("onClick", Some "f()")] "onClick" (Some "g()")
    = [("onClick", Some "f()"); ("onClick", Some "g()")].
Proof.
  split; [reflexivity|].
  destruct (attr_name_not_lower_case [("onClick", Some "f()")] "onClick"
              (Some "g()") None ltac:(discriminate)) as (Hget & Hset & _).
  split; [exact Hget|exact Hset].
Defined.

(** X20 at a sample: the text [e] inserted at the marker between [a]
    and [b]. *)
Lemma insert_at_marker_text_witness :
  Htmlfill.join_text (Htmlfill._content Examples.marked_p) = Py.Ok "ab"
  ∧ ∃ p', Htmlfill.insert_at_marker (Some "k") (Py.VStr "e") Examples.marked_p
          = Py.Ok p'
          ∧ ∃ pre post s1 s2,
              Htmlfill._content Examples.marked_p
              = pre ++ Htmlfill.Marker (Some "k") :: post
              ∧ (Htmlfill.Marker (Some "k") ∉ pre)
              ∧ Htmlfill.join_text pre = Py.Ok s1
              ∧ Htmlfill.join_text post = Py.Ok s2
              ∧ "ab" = s1 +:+ s2
              ∧ Htmlfill.join_text (Htmlfill._content p')
                = Py.Ok (s1 +:+ "e" +:+ s2).
Proof.
  assert (H1 : Htmlfill.join_text (Htmlfill._content Examples.marked_p)
               = Py.Ok "ab") by reflexivity.
  split; [exact H1|].
  destruct (Htmlfill.insert_at_marker (Some "k") (Py.VStr "e") Examples.marked_p)
    as [p'|e] eqn:H.
  - exists p'. split; [reflexivity|].
    exact (insert_at_marker_text (Some "k") "e" "ab" Examples.marked_p p' H H1).
  - vm_compute in H. discriminate H.
Defined.

(** X21 at a sample: a string merged with a list is the string. *)
Lemma merge_values_keeps_first_witness :
  Schema.same_kind (Schema.EStr "a") (Schema.EList []) = false
  ∧ Schema.merged (Schema.EStr "a") (Schema.EList []) (Schema.EStr "a").
Proof.
  split; [reflexivity|].
  exact (proj1 (merge_values_keeps_first (Schema.EStr "a") (Schema.EList [])
                  eq_refl)).
Defined.

(** X26 at a sample: a field added through an instance that shares
    the class's dictionary leaves that dictionary empty. *)
Lemma add_field_copy_on_write_witness :
  0 ∈ dom Examples.class_fields
  ∧ (Schema.add_field "name" 7 (Some None) 0 Examples.class_fields).1 !! 0
    = Examples.class_fields !! 0.
Proof.
  assert (H : 0 ∈ dom Examples.class_fields).
  { apply elem_of_dom. exists ∅. reflexivity. }
  split; [exact H|].
  destruct (add_field_copy_on_write "name" 7 0 Examples.class_fields H)
    as [Hinst _].
  destruct (Hinst None _ _ H (surjective_pairing _)) as (Hcls & _).
  exact Hcls.
Defined.

(** X27 at a sample: a validator added through an instance that
    shares the class's list leaves that list empty. *)
Lemma add_validator_copy_on_write_witness :
  0 ∈ dom Examples.class_validators
  ∧ (Schema.add_chained_validator 7 (Some None) 0 Examples.class_validators).1
      !! 0
    = Examples.class_validators !! 0.
Proof.
  assert (H : 0 ∈ dom Examples.class_validators).
  { apply elem_of_dom. exists []. reflexivity. }
  split; [exact H|].
  destruct (add_validator_copy_on_write 7 None _ 0 Examples.class_validators _
              H H (or_introl (surjective_pairing _))) as (Hcls & _).
  exact Hcls.
Defined.
